(** * Unpaid-labour valuation: the configuration module [config.py]

    A shallow embedding of [src/config.py] and the properties of its
    constants and helper functions.

    Python values are modelled as the interpreter has them:
    - [int] is [Z] (unbounded);
    - [float] is the kernel's IEEE 754 binary64 type [float], so that
      [0.072 + 0.024 + 0.010] is computed with the same roundings as in
      CPython; a decimal literal denotes the nearest binary64 value;
    - [str] is [string], holding the UTF-8 bytes of the text;
    - [dict] with string keys is [gmap string _];
    - a raised exception is the [Raise] branch of [result].

    Values of floats are computed by the kernel; statements about all
    floats go through [SpecFloat], to which [FloatAxioms] relates the
    primitive operations. *)

From Stdlib Require Import ZArith QArith Qabs Qround Floats Lia List Ascii String.
From stdpp Require Import base option list gmap strings pretty.

Set Warnings "-inexact-float".
#[local] Open Scope Z_scope.

(** ** Paths ([pathlib.Path])

    A path is the list of its components, innermost name first, so that
    [self.parent] is the tail and [p / name] is a cons. *)

Abbreviation Path := (list string) (only parsing).

Definition joinpath (p : Path) (name : string) : Path := name :: p.
Infix "/:" := joinpath (at level 40, left associativity).

Definition parent (p : Path) : Path := tail p.

(** ** Exceptions and results *)

(** The pieces of an f-string: literal text, and [{x}] for a float [x],
    which Python renders with [repr]. *)
Inductive piece : Type :=
  | Text (s : string)
  | Repr (x : float).

Inductive exn : Type :=
  | AssertionError (msg : list piece)
  | OverflowError
  | ValueError
  | ZeroDivisionError
  | FileNotFoundError (p : Path)
  | FileExistsError (p : Path)
  | NotADirectoryError (p : Path).

Inductive result (A : Type) : Type :=
  | Ok (a : A)
  | Raise (e : exn).
Arguments Ok {A} a.
Arguments Raise {A} e.

#[global] Instance result_ret : MRet result := fun A a => Ok a.
#[global] Instance result_bind : MBind result := fun A B k r =>
  match r with
  | Ok a => k a
  | Raise e => Raise e
  end.

(** ** Numbers *)

Module Py.

(** The conversion of an [int] used as a float operand
    ([PyLong_AsDouble]): the nearest binary64 value, ties to even. The
    module body applies it to small literals only, where it is exact
    (see [float_of_int_literals]). *)
Definition Z2F (z : Z) : float :=
  SF2Prim (binary_normalize prec emax z 0 false).

(** The same conversion with its failure: an [int] beyond the range of
    binary64 raises [OverflowError]. *)
Definition float_of_int (z : Z) : result float :=
  let x := Z2F z in
  if is_infinity x then Raise OverflowError else Ok x.

(** [int(x)] of a float: truncation toward zero; infinities and NaN
    raise. *)
Definition int (x : float) : result Z :=
  match Prim2SF x with
  | S754_zero _ => Ok 0
  | S754_finite s m e => Ok (cond_Zopp s (Z.shiftl (Zpos m) e))
  | S754_infinity _ => Raise OverflowError
  | S754_nan => Raise ValueError
  end.

(** The rational number a binary64 value stands for. *)
Definition SF2Q (x : spec_float) : option Q :=
  match x with
  | S754_zero _ => Some 0%Q
  | S754_finite s m e =>
      Some (match e with
            | Zneg k => cond_Zopp s (Zpos m) # Pos.shiftl 1 (Npos k)
            | _ => cond_Zopp s (Zpos m * 2 ^ e) # 1
            end)
  | _ => None
  end.

Definition exact (x : float) : option Q := SF2Q (Prim2SF x).

(** A Python number: the values of the configuration tables are ints
    and floats side by side. *)
Inductive num : Type :=
  | Int (z : Z)
  | Float (x : float).

(** Comparison of an int with a float is exact in CPython (no rounding
    of the int). *)
Definition compare_int_float (z : Z) (x : float) : option comparison :=
  match Prim2SF x with
  | S754_nan => None
  | S754_infinity s => Some (if s then Gt else Lt)
  | sf => match SF2Q sf with
          | Some q => Some (Qcompare (inject_Z z) q)
          | None => None
          end
  end.

Definition compare (a b : num) : option comparison :=
  match a, b with
  | Int x, Int y => Some (Z.compare x y)
  | Float x, Float y => SFcompare (Prim2SF x) (Prim2SF y)
  | Int x, Float y => compare_int_float x y
  | Float x, Int y => option_map CompOpp (compare_int_float y x)
  end.

Definition le (a b : num) : bool :=
  match compare a b with
  | Some (Lt | Eq) => true
  | _ => false
  end.

Definition lt (a b : num) : bool :=
  match compare a b with
  | Some Lt => true
  | _ => false
  end.

Definition gt (a b : num) : bool := lt b a.
Definition ge (a b : num) : bool := le b a.

(** An int as an exact operand of a division. *)
Definition Z2SF (z : Z) : spec_float :=
  match z with
  | Z0 => S754_zero false
  | Zpos p => S754_finite false p 0
  | Zneg p => S754_finite true p 0
  end.

(** [a / b] on ints: the quotient rounded once to binary64; a quotient
    beyond the range of binary64 raises. *)
Definition int_truediv (a b : Z) : result float :=
  if b =? 0 then Raise ZeroDivisionError
  else
    let q := SF2Prim (SFdiv prec emax (Z2SF a) (Z2SF b)) in
    if is_infinity q then Raise OverflowError else Ok q.

Definition float_truediv (x y : float) : result float :=
  if is_zero y then Raise ZeroDivisionError else Ok (x / y)%float.

(** [a * b]: ints multiply exactly; an int next to a float is converted
    first. *)
Definition mul (a b : num) : result num :=
  match a, b with
  | Int x, Int y => Ok (Int (x * y))
  | Float x, Float y => Ok (Float (x * y))
  | Int x, Float y => x' ← float_of_int x; Ok (Float (x' * y))
  | Float x, Int y => y' ← float_of_int y; Ok (Float (x * y'))
  end.

(** [a / b]. *)
Definition truediv (a b : num) : result float :=
  match a, b with
  | Int x, Int y => int_truediv x y
  | Float x, Float y => float_truediv x y
  | Int x, Float y => x' ← float_of_int x; float_truediv x' y
  | Float x, Int y => y' ← float_of_int y; float_truediv x y'
  end.

End Py.

(** ** String formatting ([str.format])

    The part of the format-specification mini-language that [config.py]
    uses: one replacement field [{:spec}] with
    [spec ::= [","] ["." digits] ("f" | "%")], applied to a number. A
    template outside this fragment is reported as [ValueError] here. *)

Module Fmt.

#[local] Open Scope char_scope.

Record spec : Type := {
  grouping : bool;       (* the [,] option *)
  precision : nat;       (* digits after the point; 6 when omitted *)
  presentation : ascii   (* [f] or [%] *)
}.

Definition digit_of (c : ascii) : option nat :=
  let n := nat_of_ascii c in
  if (48 <=? n)%nat && (n <=? 57)%nat then Some (n - 48)%nat else None.

(** Reads the decimal number a string starts with. *)
Fixpoint read_digits (cs : list ascii) (acc : option nat)
  : option nat * list ascii :=
  match cs with
  | c :: rest =>
      match digit_of c with
      | Some d => read_digits rest (Some (10 * default 0%nat acc + d)%nat)
      | None => (acc, cs)
      end
  | [] => (acc, cs)
  end.

Definition parse_spec (cs : list ascii) : option spec :=
  let '(g, cs) := match cs with
                  | "," :: rest => (true, rest)
                  | _ => (false, cs)
                  end in
  p_cs ← match cs with
          | "." :: rest =>
              match read_digits rest None with
              | (Some p, rest') => Some (p, rest')
              | (None, _) => None
              end
          | _ => Some (6%nat, cs)
          end;
  match p_cs.2 with
  | [t] =>
      if bool_decide (t = "f" \/ t = "%")
      then Some {| grouping := g; precision := p_cs.1; presentation := t |}
      else None
  | _ => None
  end.

(** The nearest integer to [n / d], ties to the even one
    ([0 <= n], [0 < d]). *)
Definition round_half_even (n d : Z) : Z :=
  let q := n / d in
  match 2 * (n mod d) ?= d with
  | Lt => q
  | Gt => q + 1
  | Eq => if Z.even q then q else q + 1
  end.

(** [m * 2^e * 10^p] rounded to an integer: the digits of a correctly
    rounded conversion to [p] decimal places. *)
Definition scaled (m : positive) (e : Z) (p : nat) : Z :=
  match e with
  | Zneg k => round_half_even (Zpos m * 10 ^ Z.of_nat p) (2 ^ Zpos k)
  | _ => Zpos m * 2 ^ e * 10 ^ Z.of_nat p
  end.

(** Thousands separators, over the digits in reverse. *)
Fixpoint group_rev (ds : list ascii) (k : nat) : list ascii :=
  match ds with
  | [] => []
  | d :: rest =>
      match rest, k with
      | _ :: _, 2%nat => d :: "," :: group_rev rest 0
      | _, _ => d :: group_rev rest (S k)
      end
  end.

Definition group3 (ds : list ascii) : list ascii :=
  rev (group_rev (rev ds) 0).

(** The text of [n / 10^p] with exactly [p] decimals. *)
Definition fixed (grp : bool) (p : nat) (neg : bool) (n : Z) : list ascii :=
  let ds := list_ascii_of_string (pretty (Z.to_N n)) in
  let ds := replicate (S p - length ds) "0" ++ ds in
  let k := (length ds - p)%nat in
  let ip := take k ds in
  (if neg then ["-"] else [])
    ++ (if grp then group3 ip else ip)
    ++ (match p with O => [] | _ => "." :: drop k ds end).

(** Presentation type [f] of a float. *)
Definition format_f (grp : bool) (p : nat) (x : float) : list ascii :=
  match Prim2SF x with
  | S754_nan => list_ascii_of_string "nan"
  | S754_infinity s => list_ascii_of_string (if s then "-inf" else "inf")
  | S754_zero s => fixed grp p s 0
  | S754_finite s m e => fixed grp p s (scaled m e p)
  end.

(** An int formatted with a float presentation type is converted to a
    float first. *)
Definition format_num (sp : spec) (v : Py.num) : result (list ascii) :=
  x ← match v with
       | Py.Float x => Ok x
       | Py.Int z => Py.float_of_int z
       end;
  if bool_decide (presentation sp = "%")
  then Ok (format_f (grouping sp) (precision sp) (x * 100)%float ++ ["%"])
  else Ok (format_f (grouping sp) (precision sp) x).

Fixpoint split_at (c : ascii) (cs : list ascii)
  : option (list ascii * list ascii) :=
  match cs with
  | [] => None
  | d :: rest =>
      if bool_decide (d = c) then Some ([], rest)
      else '(l, r) ← split_at c rest; Some (d :: l, r)
  end.

(** [template.format(arg)]. *)
Definition format (template : string) (arg : Py.num) : result string :=
  match split_at "{" (list_ascii_of_string template) with
  | None => Ok template
  | Some (pre, rest) =>
      match split_at "}" rest with
      | Some (":" :: sp, post) =>
          match parse_spec sp with
          | Some sp =>
              body ← format_num sp arg;
              Ok (string_of_list_ascii (pre ++ body ++ post))
          | None => Raise ValueError
          end
      | _ => Raise ValueError
      end
  end.

End Fmt.

(** ** Rounding to binary64

    What the operations of [SpecFloat] compute, stated on integers: a
    non-negative value [N / D * 2^e] is given to [binary_round_aux] by
    the quotient [N / D] and the place of the remainder, and comes back
    as the quotient rounded on the exponent of the format. *)

Module Round.

Abbreviation rne := Fmt.round_half_even.
Abbreviation fexp64 := (fexp prec emax).

(** Where the remainder [r] of a division by [d] lies in its unit. *)
Definition loc_of_rem (r d : Z) : location :=
  if r =? 0 then loc_Exact else loc_Inexact (2 * r ?= d).

(** A shift record that holds the quotient of [N] by [D] and the place
    of the remainder. *)
Definition located (N D : Z) (mrs : shr_record) : Prop :=
  shr_m mrs = N / D /\ loc_of_shr_record mrs = loc_of_rem (N mod D) D.

(** The last step of [binary_round_aux], on a rounded mantissa. *)
Definition finish (M E : Z) : spec_float :=
  let '(mrs, e) := shr_fexp prec emax M E loc_Exact in
  match shr_m mrs with
  | Z0 => S754_zero false
  | Zpos m => if e <=? emax - prec then S754_finite false m e
              else S754_infinity false
  | Zneg _ => S754_nan
  end.

Definition nonneg (x : spec_float) : Prop :=
  SFleb (S754_zero false) x = true.

(** The exponent and the numerator that [SFdiv_core_binary] picks for
    the quotient of [mx * 2^ex] by [mc * 2^ec]. *)
Definition div_exp (mc : positive) (ec : Z) (mx : positive) (ex : Z) : Z :=
  Z.min (fexp64 (Zdigits2 (Z.pos mx) + ex - (Zdigits2 (Z.pos mc) + ec)))
        (ex - ec).

Definition div_num (mc : positive) (ec : Z) (mx : positive) (ex : Z) : Z :=
  Z.pos mx * 2 ^ (ex - ec - div_exp mc ec mx ex).

End Round.

(** ** The file system ([os.mkdir], [pathlib.Path.mkdir]) *)

Module FS.

Inductive node : Type := Dir | File.

#[global] Instance node_eq_dec : EqDecision node.
Proof. solve_decision. Defined.

(** The entries below the root; the root [[]] itself is a directory. *)
Abbreviation t := (gmap Path node) (only parsing).

Inductive status : Type :=
  | Absent    (* ENOENT *)
  | IsDir
  | IsFile
  | Blocked.  (* ENOTDIR: a component of the path is not a directory *)

(** Path resolution, from the root down. *)
Fixpoint stat (fs : t) (p : Path) : status :=
  match p with
  | [] => IsDir
  | _ :: up =>
      match stat fs up with
      | IsDir =>
          match fs !! p with
          | Some Dir => IsDir
          | Some File => IsFile
          | None => Absent
          end
      | Absent => Absent
      | IsFile | Blocked => Blocked
      end
  end.

Definition is_dir (fs : t) (p : Path) : bool :=
  match stat fs p with IsDir => true | _ => false end.

(** [os.mkdir(p)], as the entries of the file system decide it. What the
    operating system may refuse besides (permissions, a read-only or a
    full volume) is not modelled: the statements about a call are
    conditional on its success or on the kind of its error. *)
Definition os_mkdir (p : Path) (fs : t) : result t :=
  match stat fs p with
  | IsDir | IsFile => Raise (FileExistsError p)
  | Blocked => Raise (NotADirectoryError p)
  | Absent =>
      if is_dir fs (parent p) then Ok (<[p := Dir]> fs)
      else Raise (FileNotFoundError p)
  end.

(** [self.mkdir(parents=False, exist_ok=exist_ok)]. *)
Definition mkdir_flat (self : Path) (exist_ok : bool) (fs : t) : result t :=
  match os_mkdir self fs with
  | Ok fs' => Ok fs'
  | Raise (FileNotFoundError p) => Raise (FileNotFoundError p)
  | Raise e =>
      if negb exist_ok || negb (is_dir fs self) then Raise e else Ok fs
  end.

(** [self.mkdir(parents=True, exist_ok=exist_ok)]: on a missing parent,
    the parent is made first, then the directory itself. *)
Fixpoint mkdir_parents (self : Path) (exist_ok : bool) (fs : t) : result t :=
  match os_mkdir self fs with
  | Ok fs' => Ok fs'
  | Raise (FileNotFoundError p) =>
      match self with
      | [] => Raise (FileNotFoundError p)
      | _ :: up =>
          fs' ← mkdir_parents up true fs;
          mkdir_flat self exist_ok fs'
      end
  | Raise e =>
      if negb exist_ok || negb (is_dir fs self) then Raise e else Ok fs
  end.

Definition mkdir (self : Path) (parents exist_ok : bool) (fs : t) : result t :=
  if parents then mkdir_parents self exist_ok fs
  else mkdir_flat self exist_ok fs.

(** The directories of a file system (the root apart). *)
Definition directories (fs : t) : list Path :=
  filter (fun p => is_dir fs p = true) (elements (dom fs)).

End FS.

(** * [config.py] *)

Section DataParameters.

#[local] Open Scope string_scope.

(** Time Use Survey 2019, minutes per day. *)
Definition TIME_ALLOCATION : gmap string (gmap string Z) :=
  list_to_map [
    ("food_preparation",  list_to_map [("female", 98); ("male", 12)]);
    ("serving_food",      list_to_map [("female", 28); ("male", 3)]);
    ("cleanup_meals",     list_to_map [("female", 34); ("male", 2)]);
    ("cleaning_dwelling", list_to_map [("female", 66); ("male", 8)]);
    ("care_textiles",     list_to_map [("female", 30); ("male", 3)]);
    ("gardening",         list_to_map [("female", 8);  ("male", 4)]);
    ("shopping",          list_to_map [("female", 30); ("male", 12)]);
    ("childcare",         list_to_map [("female", 62); ("male", 18)]);
    ("teaching_children", list_to_map [("female", 15); ("male", 4)]);
    ("adult_care",        list_to_map [("female", 35); ("male", 14)]);
    ("other_domestic",    list_to_map [("female", 35); ("male", 14)])
  ].

Definition TOTAL_UNPAID_MINUTES : gmap string Z :=
  list_to_map [("female", 441); ("male", 94)].

End DataParameters.

#[local] Open Scope float_scope.

Definition EMOTIONAL_LABOR_PREMIUM : float := 0.20.

Definition DAYS_PER_YEAR : Z := 365.
Definition MINUTES_PER_HOUR : Z := 60.

(** Discount rate components. *)
Definition RISK_FREE_RATE : float := 0.072.
Definition INFLATION_PREMIUM : float := 0.024.
Definition HOUSEHOLD_RISK_PREMIUM : float := 0.010.

Definition DISCOUNT_RATE : float :=
  RISK_FREE_RATE + INFLATION_PREMIUM + HOUSEHOLD_RISK_PREMIUM.

(** Growth rate components. *)
Definition WAGE_GROWTH_ASI : float := 0.062.
Definition WAGE_GROWTH_EPFO : float := 0.058.
Definition CONSERVATIVE_ADJUSTMENT : float := - 0.002.

Definition GROWTH_RATE : float :=
  (WAGE_GROWTH_ASI + WAGE_GROWTH_EPFO) / Py.Z2F 2 + CONSERVATIVE_ADJUSTMENT.

Definition TIME_HORIZON_YEARS : Z := 55.

(** Scenario parameters. *)
Definition MALE_ANNUAL_EXPENSES : Z := 945000.
Definition FEMALE_ANNUAL_SALARY : Z := 1345000.
Definition MALE_SALARY_PREMIUM : float := 0.35.

Definition MALE_ANNUAL_SALARY : result Z :=
  Py.int (Py.Z2F FEMALE_ANNUAL_SALARY * (Py.Z2F 1 + MALE_SALARY_PREMIUM)).

Definition LIFECYCLE_COST_LUMP : Z := 5000000.

(** Monte Carlo simulation parameters. *)
Definition MC_ITERATIONS : Z := 10000.

(** The dictionary display of [MC_PARAMS], as a function of the three
    names it reads. (For a lump sum beyond the range of binary64 the
    products would raise [OverflowError] where [Py.Z2F] gives an
    infinity.) *)
Module Display.
Section MC.

Variables (DISCOUNT_RATE GROWTH_RATE : float) (LIFECYCLE_COST_LUMP : Z).
#[local] Open Scope string_scope.

Definition MC_PARAMS : gmap string (gmap string Py.num) :=
  list_to_map [
    ("discount_rate", list_to_map [
       ("mean", Py.Float DISCOUNT_RATE);
       ("std", Py.Float 0.015);
       ("min", Py.Float 0.05);
       ("max", Py.Float 0.15)]);
    ("growth_rate", list_to_map [
       ("mean", Py.Float GROWTH_RATE);
       ("std", Py.Float 0.012);
       ("min", Py.Float 0.02);
       ("max", Py.Float 0.10)]);
    ("hours_multiplier", list_to_map [
       ("mean", Py.Float 1.0);
       ("std", Py.Float 0.10);
       ("min", Py.Float 0.70);
       ("max", Py.Float 1.30)]);
    ("wage_multiplier", list_to_map [
       ("mean", Py.Float 1.0);
       ("std", Py.Float 0.10);
       ("min", Py.Float 0.80);
       ("max", Py.Float 1.30)]);
    ("lifecycle_cost", list_to_map [
       ("mean", Py.Int LIFECYCLE_COST_LUMP);
       ("std", Py.Float (0.15 * Py.Z2F LIFECYCLE_COST_LUMP));
       ("min", Py.Float (0.5 * Py.Z2F LIFECYCLE_COST_LUMP));
       ("max", Py.Float (1.5 * Py.Z2F LIFECYCLE_COST_LUMP))])
  ].

End MC.
End Display.

Definition MC_PARAMS : gmap string (gmap string Py.num) :=
  Display.MC_PARAMS DISCOUNT_RATE GROWTH_RATE LIFECYCLE_COST_LUMP.

(** Output formatting. *)
Definition CURRENCY_FORMAT : string := "₹{:,.0f}".
Definition PERCENTAGE_FORMAT : string := "{:.1%}".

Definition NUMERICAL_TOLERANCE : float := 1e-6.

(** * What the tables add up to *)

(** [sum(v[gender] for v in TIME_ALLOCATION.values())]; [None] stands
    for the [KeyError] of an activity without that gender. *)
Definition itemized_minutes (gender : string) : option Z :=
  map_fold (fun _ v acc => a ← acc; m ← v !! gender; Some (a + m)%Z)
           (Some 0%Z) TIME_ALLOCATION.

(** * File paths and helper functions *)

Section Paths.

(** [Path(__file__).parent.parent]: where the module is installed. *)
Variable PROJECT_ROOT : Path.
#[local] Open Scope string_scope.

Definition DATA_DIR : Path := PROJECT_ROOT /: "data".
Definition OUTPUTS_DIR : Path := PROJECT_ROOT /: "outputs".
Definition FIGURES_DIR : Path := OUTPUTS_DIR /: "figures".
Definition TABLES_DIR : Path := OUTPUTS_DIR /: "tables".
Definition LOGS_DIR : Path := OUTPUTS_DIR /: "logs".

Definition directories : list Path := [
  DATA_DIR /: "processed";
  OUTPUTS_DIR;
  FIGURES_DIR;
  TABLES_DIR;
  LOGS_DIR
].

(** [for directory in directories: directory.mkdir(...)]. *)
Fixpoint mkdir_each (ds : list Path) (fs : FS.t) : result FS.t :=
  match ds with
  | [] => Ok fs
  | directory :: rest =>
      fs' ← FS.mkdir directory true true fs;
      mkdir_each rest fs'
  end.

Definition create_output_directories (fs : FS.t) : result FS.t :=
  mkdir_each directories fs.

End Paths.

Definition get_annual_hours (minutes_per_day : Py.num) : result float :=
  minutes ← Py.mul minutes_per_day (Py.Int DAYS_PER_YEAR);
  Py.truediv minutes (Py.Int MINUTES_PER_HOUR).

Definition apply_emotional_labor_adjustment (hours : Py.num) : result Py.num :=
  Py.mul hours (Py.Float (Py.Z2F 1 + EMOTIONAL_LABOR_PREMIUM)).

Definition format_currency (amount : Py.num) : result string :=
  Fmt.format CURRENCY_FORMAT amount.

Definition format_percentage (rate : Py.num) : result string :=
  Fmt.format PERCENTAGE_FORMAT rate.

(** * Validation *)

(** The module globals that [validate_parameters] reads when it is
    called. *)
Module Globals.
Record t : Type := mk {
  DISCOUNT_RATE : float;
  GROWTH_RATE : float;
  TIME_HORIZON_YEARS : Z;
  MC_ITERATIONS : Z;
  EMOTIONAL_LABOR_PREMIUM : float
}.
End Globals.

(** The globals as the module body leaves them. *)
Definition loaded : Globals.t := {|
  Globals.DISCOUNT_RATE := DISCOUNT_RATE;
  Globals.GROWTH_RATE := GROWTH_RATE;
  Globals.TIME_HORIZON_YEARS := TIME_HORIZON_YEARS;
  Globals.MC_ITERATIONS := MC_ITERATIONS;
  Globals.EMOTIONAL_LABOR_PREMIUM := EMOTIONAL_LABOR_PREMIUM
|}.

(** [config.GROWTH_RATE = x]. *)
Definition set_GROWTH_RATE (x : float) (g : Globals.t) : Globals.t :=
  Globals.mk (Globals.DISCOUNT_RATE g) x (Globals.TIME_HORIZON_YEARS g)
             (Globals.MC_ITERATIONS g) (Globals.EMOTIONAL_LABOR_PREMIUM g).

(** [assert cond, msg], with assertions enabled (the interpreter is not
    run with [-O]). *)
Definition assert (cond : bool) (msg : list piece) : result unit :=
  if cond then Ok tt else Raise (AssertionError msg).

Section Validate.

Import Py.
#[local] Open Scope string_scope.

(** Returns the line it prints. *)
Definition validate_parameters (g : Globals.t) : result (list string) :=
  assert (lt (Int 0) (Float (Globals.DISCOUNT_RATE g))
          && lt (Float (Globals.DISCOUNT_RATE g)) (Float 0.20))
    [Text "Discount rate "; Repr (Globals.DISCOUNT_RATE g);
     Text " out of range"];;
  assert (le (Int 0) (Float (Globals.GROWTH_RATE g))
          && lt (Float (Globals.GROWTH_RATE g)) (Float 0.15))
    [Text "Growth rate "; Repr (Globals.GROWTH_RATE g);
     Text " out of range"];;
  assert (gt (Int (Globals.TIME_HORIZON_YEARS g)) (Int 0))
    [Text "Time horizon must be positive"];;
  assert (ge (Int (Globals.MC_ITERATIONS g)) (Int 1000))
    [Text "Monte Carlo iterations too low"];;
  assert (le (Int 0) (Float (Globals.EMOTIONAL_LABOR_PREMIUM g))
          && le (Float (Globals.EMOTIONAL_LABOR_PREMIUM g)) (Float 0.50))
    [Text "Emotional labor premium out of range"];;
  Ok ["✓ All parameters validated successfully"].

(** ** The checks as the specification lists them

    Five range checks in order, each with what it reports; the bounds
    are the binary64 values of the decimal literals. *)
Record check : Type := { holds : bool; report : list piece }.

Definition checks (g : Globals.t) : list check := [
  {| holds := (0 <? Globals.DISCOUNT_RATE g)%float
              && (Globals.DISCOUNT_RATE g <? 0.20)%float;
     report := [Text "Discount rate "; Repr (Globals.DISCOUNT_RATE g);
                Text " out of range"] |};
  {| holds := (0 <=? Globals.GROWTH_RATE g)%float
              && (Globals.GROWTH_RATE g <? 0.15)%float;
     report := [Text "Growth rate "; Repr (Globals.GROWTH_RATE g);
                Text " out of range"] |};
  {| holds := (0 <? Globals.TIME_HORIZON_YEARS g)%Z;
     report := [Text "Time horizon must be positive"] |};
  {| holds := (1000 <=? Globals.MC_ITERATIONS g)%Z;
     report := [Text "Monte Carlo iterations too low"] |};
  {| holds := (0 <=? Globals.EMOTIONAL_LABOR_PREMIUM g)%float
              && (Globals.EMOTIONAL_LABOR_PREMIUM g <=? 0.50)%float;
     report := [Text "Emotional labor premium out of range"] |}
].

(** What the first check that does not hold reports. *)
Fixpoint first_violation (cs : list check) : option (list piece) :=
  match cs with
  | [] => None
  | c :: rest => if holds c then first_violation rest else Some (report c)
  end.

End Validate.

(** The bounds of one Monte Carlo distribution are in order. *)
Definition bounds_ordered (d : gmap string Py.num) : bool :=
  match d !! "min"%string, d !! "mean"%string, d !! "max"%string with
  | Some lo, Some mu, Some hi => Py.le lo mu && Py.le mu hi
  | _, _, _ => false
  end.

(** [MC_PARAMS[name]['mean']]. *)
Definition mean_of (params : gmap string (gmap string Py.num))
  (name : string) : option Py.num :=
  d ← params !! name; d !! "mean"%string.

(** [p] lies strictly below [root]. *)
Definition below (root p : Path) : bool :=
  bool_decide (root `suffix_of` p /\ p <> root).

(** A file system [fs'] keeps the directories of [fs]. *)
Definition keeps (fs fs' : FS.t) : Prop :=
  forall q, FS.is_dir fs q = true -> FS.is_dir fs' q = true.

(** Two file systems to try the provisioning on: a project root that is
    an empty directory, and the same after provisioning. *)
Definition fs_empty_project : FS.t := {[ ["proj"%string] := FS.Dir ]}.

Definition fs_provisioned : FS.t :=
  list_to_map [
    (["proj"], FS.Dir);
    (["data"; "proj"], FS.Dir);
    (["processed"; "data"; "proj"], FS.Dir);
    (["outputs"; "proj"], FS.Dir);
    (["figures"; "outputs"; "proj"], FS.Dir);
    (["tables"; "outputs"; "proj"], FS.Dir);
    (["logs"; "outputs"; "proj"], FS.Dir)
  ]%string.

(** ** File systems before and after provisioning *)

(** Every entry sits in a directory: no entry hangs below a missing
    path or below a file. *)
Definition fs_wf (fs : FS.t) : Prop :=
  forall c up n, fs !! (c :: up) = Some n -> FS.is_dir fs up = true.

(** The path is free or a directory already: no file at it or above
    it. *)
Definition clear (fs : FS.t) (p : Path) : bool :=
  match FS.stat fs p with
  | FS.Absent | FS.IsDir => true
  | FS.IsFile | FS.Blocked => false
  end.

(** [fs'] is [fs] with directories added, each at [p] or above it
    (paths are innermost-first, so the paths above [p] are its
    suffixes). *)
Definition adds_dirs_above (p : Path) (fs fs' : FS.t) : Prop :=
  fs ⊆ fs'
  /\ forall q, fs' !! q <> fs !! q -> fs' !! q = Some FS.Dir /\ q `suffix_of` p.

(** The error [e] names the path [p], and [fs] has a file there
    ([FileExistsError]) or at a path strictly above
    ([NotADirectoryError]). *)
Definition file_in_the_way (fs : FS.t) (e : exn) (p : Path) : Prop :=
  (e = FileExistsError p /\ fs !! p = Some FS.File)
  \/ (e = NotADirectoryError p
      /\ exists a, a `suffix_of` p /\ a <> p /\ fs !! a = Some FS.File).

(** A project whose [outputs] is a file. *)
Definition fs_outputs_is_file : FS.t :=
  list_to_map [(["proj"], FS.Dir); (["outputs"; "proj"], FS.File)]%string.

(** ** Sensitivity analysis parameters *)

Definition DISCOUNT_RATE_RANGE : list float :=
  [0.05; 0.07; 0.08; 0.106; 0.12; 0.14].

Definition GROWTH_RATE_RANGE : list float := [0.00; 0.03; 0.06; 0.08].

Definition HOURS_SENSITIVITY_RANGE : list float :=
  [-0.30; -0.20; -0.10; 0.00; 0.10; 0.20; 0.30].

Definition WAGE_SENSITIVITY_RANGE : list float :=
  [-0.25; -0.15; -0.10; 0.00; 0.10; 0.15; 0.25].

(** [x in xs] on floats compares with [==]. *)
Definition float_in (x : float) (xs : list float) : bool :=
  existsb (fun y => (x =? y)%float) xs.

(** Each element is below the next. *)
Fixpoint increasing (xs : list float) : bool :=
  match xs with
  | x :: (y :: _) as rest => (x <? y)%float && increasing rest
  | _ => true
  end.

(** [config.DISCOUNT_RATE = x]. *)
Definition set_DISCOUNT_RATE (x : float) (g : Globals.t) : Globals.t :=
  Globals.mk x (Globals.GROWTH_RATE g) (Globals.TIME_HORIZON_YEARS g)
             (Globals.MC_ITERATIONS g) (Globals.EMOTIONAL_LABOR_PREMIUM g).

(** [params[name][key]]. *)
Definition param_of (params : gmap string (gmap string Py.num))
  (name key : string) : option Py.num :=
  d ← params !! name; d !! key.

(** [params[name]['min'] <= x <= params[name]['max']]: a draw that the
    bounds of the distribution let through. *)
Definition within_bounds (params : gmap string (gmap string Py.num))
  (name : string) (x : float) : bool :=
  match param_of params name "min", param_of params name "max" with
  | Some lo, Some hi => Py.le lo (Py.Float x) && Py.le (Py.Float x) hi
  | _, _ => false
  end.

(** ** Ints as text and as floats *)

(** The least int that is too large for a float: half a unit in the
    last place above the largest binary64 value. *)
Definition overflow_threshold : Z := 2 ^ 1024 - 2 ^ 970.

(** The binary64 representation of an int [v] with [0 < v < 2^53]:
    the mantissa filled up to 53 bits. *)
Definition SF_of_small (v : Z) : spec_float :=
  S754_finite false (Z.to_pos (v * 2 ^ (53 - Zdigits2 v))) (Zdigits2 v - 53).

Definition sign_of (z : Z) : list ascii :=
  if (z <? 0)%Z then ["-"%char] else [].

(** The decimal digits of [abs(z)]. *)
Definition digits_of (z : Z) : list ascii :=
  list_ascii_of_string (pretty (Z.to_N (Z.abs z))).

(** [f"{z}"] of an int: [str(z)]. *)
Definition str_int (z : Z) : string :=
  string_of_list_ascii (sign_of z ++ digits_of z).

(** [f"{z:,}"] of an int: the digits in groups of three. *)
Definition format_int_grouped (z : Z) : string :=
  string_of_list_ascii (sign_of z ++ Fmt.group3 (digits_of z)).

(** The text of [k / 10] with one decimal, for an int [k >= 0]. *)
Definition tenths (k : Z) : string :=
  str_int (k / 10) +:+ "." +:+ str_int (k mod 10).

(** ** Project metadata *)

Definition PROJECT_NAME : string := "Economic Valuation of Unpaid Labor".
Definition AUTHOR : string := "Ashish Ranjan".
Definition VERSION : string := "1.0".
Definition RANDOM_SEED : Z := 20250901.

(** ** The script

    What running the module as a script does: the lines it prints, in
    order, and how it ends. An exception ends the run where it is
    raised; what was printed before stays printed. Standard output is
    taken to accept every line. *)

Definition script (A : Type) : Type := list string * result A.

#[global] Instance script_ret : MRet script := fun A a => ([], Ok a).
#[global] Instance script_bind : MBind script := fun A B k m =>
  match m with
  | (out, Ok a) => let '(out', r) := k a in (out ++ out', r)
  | (out, Raise e) => (out, Raise e)
  end.

(** [print(line)]. *)
Definition print (line : string) : script unit := ([line], Ok tt).

(** A call that prints nothing itself. *)
Definition quiet {A : Type} (r : result A) : script A := ([], r).

(** A call that returns the lines it prints. *)
Definition printing (r : result (list string)) : script unit :=
  match r with
  | Ok lines => (lines, Ok tt)
  | Raise e => ([], Raise e)
  end.

Section Main.

Variable PROJECT_ROOT : Path.
#[local] Open Scope string_scope.

Definition main (fs : FS.t) : script FS.t :=
  printing (validate_parameters loaded);;
  fs' ← quiet (create_output_directories PROJECT_ROOT fs);
  print ("Configuration loaded for " +:+ PROJECT_NAME +:+ " v" +:+ VERSION);;
  print ("Author: " +:+ AUTHOR);;
  print ("Random seed: " +:+ str_int RANDOM_SEED);;
  print "Key parameters:";;
  discount ← quiet (format_percentage (Py.Float DISCOUNT_RATE));
  print ("  Discount rate: " +:+ discount);;
  growth ← quiet (format_percentage (Py.Float GROWTH_RATE));
  print ("  Growth rate: " +:+ growth);;
  print ("  Time horizon: " +:+ str_int TIME_HORIZON_YEARS +:+ " years");;
  print ("  Monte Carlo iterations: " +:+ format_int_grouped MC_ITERATIONS);;
  mret fs'.

End Main.

(** What the script prints when nothing fails. *)
Definition banner : list string := [
  "✓ All parameters validated successfully";
  "Configuration loaded for Economic Valuation of Unpaid Labor v1.0";
  "Author: Ashish Ranjan";
  "Random seed: 20250901";
  "Key parameters:";
  "  Discount rate: 10.6%";
  "  Growth rate: 5.8%";
  "  Time horizon: 55 years";
  "  Monte Carlo iterations: 10,000"
]%string.

(** ** Wage proxies (rupees per hour) *)

Definition WAGE_PROXIES : gmap string Z :=
  list_to_map [
    ("cooking_meal_prep", 25);
    ("cleaning_maintenance", 20);
    ("laundry_ironing", 18);
    ("shopping", 15);
    ("childcare", 30);
    ("adult_elderly_care", 28);
    ("water_fuel_collection", 12);
    ("other_domestic_services", 15)
  ]%string%Z.

(** [[a for a in TIME_ALLOCATION if a in WAGE_PROXIES]], as a set. *)
Definition activities_with_wage : gset string :=
  dom TIME_ALLOCATION ∩ dom WAGE_PROXIES.

(** ** Daily minutes *)

(** [float(m)]. *)
Definition float_of (m : Py.num) : float :=
  match m with
  | Py.Int z => Py.Z2F z
  | Py.Float x => x
  end.

(** Daily minutes whose product by 365 the float operations take
    without rounding: any float, or an int [m] with
    [abs(m) * 365 < 2^53]. *)
Definition exact_minutes (m : Py.num) : Prop :=
  match m with
  | Py.Int z => (Z.abs z * 365 < 2 ^ 53)%Z
  | Py.Float _ => True
  end.

(** The pairs of daily minutes on which the annual hours are compared:
    two ints below the overflow of the quotient, or floats and ints of
    [exact_minutes] in any mix. *)
Definition comparable_minutes (m1 m2 : Py.num) : Prop :=
  match m1, m2 with
  | Py.Int _, Py.Int b => (365 * b < 60 * overflow_threshold)%Z
  | _, _ => exact_minutes m1 /\ exact_minutes m2
  end.

(** * Properties *)

(** ** The data tables *)

Lemma TIME_ALLOCATION_size : size TIME_ALLOCATION = 11%nat.
Proof. vm_compute. reflexivity. Qed.

(** C1, as stated, fails: for neither gender does the total differ from
    the sum of the itemized minutes. *)
Lemma totals_differ_refuted :
  ~ (TOTAL_UNPAID_MINUTES !! "female"%string <> itemized_minutes "female")
  /\ ~ (TOTAL_UNPAID_MINUTES !! "male"%string <> itemized_minutes "male").
Proof. split; intros H; apply H; vm_compute; reflexivity. Qed.

(** C1, amended: for both genders the value in [TOTAL_UNPAID_MINUTES]
    equals the sum over the eleven activities of the [TIME_ALLOCATION]
    entries: the female minutes add up to 441 and the male minutes to
    94. *)
Theorem totals_equal_itemized_sums :
  itemized_minutes "female" = Some 441%Z
  /\ itemized_minutes "male" = Some 94%Z
  /\ TOTAL_UNPAID_MINUTES !! "female"%string = itemized_minutes "female"
  /\ TOTAL_UNPAID_MINUTES !! "male"%string = itemized_minutes "male".
Proof. repeat split; vm_compute; reflexivity. Qed.

(** ** Derived constants *)

(** The small ints of the module convert to floats without loss. *)
Lemma float_of_int_literals :
  Py.float_of_int 1 = Ok 1%float
  /\ Py.float_of_int 2 = Ok 2%float
  /\ Py.float_of_int DAYS_PER_YEAR = Ok 365%float
  /\ Py.float_of_int MINUTES_PER_HOUR = Ok 60%float
  /\ Py.float_of_int FEMALE_ANNUAL_SALARY = Ok 1345000%float
  /\ Py.float_of_int LIFECYCLE_COST_LUMP = Ok 5000000%float.
Proof. repeat split; vm_compute; reflexivity. Qed.

(** C2: [MALE_ANNUAL_SALARY] is the truncation of the binary64 product
    [FEMALE_ANNUAL_SALARY * (1 + MALE_SALARY_PREMIUM)], and it is exactly
    1,815,750: the product is a float whose floor is 1,815,750, which is
    also the floor of the exact 1,345,000 * 1.35. *)
Theorem MALE_ANNUAL_SALARY_value :
  MALE_ANNUAL_SALARY
    = Py.int (Py.Z2F FEMALE_ANNUAL_SALARY * (Py.Z2F 1 + MALE_SALARY_PREMIUM))
  /\ MALE_ANNUAL_SALARY = Ok 1815750%Z
  /\ (1345000 * (1 + 0.35) = 1815750.0000000002)%float
  /\ option_map Qfloor
       (Py.exact (Py.Z2F FEMALE_ANNUAL_SALARY
                  * (Py.Z2F 1 + MALE_SALARY_PREMIUM)))
     = Some 1815750%Z
  /\ Qfloor (inject_Z FEMALE_ANNUAL_SALARY * (1 + (35 # 100)))%Q = 1815750%Z.
Proof. repeat split; vm_compute; reflexivity. Qed.

(** C4: [GROWTH_RATE] is [(WAGE_GROWTH_ASI + WAGE_GROWTH_EPFO) / 2 +
    CONSERVATIVE_ADJUSTMENT], that is [(0.062 + 0.058) / 2 - 0.002], and
    its value is within 1e-6 of 0.058, both as a rational number and by
    the float test [abs(GROWTH_RATE - 0.058) < NUMERICAL_TOLERANCE]. (The
    tolerance is needed: the value is 0.057999999999999996, one place
    below the float of the literal 0.058.) *)
Theorem GROWTH_RATE_value :
  GROWTH_RATE
    = ((WAGE_GROWTH_ASI + WAGE_GROWTH_EPFO) / 2 + CONSERVATIVE_ADJUSTMENT)%float
  /\ GROWTH_RATE = ((0.062 + 0.058) / 2 - 0.002)%float
  /\ (exists q, Py.exact GROWTH_RATE = Some q
                /\ (Qabs (q - (58 # 1000)) < 1 # 1000000)%Q)
  /\ (abs (GROWTH_RATE - 0.058) <? NUMERICAL_TOLERANCE)%float = true
  /\ GROWTH_RATE = 0.057999999999999996%float
  /\ (GROWTH_RATE =? 0.058)%float = false.
Proof.
  repeat split; try (vm_compute; reflexivity).
  eexists; split; [vm_compute; reflexivity|].
  vm_compute; reflexivity.
Qed.

(** C5: [DISCOUNT_RATE] is [RISK_FREE_RATE + INFLATION_PREMIUM +
    HOUSEHOLD_RISK_PREMIUM], that is [0.072 + 0.024 + 0.010], and its
    value is within 1e-6 of 0.106, both as a rational number and by the
    float test [abs(DISCOUNT_RATE - 0.106) < NUMERICAL_TOLERANCE]. (Here
    the sum is the float of the literal 0.106 itself.) *)
Theorem DISCOUNT_RATE_value :
  DISCOUNT_RATE
    = (RISK_FREE_RATE + INFLATION_PREMIUM + HOUSEHOLD_RISK_PREMIUM)%float
  /\ DISCOUNT_RATE = (0.072 + 0.024 + 0.010)%float
  /\ (exists q, Py.exact DISCOUNT_RATE = Some q
                /\ (Qabs (q - (106 # 1000)) < 1 # 1000000)%Q)
  /\ (abs (DISCOUNT_RATE - 0.106) <? NUMERICAL_TOLERANCE)%float = true
  /\ DISCOUNT_RATE = 0.106%float.
Proof.
  repeat split; try (vm_compute; reflexivity).
  eexists; split; [vm_compute; reflexivity|].
  vm_compute; reflexivity.
Qed.

(** ** Monte Carlo parameters *)

Lemma MC_PARAMS_names :
  dom MC_PARAMS
  = list_to_set ["discount_rate"; "growth_rate"; "hours_multiplier";
                 "wage_multiplier"; "lifecycle_cost"]%string.
Proof. apply (bool_decide_unpack _). vm_compute. exact I. Qed.

(** C9: [MC_ITERATIONS >= 1000], and each of the five entries of
    [MC_PARAMS] (discount_rate, growth_rate, hours_multiplier,
    wage_multiplier, lifecycle_cost) has [min <= mean <= max]. *)
Theorem MC_bounds_ordered :
  Py.ge (Py.Int MC_ITERATIONS) (Py.Int 1000) = true
  /\ (1000 <= MC_ITERATIONS)%Z
  /\ size MC_PARAMS = 5%nat
  /\ option_map bounds_ordered (MC_PARAMS !! "discount_rate"%string) = Some true
  /\ option_map bounds_ordered (MC_PARAMS !! "growth_rate"%string) = Some true
  /\ option_map bounds_ordered (MC_PARAMS !! "hours_multiplier"%string) = Some true
  /\ option_map bounds_ordered (MC_PARAMS !! "wage_multiplier"%string) = Some true
  /\ option_map bounds_ordered (MC_PARAMS !! "lifecycle_cost"%string) = Some true
  /\ map_fold (fun _ d acc => bounds_ordered d && acc) true MC_PARAMS = true.
Proof. repeat split; vm_compute; solve [reflexivity | discriminate]. Qed.

(** C10: the means of the discount-rate, growth-rate and lifecycle-cost
    distributions are the baseline constants [DISCOUNT_RATE],
    [GROWTH_RATE] and [LIFECYCLE_COST_LUMP] themselves; this holds of the
    dictionary display for whatever values the three names have, so a
    change of a baseline shows in the distribution. *)
Theorem MC_means_are_baselines :
  (mean_of MC_PARAMS "discount_rate" = Some (Py.Float DISCOUNT_RATE)
   /\ mean_of MC_PARAMS "growth_rate" = Some (Py.Float GROWTH_RATE)
   /\ mean_of MC_PARAMS "lifecycle_cost" = Some (Py.Int LIFECYCLE_COST_LUMP))
  /\ forall (d g : float) (l : Z),
       mean_of (Display.MC_PARAMS d g l) "discount_rate" = Some (Py.Float d)
       /\ mean_of (Display.MC_PARAMS d g l) "growth_rate" = Some (Py.Float g)
       /\ mean_of (Display.MC_PARAMS d g l) "lifecycle_cost" = Some (Py.Int l).
Proof.
  split; [repeat split; vm_compute; reflexivity|].
  intros d g l. repeat split; vm_compute; reflexivity.
Qed.

(** ** Formatting *)

(** C8: [format_currency(1234567)] is the text "₹1,234,567" (symbol,
    thousands groups, no decimals) and [format_percentage(0.106)] is the
    text "10.6%" (the rate times 100 with one decimal and a percent
    sign). *)
Theorem format_examples :
  format_currency (Py.Int 1234567) = Ok "₹1,234,567"%string
  /\ format_percentage (Py.Float 0.106) = Ok "10.6%"%string.
Proof. split; vm_compute; reflexivity. Qed.

(** ** Validation *)

Lemma compare_int_float_0 (x : float) :
  Py.compare_int_float 0 x = SFcompare (S754_zero false) (Prim2SF x).
Proof.
  unfold Py.compare_int_float.
  destruct (Prim2SF x) as [s|s| |s m e]; try reflexivity.
  cbn [Py.SF2Q].
  assert (Hpow : forall k, (0 < Z.pos m * 2 ^ Z.pos k)%Z)
    by (intros k; apply Z.mul_pos_pos; [lia|apply Z.pow_pos_nonneg; lia]).
  destruct e as [|k|k], s; try reflexivity;
    unfold Qcompare, Qnum, Qden, inject_Z, cond_Zopp;
    rewrite Z.mul_0_l, Z.mul_1_r; specialize (Hpow k).
  - cbn [SFcompare]. f_equal. apply Z.compare_gt_iff. lia.
  - cbn [SFcompare]. f_equal. apply Z.compare_lt_iff. lia.
Qed.

Lemma lt_0_float (x : float) :
  Py.lt (Py.Int 0) (Py.Float x) = (0 <? x)%float.
Proof.
  rewrite ltb_spec. unfold Py.lt, SFltb, Py.compare.
  rewrite compare_int_float_0. reflexivity.
Qed.

Lemma le_0_float (x : float) :
  Py.le (Py.Int 0) (Py.Float x) = (0 <=? x)%float.
Proof.
  rewrite leb_spec. unfold Py.le, SFleb, Py.compare.
  rewrite compare_int_float_0. reflexivity.
Qed.

Lemma lt_float_float (x y : float) :
  Py.lt (Py.Float x) (Py.Float y) = (x <? y)%float.
Proof. rewrite ltb_spec. reflexivity. Qed.

Lemma le_float_float (x y : float) :
  Py.le (Py.Float x) (Py.Float y) = (x <=? y)%float.
Proof. rewrite leb_spec. reflexivity. Qed.

Lemma gt_int_int (x y : Z) : Py.gt (Py.Int x) (Py.Int y) = (y <? x)%Z.
Proof. reflexivity. Qed.

Lemma ge_int_int (x y : Z) : Py.ge (Py.Int x) (Py.Int y) = (y <=? x)%Z.
Proof.
  unfold Py.ge, Py.le, Py.compare, Z.leb.
  destruct (y ?= x)%Z; reflexivity.
Qed.

(** C3: [validate_parameters()] succeeds on the default configuration;
    with the growth rate set to 0.16 and everything else at its default
    it raises an error whose message names the growth rate and carries
    its value (only that check fails); and on any configuration it runs
    the five checks (discount rate in (0, 0.20), growth rate in
    [0, 0.15), time horizon > 0, Monte Carlo iterations >= 1000,
    emotional labor premium in [0, 0.50]) in that order and raises what
    the first violated one reports. *)
Theorem validate_parameters_checks :
  validate_parameters loaded
    = Ok ["✓ All parameters validated successfully"%string]
  /\ validate_parameters (set_GROWTH_RATE 0.16 loaded)
     = Raise (AssertionError
                [Text "Growth rate "; Repr 0.16; Text " out of range"])
  /\ map holds (checks (set_GROWTH_RATE 0.16 loaded))
     = [true; false; true; true; true]
  /\ forall g : Globals.t,
       validate_parameters g
       = match first_violation (checks g) with
         | Some msg => Raise (AssertionError msg)
         | None => Ok ["✓ All parameters validated successfully"%string]
         end.
Proof.
  split; [vm_compute; reflexivity|].
  split; [vm_compute; reflexivity|].
  split; [vm_compute; reflexivity|].
  intros g. unfold validate_parameters, checks, first_violation, holds, report.
  rewrite lt_0_float, !le_0_float, !lt_float_float, le_float_float,
    gt_int_int, ge_int_int.
  repeat match goal with
         | |- context [assert ?c _] => destruct c; cbn [assert mbind result_bind]
         end; reflexivity.
Qed.

(** ** Directory provisioning *)

Section Mkdir.

Import FS.
Implicit Types (fs : FS.t) (p q : Path).

Lemma keeps_refl fs : keeps fs fs.
Proof. intros q Hq. exact Hq. Qed.

Lemma keeps_trans fs1 fs2 fs3 : keeps fs1 fs2 -> keeps fs2 fs3 -> keeps fs1 fs3.
Proof. intros H12 H23 q Hq. apply H23, H12, Hq. Qed.

Lemma is_dir_stat fs p : is_dir fs p = true <-> stat fs p = IsDir.
Proof. unfold is_dir. destruct (stat fs p); split; congruence. Qed.

Lemma stat_insert_keeps fs p q :
  stat fs p = Absent -> stat fs q = IsDir -> stat (<[p := Dir]> fs) q = IsDir.
Proof.
  intros Hp. induction q as [|c up IH]; [reflexivity|].
  cbn [stat]. destruct (stat fs up) eqn:Hup; try discriminate.
  rewrite IH by reflexivity.
  destruct (decide (p = c :: up)) as [->|Hne].
  - intros Hq. cbn [stat] in Hp. rewrite Hup in Hp. congruence.
  - rewrite lookup_insert_ne by exact Hne. trivial.
Qed.

Lemma os_mkdir_ok p fs fs' :
  os_mkdir p fs = Ok fs' -> is_dir fs' p = true /\ keeps fs fs'.
Proof.
  unfold os_mkdir. destruct (stat fs p) eqn:Hp; try discriminate.
  destruct (is_dir fs (parent p)) eqn:Hup; [|discriminate].
  intros [= <-]. split.
  - destruct p as [|c up]; [discriminate|].
    apply is_dir_stat. cbn [stat].
    rewrite (stat_insert_keeps fs (c :: up) up Hp) by (apply is_dir_stat, Hup).
    rewrite lookup_insert_eq. reflexivity.
  - intros q Hq. apply is_dir_stat, stat_insert_keeps; [exact Hp|].
    apply is_dir_stat, Hq.
Qed.

Lemma mkdir_flat_ok p exist_ok fs fs' :
  mkdir_flat p exist_ok fs = Ok fs' -> is_dir fs' p = true /\ keeps fs fs'.
Proof.
  unfold mkdir_flat. destruct (os_mkdir p fs) as [fs1|e] eqn:Hos.
  - intros [= <-]. eapply os_mkdir_ok, Hos.
  - destruct e; try discriminate;
      (destruct (negb exist_ok || negb (is_dir fs p)) eqn:Hc; [discriminate|]);
      intros [= <-]; apply orb_false_elim in Hc as [_ Hd];
      apply negb_false_iff in Hd; auto using keeps_refl.
Qed.

Lemma mkdir_parents_ok p : forall exist_ok fs fs',
  mkdir_parents p exist_ok fs = Ok fs' -> is_dir fs' p = true /\ keeps fs fs'.
Proof.
  induction p as [|c up IH]; intros exist_ok fs fs'; cbn [mkdir_parents];
    destruct (os_mkdir _ fs) as [fs1|e] eqn:Hos.
  1, 3: intros [= <-]; eapply os_mkdir_ok, Hos.
  - destruct e; try discriminate;
      (destruct (negb exist_ok || negb (is_dir fs [])) eqn:Hc; [discriminate|]);
      intros [= <-]; auto using keeps_refl.
  - destruct e; try discriminate.
    5: { cbn [mbind result_bind].
         destruct (mkdir_parents up true fs) as [fs1|] eqn:Hup; [|discriminate].
         intros Hflat. apply IH in Hup as [_ Hk1].
         apply mkdir_flat_ok in Hflat as [Hd Hk2].
         eauto using keeps_trans. }
    all: (destruct (negb exist_ok || negb (is_dir fs (c :: up))) eqn:Hc; [discriminate|]);
      intros [= <-]; apply orb_false_elim in Hc as [_ Hd];
      apply negb_false_iff in Hd; auto using keeps_refl.
Qed.

(** Making a directory that is there, with [exist_ok], changes
    nothing and raises nothing. *)
Lemma mkdir_parents_present p fs :
  is_dir fs p = true -> mkdir_parents p true fs = Ok fs.
Proof.
  intros Hd. assert (Hs := Hd). apply is_dir_stat in Hs.
  destruct p as [|c up]; cbn [mkdir_parents]; unfold os_mkdir;
    rewrite Hs; cbn [negb orb]; rewrite Hd; reflexivity.
Qed.

Lemma mkdir_each_ok ds : forall fs fs',
  mkdir_each ds fs = Ok fs' ->
  Forall (fun d => is_dir fs' d = true) ds /\ keeps fs fs'.
Proof.
  induction ds as [|d ds IH]; intros fs fs'; cbn [mkdir_each].
  - intros [= <-]. auto using keeps_refl.
  - cbn [mbind result_bind mkdir].
    destruct (mkdir_parents d true fs) as [fs1|] eqn:Hd; [|discriminate].
    intros Hrest. apply mkdir_parents_ok in Hd as [Hd Hk1].
    apply IH in Hrest as [Hall Hk2]. split; [|eauto using keeps_trans].
    constructor; [apply Hk2, Hd|exact Hall].
Qed.

Lemma mkdir_each_present ds fs :
  Forall (fun d => is_dir fs d = true) ds -> mkdir_each ds fs = Ok fs.
Proof.
  induction 1 as [|d ds Hd _ IH]; [reflexivity|].
  cbn [mkdir_each mkdir mbind result_bind].
  rewrite mkdir_parents_present by exact Hd. exact IH.
Qed.

End Mkdir.

Lemma create_on_empty_project :
  create_output_directories ["proj"%string] fs_empty_project
  = Ok fs_provisioned.
Proof.
  assert (H : (fs ← create_output_directories ["proj"%string] fs_empty_project;
               Ok (bool_decide (fs = fs_provisioned))) = Ok true)
    by (vm_compute; reflexivity).
  destruct (create_output_directories _ _) as [fs|e]; [|discriminate].
  injection H as H. apply bool_decide_eq_true in H. congruence.
Qed.

(** C6, as stated, fails on the count: on a project root that is an
    empty directory, both calls succeed and six directories are then
    present below the root, [data] among them, which is none of the five
    listed. *)
Lemma exactly_five_directories_refuted :
  (fs1 ← create_output_directories ["proj"%string] fs_empty_project;
   fs2 ← create_output_directories ["proj"%string] fs1;
   Ok (length (filter (fun p => below ["proj"%string] p = true)
                 (FS.directories fs2)),
       FS.is_dir fs2 (DATA_DIR ["proj"%string]),
       below ["proj"%string] (DATA_DIR ["proj"%string]),
       bool_decide (DATA_DIR ["proj"%string] ∈ directories ["proj"%string])))
  = Ok (6%nat, true, true, false).
Proof. vm_compute. reflexivity. Qed.

(** C6, amended: when a call of [create_output_directories()] has
    succeeded, a second call in succession raises no error and leaves the
    file system as it is (directories that exist are a success), and
    afterwards each of the five directories (data/processed, outputs,
    outputs/figures, outputs/tables, outputs/logs under the project root)
    is present. *)
Theorem create_output_directories_twice (PROJECT_ROOT : Path) (fs fs1 : FS.t) :
  create_output_directories PROJECT_ROOT fs = Ok fs1 ->
  create_output_directories PROJECT_ROOT fs1 = Ok fs1
  /\ length (directories PROJECT_ROOT) = 5%nat
  /\ FS.is_dir fs1 (PROJECT_ROOT /: "data" /: "processed") = true
  /\ FS.is_dir fs1 (PROJECT_ROOT /: "outputs") = true
  /\ FS.is_dir fs1 (PROJECT_ROOT /: "outputs" /: "figures") = true
  /\ FS.is_dir fs1 (PROJECT_ROOT /: "outputs" /: "tables") = true
  /\ FS.is_dir fs1 (PROJECT_ROOT /: "outputs" /: "logs") = true.
Proof.
  unfold create_output_directories. intros Hfirst.
  apply mkdir_each_ok in Hfirst as [Hall _].
  split; [apply mkdir_each_present, Hall|].
  split; [reflexivity|].
  unfold directories in Hall.
  repeat (apply Forall_cons in Hall as [? Hall]).
  repeat split; assumption.
Qed.

Lemma create_output_directories_twice_witness :
  create_output_directories ["proj"%string] fs_empty_project = Ok fs_provisioned
  /\ create_output_directories ["proj"%string] fs_provisioned = Ok fs_provisioned
  /\ length (directories ["proj"%string]) = 5%nat
  /\ FS.is_dir fs_provisioned (["proj"%string] /: "data" /: "processed") = true
  /\ FS.is_dir fs_provisioned (["proj"%string] /: "outputs") = true
  /\ FS.is_dir fs_provisioned (["proj"%string] /: "outputs" /: "figures") = true
  /\ FS.is_dir fs_provisioned (["proj"%string] /: "outputs" /: "tables") = true
  /\ FS.is_dir fs_provisioned (["proj"%string] /: "outputs" /: "logs") = true.
Proof.
  split; [exact create_on_empty_project|].
  apply (create_output_directories_twice ["proj"%string] fs_empty_project).
  exact create_on_empty_project.
Defined.

(** * Binary64 rounding is monotone *)

Import Round.
#[local] Open Scope Z_scope.

Ltac cmp_cases :=
  repeat match goal with
         | H : context [(?a =? ?b)] |- _ => destruct (Z.eqb_spec a b)
         | |- context [(?a =? ?b)] => destruct (Z.eqb_spec a b)
         | H : context [(?a ?= ?b)] |- _ => destruct (Z.compare_spec a b)
         | |- context [(?a ?= ?b)] => destruct (Z.compare_spec a b)
         end.

Lemma digits2_size p : digits2_pos p = Pos.size p.
Proof. induction p; cbn; congruence. Qed.

Lemma Zdigits2_bounds m :
  0 < m -> 2 ^ (Zdigits2 m - 1) <= m < 2 ^ Zdigits2 m.
Proof.
  destruct m as [|p|p]; try lia. intros _. cbn [Zdigits2].
  rewrite digits2_size.
  pose proof (Pos.size_gt p) as Hgt. pose proof (Pos.size_le p) as Hle.
  apply Pos2Z.pos_lt_pos in Hgt. apply Pos2Z.pos_le_pos in Hle.
  rewrite Pos2Z.inj_pow in Hgt, Hle.
  set (s := Z.pos (Pos.size p)) in *.
  assert (Hs : 2 ^ s = 2 * 2 ^ (s - 1)).
  { rewrite <- Z.pow_succ_r by lia. f_equal. lia. }
  lia.
Qed.

Lemma Zdigits2_nonneg m : 0 <= Zdigits2 m.
Proof. destruct m; cbn; lia. Qed.

(** [rne n d] is within half a unit of [n / d], and even on a tie. *)
Lemma rne_spec n d :
  0 < d ->
  let M := rne n d in
  (2 * M - 1) * d <= 2 * n <= (2 * M + 1) * d
  /\ (2 * n = (2 * M - 1) * d -> Z.even M = true)
  /\ (2 * n = (2 * M + 1) * d -> Z.even M = true).
Proof.
  intros Hd. unfold rne.
  pose proof (Z.div_mod n d ltac:(lia)) as Hdm.
  pose proof (Z.mod_pos_bound n d Hd) as Hr.
  set (q := n / d) in *. set (r := n mod d) in *. clearbody q r.
  destruct (Z.compare_spec (2 * r) d) as [Hc|Hc|Hc];
    [destruct (Z.even q) eqn:He| |];
    cbn zeta; (split; [nia|]); split; intros Ht;
    try (exfalso; nia); try exact He.
  rewrite Z.even_add, He. reflexivity.
Qed.

Lemma rne_mono n1 d1 n2 d2 :
  0 < d1 -> 0 < d2 -> n1 * d2 <= n2 * d1 -> rne n1 d1 <= rne n2 d2.
Proof.
  intros H1 H2 Hle.
  destruct (rne_spec n1 d1 H1) as [[Hlo1 _] [Htie1 _]].
  destruct (rne_spec n2 d2 H2) as [[_ Hhi2] [_ Htie2]].
  set (M1 := rne n1 d1) in *. set (M2 := rne n2 d2) in *.
  destruct (Z_le_gt_dec M1 M2) as [|Hgt]; [assumption|exfalso].
  assert (Hchain : (2 * M1 - 1) * (d1 * d2) <= (2 * M2 + 1) * (d1 * d2)) by nia.
  assert (HM : M1 = M2 + 1) by nia.
  assert (E1 : 2 * n1 = (2 * M1 - 1) * d1) by nia.
  assert (E2 : 2 * n2 = (2 * M2 + 1) * d2) by nia.
  apply Htie1 in E1. apply Htie2 in E2.
  rewrite HM, Z.even_add, E2 in E1. discriminate.
Qed.

Lemma rne_ge a n d : 0 < d -> a * d <= n -> a <= rne n d.
Proof.
  intros Hd H. destruct (rne_spec n d Hd) as [[_ Hhi] _]. nia.
Qed.

Lemma rne_le b n d : 0 < d -> n <= b * d -> rne n d <= b.
Proof.
  intros Hd H. destruct (rne_spec n d Hd) as [[Hlo _] _]. nia.
Qed.

(** ** Shifting a located mantissa *)

Lemma shr_1_located N D mrs :
  0 <= N -> 0 < D -> located N D mrs -> located N (2 * D) (shr_1 mrs).
Proof.
  intros HN HD [Hm Hl].
  pose proof (Z.mod_pos_bound N D HD) as Hr.
  pose proof (Z.div_pos N D HN HD) as Hq0.
  assert (Hq : N / (2 * D) = (N / D) / 2)
    by (rewrite (Z.mul_comm 2 D), Z.div_div by lia; reflexivity).
  assert (Hrem : N mod (2 * D) = N mod D + D * ((N / D) mod 2))
    by (rewrite (Z.mul_comm 2 D); apply Z.rem_mul_r; lia).
  rewrite <- Hm in Hq0.
  unfold located. rewrite Hq, Hrem, <- Hm, <- Z.div2_div, Zmod_odd.
  destruct mrs as [m r s]. cbn [shr_m] in *.
  set (r0 := N mod D) in *. clearbody r0. clear Hq Hrem Hm.
  unfold loc_of_rem in *.
  destruct m as [|[p|p|]|p]; try lia;
    cbn [shr_1 shr_m Z.div2 Z.odd Pos.div2 loc_of_shr_record];
    (split; [reflexivity|]);
    destruct r, s; cbn [orb loc_of_shr_record] in *;
    cmp_cases; try discriminate; try lia; reflexivity.
Qed.

Lemma pow2_xI p : 2 ^ Z.pos p~1 = 2 ^ Z.pos p * (2 ^ Z.pos p * 2).
Proof.
  rewrite (Pos2Z.inj_xI p).
  replace (2 * Z.pos p + 1) with (Z.pos p + (Z.pos p + 1)) by lia.
  rewrite !Z.pow_add_r by lia. rewrite Z.pow_1_r. reflexivity.
Qed.

Lemma pow2_xO p : 2 ^ Z.pos p~0 = 2 ^ Z.pos p * 2 ^ Z.pos p.
Proof.
  rewrite (Pos2Z.inj_xO p).
  replace (2 * Z.pos p) with (Z.pos p + Z.pos p) by lia.
  rewrite Z.pow_add_r by lia. reflexivity.
Qed.

Lemma pow2_pos n : 0 <= n -> 0 < 2 ^ n.
Proof. intros. apply Z.pow_pos_nonneg; lia. Qed.

Lemma iter_shr_located p : forall N D mrs,
  0 <= N -> 0 < D -> located N D mrs ->
  located N (2 ^ Z.pos p * D) (SpecFloat.iter_pos shr_1 p mrs).
Proof.
  induction p as [p IH|p IH|]; intros N D mrs HN HD Hloc; cbn [SpecFloat.iter_pos];
    try pose proof (pow2_pos (Z.pos p) ltac:(lia)) as Hp.
  - rewrite pow2_xI, <- !Z.mul_assoc, (Z.mul_comm 2 D), (Z.mul_comm D 2).
    apply IH; [lia|nia|]. apply IH; [lia|lia|].
    apply shr_1_located; assumption.
  - rewrite pow2_xO, <- Z.mul_assoc.
    apply IH; [lia|nia|]. apply IH; assumption.
  - rewrite Z.pow_1_r. apply shr_1_located; assumption.
Qed.

(** ** What [binary_round_aux] computes *)

Lemma fexp64_eq e : fexp64 e = Z.max (e - 53) (-1074).
Proof. reflexivity. Qed.

Lemma binary_round_aux_finish mx ex lx :
  binary_round_aux prec emax false mx ex lx
  = let '(mrs, e) := shr_fexp prec emax mx ex lx in
    finish (round_nearest_even (shr_m mrs) (loc_of_shr_record mrs)) e.
Proof.
  unfold binary_round_aux, finish.
  destruct (shr_fexp prec emax mx ex lx) as [mrs e]. reflexivity.
Qed.

Lemma loc_of_record_of_loc m l :
  loc_of_shr_record (shr_record_of_loc m l) = l.
Proof. destruct l as [|[]]; reflexivity. Qed.

Lemma shr_m_record_of_loc m l : shr_m (shr_record_of_loc m l) = m.
Proof. destruct l as [|[]]; reflexivity. Qed.

Lemma shr_fexp_located N D e :
  0 <= N -> 0 < D ->
  e <= fexp64 (Zdigits2 (N / D) + e) ->
  exists mrs,
    shr_fexp prec emax (N / D) e (loc_of_rem (N mod D) D)
    = (mrs, fexp64 (Zdigits2 (N / D) + e))
    /\ located N (2 ^ (fexp64 (Zdigits2 (N / D) + e) - e) * D) mrs.
Proof.
  intros HN HD He. unfold shr_fexp, shr.
  set (E := fexp64 (Zdigits2 (N / D) + e)) in *. clearbody E.
  destruct (E - e) as [|p|p] eqn:Hn; try lia.
  - eexists. split; [f_equal; lia|].
    rewrite Z.pow_0_r, Z.mul_1_l. split.
    + apply shr_m_record_of_loc.
    + apply loc_of_record_of_loc.
  - eexists. split; [f_equal; lia|].
    apply iter_shr_located; try assumption. split.
    + apply shr_m_record_of_loc.
    + apply loc_of_record_of_loc.
Qed.

Lemma round_located N D mrs :
  0 < D -> located N D mrs ->
  round_nearest_even (shr_m mrs) (loc_of_shr_record mrs) = rne N D.
Proof.
  intros HD [Hm Hl]. rewrite Hm, Hl. unfold rne, loc_of_rem.
  pose proof (Z.mod_pos_bound N D HD).
  destruct (Z.eqb_spec (N mod D) 0) as [Hz|Hne]; cbn [round_nearest_even].
  - destruct (Z.compare_spec (2 * (N mod D)) D); lia.
  - destruct (2 * (N mod D) ?= D); reflexivity.
Qed.

Theorem binary_round_aux_located N D e :
  0 <= N -> 0 < D ->
  e <= fexp64 (Zdigits2 (N / D) + e) ->
  binary_round_aux prec emax false (N / D) e (loc_of_rem (N mod D) D)
  = finish (rne N (2 ^ (fexp64 (Zdigits2 (N / D) + e) - e) * D))
           (fexp64 (Zdigits2 (N / D) + e)).
Proof.
  intros HN HD He. rewrite binary_round_aux_finish.
  destruct (shr_fexp_located N D e HN HD He) as (mrs & -> & Hloc).
  rewrite (round_located _ _ _) with (2 := Hloc); [reflexivity|].
  apply Z.mul_pos_pos; [apply pow2_pos; lia|assumption].
Qed.

(** ** The three shapes of a rounded result *)

Lemma finish_cases M E :
  -1074 <= E -> 0 <= M <= 2 ^ 53 ->
  (M = 0 /\ finish M E = S754_zero false)
  \/ (0 < M < 2 ^ 53
      /\ finish M E = if E <=? 971 then S754_finite false (Z.to_pos M) E
                      else S754_infinity false)
  \/ (M = 2 ^ 53
      /\ finish M E = if E + 1 <=? 971
                      then S754_finite false (Z.to_pos (2 ^ 52)) (E + 1)
                      else S754_infinity false).
Proof.
  intros HE HM. unfold finish, shr_fexp, shr.
  destruct (Z.eq_dec M 0) as [->|HM0]; [left|right].
  - split; [reflexivity|]. cbn [Zdigits2]. rewrite fexp64_eq.
    destruct (Z.max (0 + E - 53) (-1074) - E) as [|p|p] eqn:Hn; try lia; reflexivity.
  - destruct (Z.eq_dec M (2 ^ 53)) as [->|HMt]; [right|left].
    + split; [reflexivity|]. change (Zdigits2 (2 ^ 53)) with 54.
      rewrite fexp64_eq. replace (Z.max (54 + E - 53) (-1074) - E) with 1 by lia.
      cbn -[Z.leb Z.add]. replace (E + 1) with (E + 1) by reflexivity.
      reflexivity.
    + split; [lia|].
      pose proof (Zdigits2_bounds M ltac:(lia)) as Hd.
      assert (Hd53 : Zdigits2 M <= 53).
      { destruct (Z_le_gt_dec (Zdigits2 M) 53); [assumption|exfalso].
        assert (2 ^ 53 <= 2 ^ (Zdigits2 M - 1)) by (apply Z.pow_le_mono_r; lia).
        lia. }
      rewrite fexp64_eq.
      destruct (Z.max (Zdigits2 M + E - 53) (-1074) - E) as [|p|p] eqn:Hn; try lia;
        cbn [shr_record_of_loc shr_m]; destruct M; try lia; reflexivity.
Qed.

Lemma SFleb_finite m1 e1 m2 e2 :
  e1 < e2 \/ (e1 = e2 /\ Z.pos m1 <= Z.pos m2) ->
  SFleb (S754_finite false m1 e1) (S754_finite false m2 e2) = true.
Proof.
  intros H. unfold SFleb, SFcompare.
  destruct (Z.compare_spec e1 e2); [|reflexivity|exfalso; lia].
  change (Pos.compare_cont Eq m1 m2) with (Pos.compare m1 m2).
  destruct (Pos.compare_spec m1 m2); try reflexivity. exfalso; lia.
Qed.

Lemma finish_le M1 E1 M2 E2 :
  -1074 <= E1 -> 0 <= M1 -> M2 <= 2 ^ 53 ->
  (E1 = E2 /\ M1 <= M2) \/ (E1 < E2 /\ M1 <= 2 ^ 53 /\ 2 ^ 52 <= M2) ->
  SFleb (finish M1 E1) (finish M2 E2) = true.
Proof.
  intros HE1 HM1 HM2 Hcase.
  assert (H52 : 2 ^ 53 = 2 * 2 ^ 52) by reflexivity.
  assert (Hp52 : 0 < 2 ^ 52) by reflexivity.
  destruct (finish_cases M1 E1) as [[? ->]|[[? ->]|[? ->]]]; try lia;
    destruct (finish_cases M2 E2) as [[? ->]|[[? ->]|[? ->]]]; try lia;
    repeat match goal with |- context [?a <=? ?b] => destruct (Z.leb_spec a b) end;
    try reflexivity; try lia;
    apply SFleb_finite; rewrite ?Z2Pos.id by lia; lia.
Qed.

(** ** Rounding is monotone *)

Lemma Zdigits2_upper m : 0 <= m -> m < 2 ^ Zdigits2 m.
Proof.
  intros Hm. destruct (Z.eq_dec m 0) as [->|]; [reflexivity|].
  apply Zdigits2_bounds. lia.
Qed.

Lemma div_lt_upper N D : 0 < D -> N < (N / D + 1) * D.
Proof.
  intros HD. pose proof (Z.div_mod N D ltac:(lia)).
  pose proof (Z.mod_pos_bound N D HD). nia.
Qed.

Lemma div_le_lower N D : 0 < D -> N / D * D <= N.
Proof.
  intros HD. pose proof (Z.div_mod N D ltac:(lia)).
  pose proof (Z.mod_pos_bound N D HD). nia.
Qed.

Section RoundMono.

Variables (N1 D1 e1 N2 D2 e2 c : Z).
Hypotheses (HN1 : 0 <= N1) (HD1 : 0 < D1) (HN2 : 0 <= N2) (HD2 : 0 < D2).
Variables (k1 k2 E1 E2 : Z).
Hypotheses (Hk1 : k1 = Zdigits2 (N1 / D1)) (Hk2 : k2 = Zdigits2 (N2 / D2)).
Hypotheses (HE1 : E1 = Z.max (k1 + e1 - 53) (-1074)).
Hypotheses (HE2 : E2 = Z.max (k2 + e2 - 53) (-1074)).
Hypotheses (He1 : e1 <= E1) (He2 : e2 <= E2).
Hypotheses (Hc1 : c <= e1) (Hc2 : c <= e2).
Hypothesis Hle : N1 * 2 ^ (e1 - c) * D2 <= N2 * 2 ^ (e2 - c) * D1.

Lemma cexp_mono : E1 <= E2.
Proof.
  pose proof (Z.div_pos N1 D1 HN1 HD1) as Hm1.
  destruct (Z.eq_dec (N1 / D1) 0) as [Hz|Hnz].
  - assert (k1 = 0) by (rewrite Hk1, Hz; reflexivity). lia.
  - assert (k1 + e1 <= k2 + e2); [|lia].
    pose proof (Zdigits2_bounds (N1 / D1) ltac:(lia)) as [Hlo _].
    pose proof (Zdigits2_upper (N2 / D2) (Z.div_pos N2 D2 HN2 HD2)) as Hhi.
    rewrite <- Hk1 in Hlo. rewrite <- Hk2 in Hhi.
    pose proof (div_le_lower N1 D1 HD1). pose proof (div_lt_upper N2 D2 HD2).
    pose proof (Zdigits2_nonneg (N2 / D2)) as Hk2'. rewrite <- Hk2 in Hk2'.
    assert (Hk1' : 1 <= k1).
    { rewrite Hk1. destruct (N1 / D1); cbn; lia. }
    assert (HA : 2 ^ (k1 - 1 + (e1 - c)) = 2 ^ (k1 - 1) * 2 ^ (e1 - c))
      by (apply Z.pow_add_r; lia).
    assert (HB : 2 ^ (k2 + (e2 - c)) = 2 ^ k2 * 2 ^ (e2 - c))
      by (apply Z.pow_add_r; lia).
    pose proof (pow2_pos (e1 - c) ltac:(lia)) as HP1.
    pose proof (pow2_pos (e2 - c) ltac:(lia)) as HP2.
    pose proof (pow2_pos (k1 - 1) ltac:(lia)) as HA0.
    pose proof (pow2_pos k2 ltac:(lia)) as HB0.
    set (A := 2 ^ (k1 - 1)) in *. set (B := 2 ^ k2) in *.
    set (P1 := 2 ^ (e1 - c)) in *. set (P2 := 2 ^ (e2 - c)) in *.
    clearbody A B P1 P2.
    assert (HAN : A * D1 <= N1) by nia.
    assert (HNB : N2 < B * D2) by nia.
    assert (Hlt : (A * P1) * (D1 * D2) < (B * P2) * (D1 * D2)).
    { apply Z.le_lt_trans with (N2 * P2 * D1).
      - apply Z.le_trans with (N1 * P1 * D2); [|exact Hle].
        replace (A * P1 * (D1 * D2)) with (A * D1 * (P1 * D2)) by ring.
        replace (N1 * P1 * D2) with (N1 * (P1 * D2)) by ring.
        apply Z.mul_le_mono_nonneg_r; nia.
      - replace (N2 * P2 * D1) with (N2 * (P2 * D1)) by ring.
        replace (B * P2 * (D1 * D2)) with (B * D2 * (P2 * D1)) by ring.
        apply Z.mul_lt_mono_pos_r; nia. }
    apply Z.mul_lt_mono_pos_r in Hlt; [|nia].
    rewrite <- HA, <- HB in Hlt.
    apply Z.pow_lt_mono_r_iff in Hlt; lia.
Qed.

End RoundMono.

(** A rounded mantissa has at most 53 bits, 2^53 included. *)
Lemma rounded_upper N D e k E :
  0 <= N -> 0 < D -> k = Zdigits2 (N / D) ->
  E = Z.max (k + e - 53) (-1074) -> e <= E ->
  rne N (2 ^ (E - e) * D) <= 2 ^ 53.
Proof.
  intros HN HD Hk HE He.
  pose proof (pow2_pos (E - e) ltac:(lia)) as HP.
  apply rne_le; [nia|].
  pose proof (Zdigits2_upper (N / D) (Z.div_pos N D HN HD)) as Hhi.
  pose proof (Zdigits2_nonneg (N / D)) as Hk0.
  rewrite <- Hk in Hhi, Hk0.
  pose proof (div_lt_upper N D HD) as Hup.
  assert (Hpow : 2 ^ k <= 2 ^ 53 * 2 ^ (E - e)).
  { rewrite <- Z.pow_add_r by lia. apply Z.pow_le_mono_r; lia. }
  pose proof (pow2_pos k Hk0) as HK.
  set (K := 2 ^ k) in *. set (P := 2 ^ (E - e)) in *. clearbody K P.
  assert (N < K * D) by nia.
  assert (K * D <= 2 ^ 53 * P * D) by (apply Z.mul_le_mono_nonneg_r; lia).
  lia.
Qed.

(** Above the subnormal range it has the full 53 bits. *)
Lemma rounded_lower N D e k E :
  0 <= N -> 0 < D -> k = Zdigits2 (N / D) ->
  E = Z.max (k + e - 53) (-1074) -> e <= E -> -1074 < E ->
  2 ^ 52 <= rne N (2 ^ (E - e) * D).
Proof.
  intros HN HD Hk HE He Hnorm.
  pose proof (pow2_pos (E - e) ltac:(lia)) as HP.
  apply rne_ge; [nia|].
  assert (Hk53 : 53 <= k) by lia.
  assert (Hm : 0 < N / D).
  { pose proof (Z.div_pos N D HN HD).
    destruct (Z.eq_dec (N / D) 0) as [Hz|]; [|lia].
    rewrite Hz in Hk. cbn in Hk. lia. }
  pose proof (Zdigits2_bounds (N / D) Hm) as [Hlo _]. rewrite <- Hk in Hlo.
  pose proof (div_le_lower N D HD) as Hdn.
  assert (Hpow : 2 ^ (k - 1) = 2 ^ 52 * 2 ^ (E - e)).
  { rewrite <- Z.pow_add_r by lia. f_equal. lia. }
  set (K := 2 ^ (k - 1)) in *. set (P := 2 ^ (E - e)) in *. clearbody K P.
  assert (K * D <= N) by nia.
  rewrite Z.mul_assoc, <- Hpow. assumption.
Qed.

(** On a common exponent the scaled values keep their order. *)
Lemma scaled_le N1 D1 e1 N2 D2 e2 c E :
  0 < D1 -> 0 < D2 -> c <= e1 -> c <= e2 -> e1 <= E -> e2 <= E ->
  N1 * 2 ^ (e1 - c) * D2 <= N2 * 2 ^ (e2 - c) * D1 ->
  N1 * (2 ^ (E - e2) * D2) <= N2 * (2 ^ (E - e1) * D1).
Proof.
  intros HD1 HD2 Hc1 Hc2 He1 He2 Hle.
  assert (HG1 : 2 ^ (E - c) = 2 ^ (E - e1) * 2 ^ (e1 - c)).
  { rewrite <- Z.pow_add_r by lia. f_equal. lia. }
  assert (HG2 : 2 ^ (E - c) = 2 ^ (E - e2) * 2 ^ (e2 - c)).
  { rewrite <- Z.pow_add_r by lia. f_equal. lia. }
  pose proof (pow2_pos (e1 - c) ltac:(lia)) as HP1.
  pose proof (pow2_pos (e2 - c) ltac:(lia)) as HP2.
  pose proof (pow2_pos (E - e1) ltac:(lia)) as HX.
  pose proof (pow2_pos (E - e2) ltac:(lia)) as HY.
  pose proof (pow2_pos (E - c) ltac:(lia)) as HG.
  set (P1 := 2 ^ (e1 - c)) in *. set (P2 := 2 ^ (e2 - c)) in *.
  set (X := 2 ^ (E - e1)) in *. set (Y := 2 ^ (E - e2)) in *.
  set (G := 2 ^ (E - c)) in *. clearbody P1 P2 X Y G.
  apply Z.mul_le_mono_pos_r with (p := P1 * P2); [nia|].
  replace (N1 * (Y * D2) * (P1 * P2)) with (N1 * P1 * D2 * (Y * P2)) by ring.
  replace (N2 * (X * D1) * (P1 * P2)) with (N2 * P2 * D1 * (X * P1)) by ring.
  rewrite <- HG1, <- HG2. apply Z.mul_le_mono_nonneg_r; lia.
Qed.

(** Rounding to nearest, ties to even, is monotone: of two located
    non-negative values, the smaller one rounds to the smaller float. *)
Theorem binary_round_aux_mono N1 D1 e1 N2 D2 e2 c :
  0 <= N1 -> 0 < D1 -> 0 <= N2 -> 0 < D2 ->
  e1 <= fexp64 (Zdigits2 (N1 / D1) + e1) ->
  e2 <= fexp64 (Zdigits2 (N2 / D2) + e2) ->
  c <= e1 -> c <= e2 ->
  N1 * 2 ^ (e1 - c) * D2 <= N2 * 2 ^ (e2 - c) * D1 ->
  SFleb (binary_round_aux prec emax false (N1 / D1) e1 (loc_of_rem (N1 mod D1) D1))
        (binary_round_aux prec emax false (N2 / D2) e2 (loc_of_rem (N2 mod D2) D2))
  = true.
Proof.
  intros HN1 HD1 HN2 HD2 He1 He2 Hc1 Hc2 Hle.
  rewrite !binary_round_aux_located by assumption.
  rewrite !fexp64_eq in *.
  set (k1 := Zdigits2 (N1 / D1)) in *. set (k2 := Zdigits2 (N2 / D2)) in *.
  set (E1 := Z.max (k1 + e1 - 53) (-1074)) in *.
  set (E2 := Z.max (k2 + e2 - 53) (-1074)) in *.
  assert (HEE : E1 <= E2)
    by (apply (cexp_mono N1 D1 e1 N2 D2 e2 c HN1 HD1 HN2 HD2 k1 k2 E1 E2);
        solve [reflexivity | assumption]).
  pose proof (rounded_upper N1 D1 e1 k1 E1 HN1 HD1 eq_refl eq_refl He1) as Hu1.
  pose proof (rounded_upper N2 D2 e2 k2 E2 HN2 HD2 eq_refl eq_refl He2) as Hu2.
  apply finish_le; try assumption.
  - unfold E1. lia.
  - apply rne_ge; [|lia].
    apply Z.mul_pos_pos; [apply pow2_pos; lia|assumption].
  - destruct (Z.eq_dec E1 E2) as [Heq|Hne]; [left|right].
    + split; [exact Heq|]. rewrite <- Heq.
      apply rne_mono;
        try (apply Z.mul_pos_pos; [apply pow2_pos; lia|assumption]).
      rewrite <- Heq in He2.
      apply (scaled_le N1 D1 e1 N2 D2 e2 c E1); assumption.
    + split; [lia|]. split; [exact Hu1|].
      apply (rounded_lower N2 D2 e2 k2 E2); try assumption; try reflexivity.
      unfold E1 in *. lia.
Qed.

(** ** Valid binary64 values and their order *)

Lemma valid_finite s m e :
  valid_binary (S754_finite s m e) = true ->
  Z.max (Zdigits2 (Z.pos m) + e - 53) (-1074) = e /\ e <= 971.
Proof.
  unfold valid_binary. cbn [SpecFloat.valid_binary]. unfold bounded, canonical_mantissa.
  intros H. apply andb_true_iff in H as [Hc He].
  apply Z.eqb_eq in Hc. apply Z.leb_le in He.
  rewrite fexp64_eq in Hc. split; assumption.
Qed.

Lemma SFleb_finite_inv m1 e1 m2 e2 :
  SFleb (S754_finite false m1 e1) (S754_finite false m2 e2) = true ->
  e1 < e2 \/ (e1 = e2 /\ Z.pos m1 <= Z.pos m2).
Proof.
  unfold SFleb, SFcompare.
  destruct (Z.compare_spec e1 e2); [|left; assumption|discriminate].
  change (Pos.compare_cont Eq m1 m2) with (Pos.compare m1 m2).
  destruct (Pos.compare_spec m1 m2); try discriminate; intros _; right; lia.
Qed.

Lemma canonical_le m1 e1 m2 e2 c :
  valid_binary (S754_finite false m1 e1) = true ->
  valid_binary (S754_finite false m2 e2) = true ->
  SFleb (S754_finite false m1 e1) (S754_finite false m2 e2) = true ->
  c <= e1 ->
  e1 <= e2 /\ Z.pos m1 * 2 ^ (e1 - c) <= Z.pos m2 * 2 ^ (e2 - c).
Proof.
  intros Hv1 Hv2 Hle Hc.
  apply valid_finite in Hv1 as [Hv1 _]. apply valid_finite in Hv2 as [Hv2 _].
  apply SFleb_finite_inv in Hle.
  pose proof (pow2_pos (e1 - c) ltac:(lia)) as HP.
  destruct Hle as [Hlt|[-> Hm]]; [|split; [lia|nia]].
  split; [lia|].
  pose proof (Zdigits2_bounds (Z.pos m1) ltac:(lia)) as [_ Hhi].
  pose proof (Zdigits2_bounds (Z.pos m2) ltac:(lia)) as [Hlo _].
  assert (Hd2 : Zdigits2 (Z.pos m2) = 53) by lia. rewrite Hd2 in Hlo.
  assert (Hd1 : 2 ^ Zdigits2 (Z.pos m1) <= 2 ^ 53)
    by (apply Z.pow_le_mono_r; lia).
  assert (Hstep : 2 * 2 ^ (e1 - c) <= 2 ^ (e2 - c)).
  { rewrite <- Z.pow_succ_r by lia. apply Z.pow_le_mono_r; lia. }
  change (2 ^ (53 - 1)) with (2 ^ 52) in Hlo.
  assert (H53 : 2 ^ 53 = 2 * 2 ^ 52) by reflexivity.
  set (P1 := 2 ^ (e1 - c)) in *. set (P2 := 2 ^ (e2 - c)) in *.
  clearbody P1 P2.
  apply Z.le_trans with (2 ^ 52 * (2 * P1)); [nia|].
  apply Z.le_trans with (2 ^ 52 * P2); [nia|].
  apply Z.mul_le_mono_nonneg_r; lia.
Qed.

Lemma finish_nonneg M E :
  -1074 <= E -> 0 <= M <= 2 ^ 53 ->
  SFleb (S754_zero false) (finish M E) = true
  /\ SFleb (finish M E) (S754_infinity false) = true.
Proof.
  intros HE HM.
  destruct (finish_cases M E HE HM) as [[? ->]|[[? ->]|[? ->]]];
    repeat match goal with |- context [?a <=? ?b] => destruct (Z.leb_spec a b) end;
    split; reflexivity.
Qed.

Lemma binary_round_aux_nonneg N D e :
  0 <= N -> 0 < D ->
  e <= fexp64 (Zdigits2 (N / D) + e) ->
  SFleb (S754_zero false)
        (binary_round_aux prec emax false (N / D) e (loc_of_rem (N mod D) D)) = true
  /\ SFleb (binary_round_aux prec emax false (N / D) e (loc_of_rem (N mod D) D))
           (S754_infinity false) = true.
Proof.
  intros HN HD He. rewrite binary_round_aux_located by assumption.
  rewrite fexp64_eq in *.
  apply finish_nonneg; [lia|]. split.
  - apply rne_ge; [|lia]. apply Z.mul_pos_pos; [apply pow2_pos; lia|assumption].
  - eapply rounded_upper; try eassumption; reflexivity.
Qed.

Lemma digits_ge_53 N : 2 ^ 52 <= N -> 53 <= Zdigits2 N.
Proof.
  intros HN. pose proof (Zdigits2_upper N ltac:(lia)) as Hhi.
  destruct (Z_le_gt_dec 53 (Zdigits2 N)); [assumption|exfalso].
  assert (2 ^ Zdigits2 N <= 2 ^ 52).
  { apply Z.pow_le_mono_r; [lia|]. lia. }
  lia.
Qed.

Lemma Zdigits2_to_pos M : 0 < M -> Z.pos (digits2_pos (Z.to_pos M)) = Zdigits2 M.
Proof. destruct M; try lia. reflexivity. Qed.

(** A rounded result is a value of the format. *)
Lemma binary_round_aux_valid N D e :
  0 <= N -> 0 < D ->
  e <= fexp64 (Zdigits2 (N / D) + e) ->
  valid_binary
    (binary_round_aux prec emax false (N / D) e (loc_of_rem (N mod D) D)) = true.
Proof.
  intros HN HD He. rewrite binary_round_aux_located by assumption.
  rewrite fexp64_eq in *.
  set (k := Zdigits2 (N / D)) in *. set (E := Z.max (k + e - 53) (-1074)) in *.
  pose proof (rounded_upper N D e k E HN HD eq_refl eq_refl He) as Hup.
  assert (Hlo0 : 0 <= rne N (2 ^ (E - e) * D)).
  { apply rne_ge; [|lia]. apply Z.mul_pos_pos; [apply pow2_pos; lia|assumption]. }
  assert (Hlo : -1074 < E -> 2 ^ 52 <= rne N (2 ^ (E - e) * D))
    by (intros; apply (rounded_lower N D e k E); auto).
  assert (HE : -1074 <= E) by (unfold E; lia).
  set (M := rne N (2 ^ (E - e) * D)) in *. clearbody M E.
  destruct (finish_cases M E HE (conj Hlo0 Hup)) as [[? ->]|[[HM ->]|[? ->]]];
    repeat match goal with |- context [?a <=? ?b] => destruct (Z.leb_spec a b) end;
    try reflexivity;
    unfold valid_binary; cbn [SpecFloat.valid_binary];
    unfold bounded, canonical_mantissa; rewrite fexp64_eq;
    change (emax - prec) with 971;
    apply andb_true_iff; split; try (apply Z.leb_le; lia); apply Z.eqb_eq.
  - rewrite Zdigits2_to_pos by lia.
    pose proof (Zdigits2_bounds M ltac:(lia)) as [Hd1 Hd2].
    assert (Zdigits2 M <= 53).
    { destruct (Z_le_gt_dec (Zdigits2 M) 53); [assumption|exfalso].
      assert (2 ^ 53 <= 2 ^ (Zdigits2 M - 1)) by (apply Z.pow_le_mono_r; lia).
      lia. }
    destruct (Z.eq_dec E (-1074)) as [->|]; [lia|].
    pose proof (digits_ge_53 M ltac:(apply Hlo; lia)). lia.
  - change (Z.pos (digits2_pos (Z.to_pos (2 ^ 52)))) with 53. lia.
Qed.

(** ** Multiplication by a positive normal constant *)

Lemma nonneg_cases x :
  nonneg x ->
  (exists s, x = S754_zero s) \/ (exists m e, x = S754_finite false m e)
  \/ x = S754_infinity false.
Proof.
  unfold nonneg. destruct x as [s|[]| |[] m e]; try discriminate; eauto.
Qed.

Section MulConst.

Variables (mc : positive) (ec : Z).
Hypothesis Hnormal : 2 ^ 52 <= Z.pos mc.
Let cst := S754_finite false mc ec.

Lemma mul_located mx ex :
  SFmul prec emax (S754_finite false mx ex) cst
  = binary_round_aux prec emax false (Z.pos (mx * mc) / 1) (ex + ec)
      (loc_of_rem (Z.pos (mx * mc) mod 1) 1)
  /\ ex + ec <= fexp64 (Zdigits2 (Z.pos (mx * mc) / 1) + (ex + ec)).
Proof.
  rewrite Z.div_1_r, Z.mod_1_r. split; [reflexivity|].
  rewrite fexp64_eq.
  assert (2 ^ 52 <= Z.pos (mx * mc)) by (rewrite Pos2Z.inj_mul; nia).
  pose proof (digits_ge_53 _ H). lia.
Qed.

Lemma SFmul_mono x y :
  valid_binary x = true -> valid_binary y = true ->
  nonneg x -> SFleb x y = true ->
  nonneg (SFmul prec emax x cst)
  /\ SFleb (SFmul prec emax x cst) (SFmul prec emax y cst) = true.
Proof.
  intros Hvx Hvy Hx Hxy.
  destruct (nonneg_cases x Hx) as [[sx ->]|[(mx & ex & ->)| ->]].
  - assert (Hy : nonneg y) by (destruct y as [|[]| |[]]; try discriminate; reflexivity).
    destruct (nonneg_cases y Hy) as [[sy ->]|[(my & ey & ->)| ->]].
    + destruct sx, sy; split; reflexivity.
    + destruct (mul_located my ey) as [-> He].
      split; [destruct sx; reflexivity|].
      destruct (binary_round_aux_nonneg (Z.pos (my * mc)) 1 (ey + ec) ltac:(lia) ltac:(lia) He) as [H0 _].
      unfold cst; cbn [SFmul xorb].
      destruct (binary_round_aux _ _ _ _ _ _) as [|[]| |[]], sx;
        try discriminate; reflexivity.
    + destruct sx; split; reflexivity.
  - destruct (mul_located mx ex) as [-> He1].
    destruct (binary_round_aux_nonneg (Z.pos (mx * mc)) 1 (ex + ec) ltac:(lia) ltac:(lia) He1) as [H0 Hinf].
    split; [exact H0|].
    destruct y as [sy|sy| |sy my ey]; try (destruct sy; discriminate); try discriminate.
    + destruct sy; [discriminate|]. exact Hinf.
    + destruct sy; [discriminate|].
      destruct (mul_located my ey) as [-> He2].
      destruct (canonical_le mx ex my ey ex Hvx Hvy Hxy ltac:(lia)) as [Hee Hm].
      apply (binary_round_aux_mono _ 1 _ _ 1 _ (ex + ec)); try lia; try assumption.
      replace (ex + ec - (ex + ec)) with 0 by lia.
      replace (ey + ec - (ex + ec)) with (ey - ex) by lia.
      rewrite Z.sub_diag in Hm. rewrite !Pos2Z.inj_mul.
      rewrite Z.pow_0_r in *. nia.
  - destruct y as [sy|[]| |sy my ey]; try discriminate.
    split; reflexivity.
Qed.

End MulConst.

(** ** Division by a positive constant *)

Lemma new_location_rem D r :
  0 < D -> 0 <= r < D -> new_location D r = loc_of_rem r D.
Proof.
  intros HD Hr. unfold new_location, new_location_even, new_location_odd, loc_of_rem.
  destruct (Z.even D) eqn:Hev; [reflexivity|].
  destruct (Z.eqb_spec r 0); [reflexivity|]. f_equal.
  assert (Hodd : Z.odd D = true) by (rewrite <- Z.negb_even, Hev; reflexivity).
  apply Z.odd_spec in Hodd as [t Ht].
  destruct (Z.compare_spec (2 * r + 1) D), (Z.compare_spec (2 * r) D);
    try reflexivity; exfalso; lia.
Qed.

Section DivConst.

Variables (mc : positive) (ec : Z).
Let cst := S754_finite false mc ec.

Lemma div_exp_le mx ex : div_exp mc ec mx ex <= ex - ec.
Proof. unfold div_exp. lia. Qed.

Lemma SFdiv_core_located mx ex :
  SFdiv_core_binary prec emax (Z.pos mx) ex (Z.pos mc) ec
  = (div_num mc ec mx ex / Z.pos mc, div_exp mc ec mx ex,
     loc_of_rem (div_num mc ec mx ex mod Z.pos mc) (Z.pos mc)).
Proof.
  unfold SFdiv_core_binary. fold (div_exp mc ec mx ex).
  pose proof (div_exp_le mx ex) as Hs.
  assert (Hm : match ex - ec - div_exp mc ec mx ex with
               | Z.pos _ => Z.shiftl (Z.pos mx) (ex - ec - div_exp mc ec mx ex)
               | 0 => Z.pos mx
               | Z.neg _ => 0
               end = div_num mc ec mx ex).
  { destruct (ex - ec - div_exp mc ec mx ex) as [|p|p] eqn:Hp; try lia;
      unfold div_num; rewrite Hp.
    - rewrite Z.pow_0_r. lia.
    - rewrite Z.shiftl_mul_pow2 by lia. reflexivity. }
  rewrite Hm.
  assert (Hde : Z.div_eucl (div_num mc ec mx ex) (Z.pos mc)
                = (div_num mc ec mx ex / Z.pos mc, div_num mc ec mx ex mod Z.pos mc)).
  { unfold Z.div, Z.modulo. destruct (Z.div_eucl _ _). reflexivity. }
  rewrite Hde. rewrite new_location_rem; [reflexivity|lia|].
  apply Z.mod_pos_bound. lia.
Qed.

Lemma div_num_nonneg mx ex : 0 <= div_num mc ec mx ex.
Proof.
  unfold div_num. pose proof (div_exp_le mx ex).
  pose proof (pow2_pos (ex - ec - div_exp mc ec mx ex) ltac:(lia)). nia.
Qed.

Lemma div_exp_small mx ex :
  div_exp mc ec mx ex
  <= fexp64 (Zdigits2 (div_num mc ec mx ex / Z.pos mc) + div_exp mc ec mx ex).
Proof.
  rewrite fexp64_eq.
  destruct (Z_le_gt_dec (div_exp mc ec mx ex) (-1074)) as [|Hbig]; [lia|].
  pose proof (div_exp_le mx ex) as Hs.
  set (d1 := Zdigits2 (Z.pos mx)). set (d2 := Zdigits2 (Z.pos mc)).
  set (e' := div_exp mc ec mx ex) in *.
  assert (Hg : e' <= d1 + ex - (d2 + ec) - 53).
  { unfold e', div_exp in *. rewrite fexp64_eq in *. fold d1 d2 in Hbig |- *. lia. }
  set (t := d1 + ex - (d2 + ec) - e').
  assert (Ht : 53 <= t) by (unfold t; lia).
  pose proof (Zdigits2_bounds (Z.pos mx) ltac:(lia)) as [Hlo _].
  pose proof (Zdigits2_bounds (Z.pos mc) ltac:(lia)) as [_ Hhi].
  pose proof (Zdigits2_nonneg (Z.pos mc)) as Hd2.
  assert (Hd1 : 1 <= d1) by (unfold d1; cbn; lia).
  fold d1 in Hlo. fold d2 in Hhi, Hd2.
  assert (Hq : 2 ^ (t - 1) <= div_num mc ec mx ex / Z.pos mc).
  { apply Z.div_le_lower_bound; [lia|].
    unfold div_num. fold e'.
    assert (Hpow : 2 ^ d2 * 2 ^ (t - 1) = 2 ^ (d1 - 1) * 2 ^ (ex - ec - e')).
    { rewrite <- !Z.pow_add_r by lia. f_equal. unfold t. lia. }
    pose proof (pow2_pos (t - 1) ltac:(lia)).
    pose proof (pow2_pos (ex - ec - e') ltac:(lia)).
    set (A := 2 ^ (t - 1)) in *. set (B := 2 ^ (ex - ec - e')) in *.
    set (C := 2 ^ d2) in *. set (K := 2 ^ (d1 - 1)) in *.
    clearbody A B C K.
    apply Z.le_trans with (C * A); [nia|]. rewrite Hpow.
    apply Z.mul_le_mono_nonneg_r; lia. }
  assert (Hdq : t <= Zdigits2 (div_num mc ec mx ex / Z.pos mc)).
  { pose proof (Zdigits2_upper (div_num mc ec mx ex / Z.pos mc)
                  ltac:(pose proof (pow2_pos (t - 1) ltac:(lia)); lia)) as Hup.
    destruct (Z_le_gt_dec t (Zdigits2 (div_num mc ec mx ex / Z.pos mc)));
      [assumption|exfalso].
    assert (2 ^ Zdigits2 (div_num mc ec mx ex / Z.pos mc) <= 2 ^ (t - 1)).
    { apply Z.pow_le_mono_r; [lia|]. lia. }
    lia. }
  lia.
Qed.

Lemma div_located mx ex :
  SFdiv prec emax (S754_finite false mx ex) cst
  = binary_round_aux prec emax false (div_num mc ec mx ex / Z.pos mc) (div_exp mc ec mx ex)
      (loc_of_rem (div_num mc ec mx ex mod Z.pos mc) (Z.pos mc)).
Proof.
  unfold cst. cbn [SFdiv]. rewrite SFdiv_core_located. reflexivity.
Qed.

Lemma SFdiv_finite_mono mx ex my ey :
  (forall c, c <= ex -> c <= ey ->
             Z.pos mx * 2 ^ (ex - c) <= Z.pos my * 2 ^ (ey - c)) ->
  SFleb (SFdiv prec emax (S754_finite false mx ex) cst)
        (SFdiv prec emax (S754_finite false my ey) cst) = true.
Proof.
  intros Hm. rewrite !div_located.
  set (c := Z.min (div_exp mc ec mx ex) (div_exp mc ec my ey)).
  pose proof (div_exp_le mx ex). pose proof (div_exp_le my ey).
  specialize (Hm (c + ec) ltac:(lia) ltac:(lia)).
  apply (binary_round_aux_mono _ _ _ _ _ _ c);
    try apply div_num_nonneg; try apply div_exp_small; try lia.
  unfold div_num. rewrite <- !Z.mul_assoc.
  rewrite (Z.mul_assoc (2 ^ _) (2 ^ _)), <- Z.pow_add_r by lia.
  rewrite (Z.mul_assoc (2 ^ (ey - ec - div_exp mc ec my ey)) (2 ^ _)),
    <- Z.pow_add_r by lia.
  replace (ex - ec - div_exp mc ec mx ex + (div_exp mc ec mx ex - c))
    with (ex - (c + ec)) by lia.
  replace (ey - ec - div_exp mc ec my ey + (div_exp mc ec my ey - c))
    with (ey - (c + ec)) by lia.
  rewrite !Z.mul_assoc. apply Z.mul_le_mono_nonneg_r; [lia|exact Hm].
Qed.

Lemma SFdiv_finite_nonneg mx ex :
  nonneg (SFdiv prec emax (S754_finite false mx ex) cst)
  /\ SFleb (SFdiv prec emax (S754_finite false mx ex) cst)
           (S754_infinity false) = true.
Proof.
  rewrite div_located.
  apply (binary_round_aux_nonneg (div_num mc ec mx ex) (Z.pos mc)
           (div_exp mc ec mx ex) (div_num_nonneg mx ex) ltac:(lia)
           (div_exp_small mx ex)).
Qed.

Lemma SFdiv_finite_valid mx ex :
  valid_binary (SFdiv prec emax (S754_finite false mx ex) cst) = true.
Proof.
  rewrite div_located.
  apply (binary_round_aux_valid (div_num mc ec mx ex) (Z.pos mc)
           (div_exp mc ec mx ex) (div_num_nonneg mx ex) ltac:(lia)
           (div_exp_small mx ex)).
Qed.

Lemma SFdiv_mono x y :
  valid_binary x = true -> valid_binary y = true ->
  nonneg x -> SFleb x y = true ->
  nonneg (SFdiv prec emax x cst)
  /\ SFleb (SFdiv prec emax x cst) (SFdiv prec emax y cst) = true.
Proof.
  intros Hvx Hvy Hx Hxy.
  destruct (nonneg_cases x Hx) as [[sx ->]|[(mx & ex & ->)| ->]].
  - assert (Hy : nonneg y) by (destruct y as [|[]| |[]]; try discriminate; reflexivity).
    destruct (nonneg_cases y Hy) as [[sy ->]|[(my & ey & ->)| ->]].
    + destruct sx, sy; split; reflexivity.
    + split; [destruct sx; reflexivity|].
      destruct (SFdiv_finite_nonneg my ey) as [H0 _]. unfold nonneg in H0.
      unfold cst in *; cbn [SFdiv xorb] in *.
      destruct (let '(mz, ez, lz) := SFdiv_core_binary _ _ _ _ _ _ in _)
        as [|[]| |[]], sx; try discriminate; reflexivity.
    + destruct sx; split; reflexivity.
  - destruct (SFdiv_finite_nonneg mx ex) as [H0 Hinf].
    split; [exact H0|].
    destruct y as [sy|sy| |sy my ey]; try (destruct sy; discriminate); try discriminate.
    + destruct sy; [discriminate|]. exact Hinf.
    + destruct sy; [discriminate|].
      apply SFdiv_finite_mono. intros c Hc1 Hc2.
      apply (canonical_le mx ex my ey c Hvx Hvy Hxy Hc1).
  - destruct y as [sy|[]| |sy my ey]; try discriminate.
    split; reflexivity.
Qed.

End DivConst.

(** ** Division of ints *)

Lemma is_infinity_SF2Prim r :
  valid_binary r = true ->
  is_infinity (SF2Prim r) = SFeqb (SFabs r) (S754_infinity false).
Proof.
  intros Hv. unfold is_infinity.
  rewrite FloatAxioms.eqb_spec, abs_spec, Prim2SF_SF2Prim by assumption. reflexivity.
Qed.

Section IntTruediv.

Variable d : positive.

Lemma int_quotient_facts a :
  0 <= a ->
  valid_binary (SFdiv prec emax (Py.Z2SF a) (Py.Z2SF (Z.pos d))) = true
  /\ nonneg (SFdiv prec emax (Py.Z2SF a) (Py.Z2SF (Z.pos d))).
Proof.
  intros Ha. destruct a as [|p|p]; try lia; cbn [Py.Z2SF].
  - split; reflexivity.
  - split; [apply SFdiv_finite_valid|apply SFdiv_finite_nonneg].
Qed.

Lemma int_quotient_mono a b :
  0 <= a <= b ->
  SFleb (SFdiv prec emax (Py.Z2SF a) (Py.Z2SF (Z.pos d)))
        (SFdiv prec emax (Py.Z2SF b) (Py.Z2SF (Z.pos d))) = true.
Proof.
  intros Hab. destruct a as [|p|p], b as [|q|q]; try lia; cbn [Py.Z2SF].
  - reflexivity.
  - apply (SFdiv_finite_nonneg d 0 q).
  - apply SFdiv_finite_mono. intros c Hc _.
    apply Z.mul_le_mono_nonneg_r; [|lia].
    apply Z.lt_le_incl, pow2_pos. lia.
Qed.

(** [a / d] on ints is monotone in [a >= 0]: below a quotient that is
    returned, every quotient is returned and is no larger. *)
Lemma int_truediv_mono a b hb :
  0 <= a <= b ->
  Py.int_truediv b (Z.pos d) = Ok hb ->
  exists ha, Py.int_truediv a (Z.pos d) = Ok ha /\ (ha <=? hb)%float = true.
Proof.
  intros Hab. unfold Py.int_truediv. cbn [Z.eqb].
  destruct (int_quotient_facts a ltac:(lia)) as [Hva Hna].
  destruct (int_quotient_facts b ltac:(lia)) as [Hvb Hnb].
  pose proof (int_quotient_mono a b Hab) as Hle.
  rewrite !is_infinity_SF2Prim by assumption.
  set (ra := SFdiv prec emax (Py.Z2SF a) (Py.Z2SF (Z.pos d))) in *.
  set (rb := SFdiv prec emax (Py.Z2SF b) (Py.Z2SF (Z.pos d))) in *.
  clearbody ra rb.
  destruct (SFeqb (SFabs rb) (S754_infinity false)) eqn:Hib; [discriminate|].
  intros [= <-].
  assert (Hia : SFeqb (SFabs ra) (S754_infinity false) = false).
  { destruct (nonneg_cases ra Hna) as [[s ->]|[(m & e & ->)| ->]];
      try reflexivity.
    destruct (nonneg_cases rb Hnb) as [[s ->]|[(m & e & ->)| ->]];
      discriminate. }
  rewrite Hia. eexists. split; [reflexivity|].
  rewrite leb_spec, !Prim2SF_SF2Prim by assumption. exact Hle.
Qed.

End IntTruediv.

(** ** Annual hours *)

Lemma get_annual_hours_float (m : float) :
  get_annual_hours (Py.Float m) = Ok (m * 365 / 60)%float.
Proof. reflexivity. Qed.

Lemma Prim2SF_365 :
  Prim2SF 365 = S754_finite false (Z.to_pos (365 * 2 ^ 44)) (-44).
Proof. reflexivity. Qed.

Lemma Prim2SF_60 :
  Prim2SF 60 = S754_finite false (Z.to_pos (60 * 2 ^ 47)) (-47).
Proof. reflexivity. Qed.

(** An int argument takes the division of ints; on the minutes of the
    tables it gives what the float argument gives, it is monotone as
    well, and an int beyond the range of binary64 raises. *)
Lemma get_annual_hours_int (m : Z) :
  get_annual_hours (Py.Int m) = Py.int_truediv (m * 365) 60.
Proof. reflexivity. Qed.

Lemma get_annual_hours_int_monotone (m1 m2 : Z) (h2 : float) :
  (0 <= m1 <= m2)%Z ->
  get_annual_hours (Py.Int m2) = Ok h2 ->
  exists h1, get_annual_hours (Py.Int m1) = Ok h1 /\ (h1 <=? h2)%float = true.
Proof.
  rewrite !get_annual_hours_int. intros Hm.
  apply int_truediv_mono. lia.
Qed.

Lemma apply_emotional_labor_adjustment_100 :
  apply_emotional_labor_adjustment (Py.Int 100) = Ok (Py.Float 120).
Proof. vm_compute. reflexivity. Qed.

Lemma get_annual_hours_int_examples :
  get_annual_hours (Py.Int 98) = get_annual_hours (Py.Float 98)
  /\ get_annual_hours (Py.Int 441) = Ok 2682.75%float
  /\ get_annual_hours (Py.Int (10 ^ 400)) = Raise OverflowError.
Proof. repeat split; vm_compute; reflexivity. Qed.

(** * Further properties *)

(** ** Provisioning: what is touched, when it fails, when it succeeds *)

Section Provision.

Import FS.
Implicit Types (fs : FS.t) (p q : Path).

Lemma os_mkdir_fresh p fs fs' :
  os_mkdir p fs = Ok fs' -> fs !! p = None /\ fs' = <[p := Dir]> fs.
Proof.
  unfold os_mkdir. destruct (stat fs p) eqn:Hp; try discriminate.
  destruct (is_dir fs (parent p)) eqn:Hup; [|discriminate].
  intros [= <-]. split; [|reflexivity].
  destruct p as [|c up]; [discriminate|].
  apply is_dir_stat in Hup. cbn [parent tail] in Hup.
  cbn [stat] in Hp. rewrite Hup in Hp.
  destruct (fs !! (c :: up)) as [[]|]; [discriminate..|reflexivity].
Qed.

Lemma adds_refl p fs : adds_dirs_above p fs fs.
Proof. split; [reflexivity|]. intros q Hq. congruence. Qed.

Lemma adds_trans p fs1 fs2 fs3 :
  adds_dirs_above p fs1 fs2 -> adds_dirs_above p fs2 fs3 ->
  adds_dirs_above p fs1 fs3.
Proof.
  intros [Hs1 Hc1] [Hs2 Hc2]. split; [etrans; eassumption|].
  intros q Hq. destruct (decide (fs3 !! q = fs2 !! q)) as [Heq|Hne].
  - rewrite Heq in *. apply Hc1. exact Hq.
  - apply Hc2. exact Hne.
Qed.

Lemma adds_weaken p p' fs fs' :
  p `suffix_of` p' -> adds_dirs_above p fs fs' -> adds_dirs_above p' fs fs'.
Proof.
  intros Hpp [Hs Hc]. split; [exact Hs|].
  intros q Hq. destruct (Hc q Hq) as [Hd Hsuf]. split; [exact Hd|].
  etrans; eassumption.
Qed.

Lemma os_mkdir_adds p fs fs' :
  os_mkdir p fs = Ok fs' -> adds_dirs_above p fs fs'.
Proof.
  intros H. apply os_mkdir_fresh in H as [Hnone ->]. split.
  - apply insert_subseteq. exact Hnone.
  - intros q Hq. destruct (decide (p = q)) as [<-|Hne].
    + rewrite lookup_insert_eq. split; reflexivity.
    + rewrite lookup_insert_ne in Hq by exact Hne. congruence.
Qed.

Lemma mkdir_flat_adds p exist_ok fs fs' :
  mkdir_flat p exist_ok fs = Ok fs' -> adds_dirs_above p fs fs'.
Proof.
  unfold mkdir_flat. destruct (os_mkdir p fs) as [fs1|e] eqn:Hos.
  - intros [= <-]. apply os_mkdir_adds, Hos.
  - destruct e; try discriminate;
      (destruct (negb exist_ok || negb (is_dir fs p)); [discriminate|]);
      intros [= <-]; apply adds_refl.
Qed.

Lemma mkdir_parents_adds p : forall exist_ok fs fs',
  mkdir_parents p exist_ok fs = Ok fs' -> adds_dirs_above p fs fs'.
Proof.
  induction p as [|c up IH]; intros exist_ok fs fs'; cbn [mkdir_parents];
    destruct (os_mkdir _ fs) as [fs1|e] eqn:Hos.
  1, 3: intros [= <-]; apply os_mkdir_adds, Hos.
  - destruct e; try discriminate;
      (destruct (negb exist_ok || negb (is_dir fs [])); [discriminate|]);
      intros [= <-]; apply adds_refl.
  - destruct e; try discriminate.
    5: { cbn [mbind result_bind].
         destruct (mkdir_parents up true fs) as [fs1|] eqn:Hup; [|discriminate].
         intros Hflat. apply IH in Hup. apply mkdir_flat_adds in Hflat.
         eapply adds_trans; [|exact Hflat].
         eapply adds_weaken; [|exact Hup]. apply suffix_cons_r. reflexivity. }
    all: (destruct (negb exist_ok || negb (is_dir fs (c :: up))); [discriminate|]);
      intros [= <-]; apply adds_refl.
Qed.

(** What a run of the loop changes: directories, each at one of the
    listed paths or above it. *)
Lemma mkdir_each_adds ds : forall fs fs',
  mkdir_each ds fs = Ok fs' ->
  fs ⊆ fs'
  /\ forall q, fs' !! q <> fs !! q ->
       fs' !! q = Some Dir /\ exists d, d ∈ ds /\ q `suffix_of` d.
Proof.
  induction ds as [|d ds IH]; intros fs fs'; cbn [mkdir_each].
  - intros [= <-]. split; [reflexivity|]. congruence.
  - cbn [mbind result_bind mkdir].
    destruct (mkdir_parents d true fs) as [fs1|] eqn:Hd; [|discriminate].
    intros Hrest. apply mkdir_parents_adds in Hd as [Hs1 Hc1].
    apply IH in Hrest as [Hs2 Hc2]. split; [etrans; eassumption|].
    intros q Hq. destruct (decide (fs' !! q = fs1 !! q)) as [Heq|Hne].
    + rewrite Heq in *. destruct (Hc1 q Hq) as [HD Hsuf].
      split; [exact HD|]. exists d. split; [left|exact Hsuf].
    + destruct (Hc2 q Hne) as [HD (d' & Hin & Hsuf)].
      split; [exact HD|]. exists d'. split; [right; exact Hin|exact Hsuf].
Qed.

(** Resolution of a path that is there is the same in a larger file
    system. *)
Lemma stat_subseteq fs fs' q :
  fs ⊆ fs' -> stat fs q <> Absent -> stat fs' q = stat fs q.
Proof.
  intros Hs. induction q as [|c up IH]; [reflexivity|].
  cbn [stat]. destruct (stat fs up) eqn:Hup; try congruence;
    rewrite IH by discriminate; try reflexivity.
  destruct (fs !! (c :: up)) as [n|] eqn:Hl; [|congruence].
  intros _. rewrite (lookup_weaken _ _ _ _ Hl Hs). reflexivity.
Qed.

Lemma stat_IsFile fs p : stat fs p = IsFile -> fs !! p = Some File.
Proof.
  destruct p as [|c up]; [discriminate|]. cbn [stat].
  destruct (stat fs up); try discriminate.
  destruct (fs !! (c :: up)) as [[]|]; congruence.
Qed.

Lemma stat_Blocked fs p :
  stat fs p = Blocked ->
  exists a, a `suffix_of` p /\ a <> p /\ fs !! a = Some File.
Proof.
  induction p as [|c up IH]; [discriminate|]. cbn [stat].
  destruct (stat fs up) eqn:Hup; try discriminate.
  - destruct (fs !! (c :: up)) as [[]|]; discriminate.
  - intros _. exists up. split; [apply suffix_cons_r; reflexivity|].
    split; [|apply stat_IsFile, Hup].
    intros H. apply (f_equal length) in H. cbn in H. lia.
  - intros _. destruct (IH eq_refl) as (a & Hsuf & Hne & Hl).
    exists a. split; [apply suffix_cons_r, Hsuf|]. split; [|exact Hl].
    intros ->. apply suffix_length in Hsuf. cbn in Hsuf. lia.
Qed.

(** With [exist_ok], what makes [mkdir] fail in a directory is a file
    at the path. *)
Lemma mkdir_flat_raise p fs e :
  is_dir fs (parent p) = true ->
  mkdir_flat p true fs = Raise e -> file_in_the_way fs e p.
Proof.
  intros Hup. unfold mkdir_flat, os_mkdir. rewrite Hup.
  destruct p as [|c up]; [cbn; discriminate|].
  cbn [parent tail] in Hup. apply is_dir_stat in Hup.
  unfold is_dir. cbn [stat]. rewrite Hup.
  destruct (fs !! (c :: up)) as [[]|] eqn:Hl; cbn; try discriminate.
  intros [= <-]. left. split; [reflexivity|exact Hl].
Qed.

Lemma mkdir_parents_raise p : forall fs e,
  mkdir_parents p true fs = Raise e ->
  exists p', p' `suffix_of` p /\ file_in_the_way fs e p'.
Proof.
  induction p as [|c up IH]; intros fs e.
  - cbn. discriminate.
  - cbn [mkdir_parents]. unfold os_mkdir at 1.
    destruct (stat fs (c :: up)) eqn:Hs.
    + destruct (is_dir fs (parent (c :: up))) eqn:Hup; [discriminate|].
      cbn [mbind result_bind].
      destruct (mkdir_parents up true fs) as [fs1|e1] eqn:Hp.
      * intros Hflat.
        pose proof (mkdir_parents_ok _ _ _ _ Hp) as [Hd _].
        pose proof (mkdir_parents_adds _ _ _ _ Hp) as [Hsub Hch].
        apply mkdir_flat_raise in Hflat; [|exact Hd].
        exists (c :: up). split; [reflexivity|].
        assert (Hback : forall a, fs1 !! a = Some File -> fs !! a = Some File).
        { intros a Ha. destruct (decide (fs1 !! a = fs !! a)) as [Heq|Hne];
            [congruence|]. destruct (Hch a Hne) as [HD _]. congruence. }
        destruct Hflat as [[-> Hl]|[-> (a & Hsuf & Hne & Hl)]];
          [left|right]; eauto 10.
      * intros [= <-]. destruct (IH _ _ Hp) as (p' & Hsuf & Hway).
        exists p'. split; [apply suffix_cons_r, Hsuf|exact Hway].
    + cbn. unfold is_dir. rewrite Hs. discriminate.
    + cbn. unfold is_dir. rewrite Hs. cbn. intros [= <-].
      exists (c :: up). split; [reflexivity|].
      left. split; [reflexivity|apply stat_IsFile, Hs].
    + cbn. unfold is_dir. rewrite Hs. cbn. intros [= <-].
      exists (c :: up). split; [reflexivity|].
      right. split; [reflexivity|apply stat_Blocked, Hs].
Qed.

Lemma mkdir_each_raise ds : forall fs e,
  mkdir_each ds fs = Raise e ->
  exists d p, d ∈ ds /\ p `suffix_of` d /\ file_in_the_way fs e p.
Proof.
  induction ds as [|d ds IH]; intros fs e; cbn [mkdir_each]; [discriminate|].
  cbn [mbind result_bind mkdir].
  destruct (mkdir_parents d true fs) as [fs1|e1] eqn:Hd.
  - intros Hrest. destruct (IH _ _ Hrest) as (d' & p & Hin & Hsuf & Hway).
    exists d', p. split; [right; exact Hin|]. split; [exact Hsuf|].
    apply mkdir_parents_adds in Hd as [Hsub Hch].
    assert (Hback : forall a, fs1 !! a = Some File -> fs !! a = Some File).
    { intros a Ha. destruct (decide (fs1 !! a = fs !! a)) as [Heq|Hne];
        [congruence|]. destruct (Hch a Hne) as [HD _]. congruence. }
    destruct Hway as [[-> Hl]|[-> (a & Hsuf' & Hne & Hl)]];
      [left|right]; eauto 10.
  - intros [= <-]. destruct (mkdir_parents_raise _ _ _ Hd) as (p & Hsuf & Hway).
    exists d, p. split; [left|]. split; assumption.
Qed.

(** Well-formedness is kept. *)
Lemma os_mkdir_wf p fs fs' :
  fs_wf fs -> os_mkdir p fs = Ok fs' -> fs_wf fs'.
Proof.
  intros Hwf Hos. pose proof (os_mkdir_ok _ _ _ Hos) as [_ Hk].
  unfold os_mkdir in Hos. destruct (stat fs p) eqn:Hp; try discriminate.
  destruct (is_dir fs (parent p)) eqn:Hup; [|discriminate].
  injection Hos as <-. intros c up n.
  destruct (decide (p = c :: up)) as [->|Hne].
  - intros _. apply Hk. exact Hup.
  - rewrite lookup_insert_ne by exact Hne. intros Hl. eapply Hk, Hwf, Hl.
Qed.

Lemma mkdir_flat_wf p exist_ok fs fs' :
  fs_wf fs -> mkdir_flat p exist_ok fs = Ok fs' -> fs_wf fs'.
Proof.
  intros Hwf. unfold mkdir_flat. destruct (os_mkdir p fs) as [fs1|e] eqn:Hos.
  - intros [= <-]. eapply os_mkdir_wf; eassumption.
  - destruct e; try discriminate;
      (destruct (negb exist_ok || negb (is_dir fs p)); [discriminate|]);
      intros [= <-]; exact Hwf.
Qed.

Lemma mkdir_each_needs_clear ds fs fs' :
  mkdir_each ds fs = Ok fs' -> Forall (fun d => clear fs d = true) ds.
Proof.
  intros H. pose proof (mkdir_each_ok _ _ _ H) as [Hall _].
  pose proof (mkdir_each_adds _ _ _ H) as [Hsub _].
  eapply Forall_impl; [exact Hall|]. intros d Hd. cbn beta in *.
  unfold clear. destruct (stat fs d) eqn:Hs; try reflexivity;
    apply is_dir_stat in Hd;
    rewrite (stat_subseteq fs fs' d Hsub) in Hd by congruence; congruence.
Qed.

Lemma mkdir_parents_wf p : forall exist_ok fs fs',
  fs_wf fs -> mkdir_parents p exist_ok fs = Ok fs' -> fs_wf fs'.
Proof.
  induction p as [|c up IH]; intros exist_ok fs fs' Hwf; cbn [mkdir_parents];
    destruct (os_mkdir _ fs) as [fs1|e] eqn:Hos.
  1, 3: intros [= <-]; eapply os_mkdir_wf; eassumption.
  - destruct e; try discriminate;
      (destruct (negb exist_ok || negb (is_dir fs [])); [discriminate|]);
      intros [= <-]; exact Hwf.
  - destruct e; try discriminate.
    5: { cbn [mbind result_bind].
         destruct (mkdir_parents up true fs) as [fs1|] eqn:Hup; [|discriminate].
         intros Hflat. eapply mkdir_flat_wf; [|exact Hflat].
         eapply IH; eassumption. }
    all: (destruct (negb exist_ok || negb (is_dir fs (c :: up))); [discriminate|]);
      intros [= <-]; exact Hwf.
Qed.

Lemma mkdir_each_wf ds : forall fs fs',
  fs_wf fs -> mkdir_each ds fs = Ok fs' -> fs_wf fs'.
Proof.
  induction ds as [|d ds IH]; intros fs fs' Hwf; cbn [mkdir_each].
  - intros [= <-]. exact Hwf.
  - cbn [mbind result_bind mkdir].
    destruct (mkdir_parents d true fs) as [fs1|] eqn:Hd; [|discriminate].
    intros Hrest. eapply IH; [|exact Hrest].
    eapply mkdir_parents_wf; eassumption.
Qed.

End Provision.

(** X1: a successful [create_output_directories()] only adds
    directories: every entry that was there (file or directory) is
    still there unchanged, and every entry that is new is a directory
    at one of the five listed paths or at a path above one. *)
Theorem create_output_directories_only_adds
  (PROJECT_ROOT : Path) (fs fs' : FS.t) :
  create_output_directories PROJECT_ROOT fs = Ok fs' ->
  (forall q n, fs !! q = Some n -> fs' !! q = Some n)
  /\ forall q, fs' !! q <> fs !! q ->
       fs !! q = None /\ fs' !! q = Some FS.Dir
       /\ exists d, d ∈ directories PROJECT_ROOT /\ q `suffix_of` d.
Proof.
  intros H. apply mkdir_each_adds in H as [Hsub Hch]. split.
  - intros q n Hq. exact (lookup_weaken _ _ _ _ Hq Hsub).
  - intros q Hq. destruct (Hch q Hq) as [HD Hd].
    split; [|split; assumption].
    destruct (fs !! q) as [n|] eqn:Hl; [|reflexivity].
    rewrite (lookup_weaken _ _ _ _ Hl Hsub) in Hq. congruence.
Qed.

Lemma create_output_directories_only_adds_witness :
  (forall q n, fs_empty_project !! q = Some n -> fs_provisioned !! q = Some n)
  /\ forall q, fs_provisioned !! q <> fs_empty_project !! q ->
       fs_empty_project !! q = None /\ fs_provisioned !! q = Some FS.Dir
       /\ exists d, d ∈ directories ["proj"%string] /\ q `suffix_of` d.
Proof.
  apply (create_output_directories_only_adds ["proj"%string]).
  exact create_on_empty_project.
Defined.

(** X2: what two errors of [create_output_directories()] tell: when
    it raises [FileExistsError] for a path, the file system had a file
    (an entry that is no directory) at that path; when it raises
    [NotADirectoryError] for a path, it had a file strictly above that
    path; and the path is one of the five listed paths or a path above
    one. Nothing is said of other errors, such as those of the operating
    system. *)
Theorem create_output_directories_failure
  (PROJECT_ROOT : Path) (fs : FS.t) (e : exn) :
  create_output_directories PROJECT_ROOT fs = Raise e ->
  match e with
  | FileExistsError p =>
      fs !! p = Some FS.File
      /\ exists d, d ∈ directories PROJECT_ROOT /\ p `suffix_of` d
  | NotADirectoryError p =>
      (exists a, a `suffix_of` p /\ a <> p /\ fs !! a = Some FS.File)
      /\ exists d, d ∈ directories PROJECT_ROOT /\ p `suffix_of` d
  | _ => True
  end.
Proof.
  intros H.
  destruct (mkdir_each_raise _ _ _ H)
    as (d & p & Hd & Hsuf & [[-> Hl]|[-> Ha]]); eauto.
Qed.

Lemma create_output_directories_failure_witness :
  fs_outputs_is_file !! (["outputs"; "proj"]%string : Path) = Some FS.File
  /\ exists d, d ∈ directories ["proj"%string]
               /\ (["outputs"; "proj"]%string : Path) `suffix_of` d.
Proof.
  apply (create_output_directories_failure ["proj"%string] fs_outputs_is_file
           (FileExistsError ["outputs"; "proj"]%string)).
  vm_compute. reflexivity.
Defined.

(** X3: a file in the way makes [create_output_directories()] fail:
    when the call succeeds, none of the five listed paths had a file at
    it or above it; and if every entry sat in a directory before the
    call, every entry does after it. *)
Theorem create_output_directories_success_clear
  (PROJECT_ROOT : Path) (fs fs' : FS.t) :
  create_output_directories PROJECT_ROOT fs = Ok fs' ->
  Forall (fun d => clear fs d = true) (directories PROJECT_ROOT)
  /\ (fs_wf fs -> fs_wf fs').
Proof.
  intros H. split.
  - eapply mkdir_each_needs_clear, H.
  - intros Hwf. eapply mkdir_each_wf; eassumption.
Qed.

Lemma create_output_directories_success_clear_witness :
  Forall (fun d => clear fs_empty_project d = true) (directories ["proj"%string])
  /\ (fs_wf fs_empty_project -> fs_wf fs_provisioned).
Proof.
  apply (create_output_directories_success_clear ["proj"%string]).
  exact create_on_empty_project.
Defined.

(** *** The parents are made *)

Lemma is_dir_parent fs c up :
  FS.is_dir fs (c :: up) = true -> FS.is_dir fs up = true.
Proof.
  unfold FS.is_dir. cbn [FS.stat]. destruct (FS.stat fs up); congruence.
Qed.

Lemma is_dir_suffix fs p q :
  q `suffix_of` p -> FS.is_dir fs p = true -> FS.is_dir fs q = true.
Proof.
  intros [k ->]. induction k as [|c k IH]; [trivial|].
  intros H. apply IH. eapply is_dir_parent, H.
Qed.

(** X4: after a successful [create_output_directories()] every path
    at or above one of the five listed paths is a directory: the
    parents that were missing have been made too, [data] and the
    project root among them. *)
Theorem create_output_directories_makes_parents
  (PROJECT_ROOT : Path) (fs fs' : FS.t) :
  create_output_directories PROJECT_ROOT fs = Ok fs' ->
  (forall d q, d ∈ directories PROJECT_ROOT -> q `suffix_of` d ->
               FS.is_dir fs' q = true)
  /\ FS.is_dir fs' (DATA_DIR PROJECT_ROOT) = true
  /\ FS.is_dir fs' PROJECT_ROOT = true.
Proof.
  intros H. apply mkdir_each_ok in H as [Hall _].
  assert (Hsuf : forall d q, d ∈ directories PROJECT_ROOT -> q `suffix_of` d ->
                             FS.is_dir fs' q = true).
  { intros d q Hd Hq. eapply is_dir_suffix; [exact Hq|].
    rewrite Forall_forall in Hall. apply Hall, Hd. }
  split; [exact Hsuf|]. split.
  - apply (Hsuf (DATA_DIR PROJECT_ROOT /: "processed")); [left|].
    apply suffix_cons_r. reflexivity.
  - apply (Hsuf (OUTPUTS_DIR PROJECT_ROOT)); [right; left|].
    apply suffix_cons_r. reflexivity.
Qed.

Lemma create_output_directories_makes_parents_witness :
  (forall d q, d ∈ directories ["proj"%string] -> q `suffix_of` d ->
               FS.is_dir fs_provisioned q = true)
  /\ FS.is_dir fs_provisioned (DATA_DIR ["proj"%string]) = true
  /\ FS.is_dir fs_provisioned ["proj"%string] = true.
Proof.
  apply (create_output_directories_makes_parents ["proj"%string] fs_empty_project).
  exact create_on_empty_project.
Defined.

(** ** Validation: what passes *)

Lemma SFltb_zero_le m1 e1 x :
  SFleb (S754_finite false m1 e1) x = true -> SFltb (S754_zero false) x = true.
Proof. destruct x as [s|[]| |[] m e]; cbn; congruence. Qed.

Lemma SFleb_zero_le m1 e1 x :
  SFleb (S754_finite false m1 e1) x = true -> SFleb (S754_zero false) x = true.
Proof. destruct x as [s|[]| |[] m e]; cbn; congruence. Qed.

Lemma SFltb_finite m1 e1 m2 e2 :
  e1 < e2 \/ (e1 = e2 /\ Z.pos m1 < Z.pos m2) ->
  SFltb (S754_finite false m1 e1) (S754_finite false m2 e2) = true.
Proof.
  intros H. unfold SFltb. cbn [SFcompare].
  destruct (Z.compare_spec e1 e2) as [He|He|He]; try lia; try reflexivity.
  change (PosDef.Pos.compare_cont Eq m1 m2) with (Pos.compare m1 m2).
  destruct (Pos.compare_spec m1 m2); try reflexivity; lia.
Qed.

Lemma SFltb_le_lt x m1 e1 m2 e2 :
  SFleb x (S754_finite false m1 e1) = true ->
  e1 < e2 \/ (e1 = e2 /\ Z.pos m1 < Z.pos m2) ->
  SFltb x (S754_finite false m2 e2) = true.
Proof.
  destruct x as [s|[]| |[] m e]; try (cbn; congruence).
  intros Hle H. apply SFleb_finite_inv in Hle. apply SFltb_finite. lia.
Qed.

Lemma validate_parameters_passes (g : Globals.t) :
  (0 <? Globals.DISCOUNT_RATE g)%float = true ->
  (Globals.DISCOUNT_RATE g <? 0.20)%float = true ->
  (0 <=? Globals.GROWTH_RATE g)%float = true ->
  (Globals.GROWTH_RATE g <? 0.15)%float = true ->
  0 < Globals.TIME_HORIZON_YEARS g ->
  1000 <= Globals.MC_ITERATIONS g ->
  (0 <=? Globals.EMOTIONAL_LABOR_PREMIUM g)%float = true ->
  (Globals.EMOTIONAL_LABOR_PREMIUM g <=? 0.50)%float = true ->
  validate_parameters g = Ok ["✓ All parameters validated successfully"%string].
Proof.
  intros H1 H2 H3 H4 H5 H6 H7 H8. unfold validate_parameters.
  rewrite lt_0_float, !le_0_float, !lt_float_float, le_float_float,
    gt_int_int, ge_int_int.
  rewrite H1, H2, H3, H4, H7, H8.
  rewrite (proj2 (Z.ltb_lt _ _) H5), (proj2 (Z.leb_le _ _) H6). reflexivity.
Qed.

Lemma validate_parameters_passed (g : Globals.t) (out : list string) :
  validate_parameters g = Ok out ->
  ((0 <? Globals.DISCOUNT_RATE g)%float = true
   /\ (Globals.DISCOUNT_RATE g <? 0.20)%float = true)
  /\ ((0 <=? Globals.GROWTH_RATE g)%float = true
      /\ (Globals.GROWTH_RATE g <? 0.15)%float = true)
  /\ 0 < Globals.TIME_HORIZON_YEARS g
  /\ 1000 <= Globals.MC_ITERATIONS g
  /\ ((0 <=? Globals.EMOTIONAL_LABOR_PREMIUM g)%float = true
      /\ (Globals.EMOTIONAL_LABOR_PREMIUM g <=? 0.50)%float = true).
Proof.
  unfold validate_parameters.
  rewrite lt_0_float, !le_0_float, !lt_float_float, le_float_float,
    gt_int_int, ge_int_int.
  repeat match goal with
         | |- context [assert ?c _] =>
             destruct c eqn:?; cbn [assert mbind result_bind];
             [|discriminate]
         end.
  intros _.
  repeat match goal with
         | H : (_ && _)%bool = true |- _ => apply andb_true_iff in H as [? ?]
         | H : (_ <? _)%Z = true |- _ => apply Z.ltb_lt in H
         | H : (_ <=? _)%Z = true |- _ => apply Z.leb_le in H
         end.
  repeat split; assumption.
Qed.

Lemma is_finite_between (lo x hi : float) :
  is_finite lo = true -> is_finite hi = true ->
  (lo <=? x)%float = true -> (x <=? hi)%float = true -> is_finite x = true.
Proof.
  unfold is_finite, is_nan, is_infinity.
  rewrite !FloatAxioms.eqb_spec, !leb_spec, !abs_spec.
  change (Prim2SF infinity) with (S754_infinity false).
  destruct (Prim2SF lo) as [?|[]| |[] ml el];
    destruct (Prim2SF hi) as [?|[]| |[] mh eh];
    destruct (Prim2SF x) as [?|[]| |[] m e]; cbn; try congruence;
    intros _ _ _ _; rewrite Z.compare_refl;
    change (PosDef.Pos.compare_cont Eq m m) with (Pos.compare m m);
    rewrite Pos.compare_refl; reflexivity.
Qed.

Lemma ltb_leb (x y : float) : (x <? y)%float = true -> (x <=? y)%float = true.
Proof.
  rewrite ltb_spec, leb_spec. unfold SFltb, SFleb.
  destruct (SFcompare _ _) as [[]|]; congruence.
Qed.

(** X5: what [validate_parameters()] lets through is finite: a
    discount rate, a growth rate or an emotional-labor premium that is
    NaN or infinite fails its check, so the call raises. *)
Theorem validate_parameters_accepts_finite_only
  (g : Globals.t) (out : list string) :
  validate_parameters g = Ok out ->
  is_finite (Globals.DISCOUNT_RATE g) = true
  /\ is_finite (Globals.GROWTH_RATE g) = true
  /\ is_finite (Globals.EMOTIONAL_LABOR_PREMIUM g) = true.
Proof.
  intros H. apply validate_parameters_passed in H
    as ([H1 H2] & [H3 H4] & _ & _ & [H5 H6]).
  repeat split.
  - apply (is_finite_between 0 _ 0.20); auto using ltb_leb.
  - apply (is_finite_between 0 _ 0.15); auto using ltb_leb.
  - apply (is_finite_between 0 _ 0.50); auto.
Qed.

Lemma validate_parameters_accepts_finite_only_witness :
  is_finite (Globals.DISCOUNT_RATE loaded) = true
  /\ is_finite (Globals.GROWTH_RATE loaded) = true
  /\ is_finite (Globals.EMOTIONAL_LABOR_PREMIUM loaded) = true.
Proof.
  apply (validate_parameters_accepts_finite_only loaded
           ["✓ All parameters validated successfully"%string]).
  vm_compute. reflexivity.
Defined.

Lemma MC_PARAMS_rate_bounds :
  param_of MC_PARAMS "discount_rate" "min" = Some (Py.Float 0.05)
  /\ param_of MC_PARAMS "discount_rate" "max" = Some (Py.Float 0.15)
  /\ param_of MC_PARAMS "growth_rate" "min" = Some (Py.Float 0.02)
  /\ param_of MC_PARAMS "growth_rate" "max" = Some (Py.Float 0.10).
Proof. repeat split; vm_compute; reflexivity. Qed.

(** X6: a discount rate and a growth rate that lie within the [min]
    and [max] of their Monte Carlo distributions pass
    [validate_parameters()] when they are put in place of the
    baselines (the other parameters as the module sets them). *)
Theorem validate_parameters_accepts_mc_draws (d g : float) :
  within_bounds MC_PARAMS "discount_rate" d = true ->
  within_bounds MC_PARAMS "growth_rate" g = true ->
  validate_parameters (set_DISCOUNT_RATE d (set_GROWTH_RATE g loaded))
  = Ok ["✓ All parameters validated successfully"%string].
Proof.
  unfold within_bounds.
  destruct MC_PARAMS_rate_bounds as (-> & -> & -> & ->).
  rewrite !le_float_float, !andb_true_iff, !leb_spec.
  intros [Hd1 Hd2] [Hg1 Hg2].
  apply validate_parameters_passes; cbn [set_DISCOUNT_RATE set_GROWTH_RATE
    Globals.DISCOUNT_RATE Globals.GROWTH_RATE Globals.TIME_HORIZON_YEARS
    Globals.MC_ITERATIONS Globals.EMOTIONAL_LABOR_PREMIUM loaded];
    try (vm_compute; reflexivity); try (vm_compute; congruence).
  - rewrite ltb_spec. eapply (SFltb_zero_le _ _ _ Hd1).
  - rewrite ltb_spec. eapply (SFltb_le_lt _ _ _ _ _ Hd2). vm_compute. auto.
  - rewrite leb_spec. eapply (SFleb_zero_le _ _ _ Hg1).
  - rewrite ltb_spec. eapply (SFltb_le_lt _ _ _ _ _ Hg2). vm_compute. auto.
Qed.

Lemma validate_parameters_accepts_mc_draws_witness :
  validate_parameters (set_DISCOUNT_RATE 0.15 (set_GROWTH_RATE 0.02 loaded))
  = Ok ["✓ All parameters validated successfully"%string].
Proof.
  apply (validate_parameters_accepts_mc_draws 0.15 0.02); vm_compute; reflexivity.
Defined.

(** X7: the sensitivity grids are consistent with the validation: the
    four ranges are strictly increasing, every pair of a discount rate
    from [DISCOUNT_RATE_RANGE] and a growth rate from
    [GROWTH_RATE_RANGE] passes [validate_parameters()], the baseline
    [DISCOUNT_RATE] is a point of its range, and the baseline
    [GROWTH_RATE] (0.057999999999999996) is not a point of its range,
    whose nearest point is 0.06. *)
Theorem sensitivity_ranges_consistent :
  (increasing DISCOUNT_RATE_RANGE = true
   /\ increasing GROWTH_RATE_RANGE = true
   /\ increasing HOURS_SENSITIVITY_RANGE = true
   /\ increasing WAGE_SENSITIVITY_RANGE = true)
  /\ (forall d g, d ∈ DISCOUNT_RATE_RANGE -> g ∈ GROWTH_RATE_RANGE ->
        validate_parameters (set_DISCOUNT_RATE d (set_GROWTH_RATE g loaded))
        = Ok ["✓ All parameters validated successfully"%string])
  /\ float_in DISCOUNT_RATE DISCOUNT_RATE_RANGE = true
  /\ float_in GROWTH_RATE GROWTH_RATE_RANGE = false.
Proof.
  split; [repeat split; vm_compute; reflexivity|].
  split; [|split; vm_compute; reflexivity].
  intros d g Hd Hg. unfold DISCOUNT_RATE_RANGE, GROWTH_RATE_RANGE in *.
  repeat (apply elem_of_cons in Hd as [->|Hd]);
    try (apply elem_of_nil in Hd; contradiction);
    repeat (apply elem_of_cons in Hg as [->|Hg]);
    try (apply elem_of_nil in Hg; contradiction);
    vm_compute; reflexivity.
Qed.

(** ** Hours: sign, order and the adjustment *)

Lemma rne_exact a d : 0 < d -> rne (a * d) d = a.
Proof.
  intros Hd. apply Z.le_antisymm; [apply rne_le|apply rne_ge]; lia.
Qed.

(** Rounding a binary64 value gives the value back. *)
Lemma binary_round_aux_id mx ex :
  valid_binary (S754_finite false mx ex) = true ->
  binary_round_aux prec emax false (Z.pos mx / 1) ex
    (loc_of_rem (Z.pos mx mod 1) 1)
  = S754_finite false mx ex
  /\ ex <= fexp64 (Zdigits2 (Z.pos mx / 1) + ex).
Proof.
  intros Hv. apply valid_finite in Hv as [Hcan Hmax].
  assert (HE : fexp64 (Zdigits2 (Z.pos mx / 1) + ex) = ex)
    by (rewrite Z.div_1_r, fexp64_eq; lia).
  split; [|lia].
  rewrite binary_round_aux_located by lia.
  rewrite HE, Z.sub_diag, Z.pow_0_r, Z.mul_1_r.
  rewrite <- (Z.mul_1_r (Z.pos mx)) at 1. rewrite rne_exact by lia.
  pose proof (Zdigits2_upper (Z.pos mx) ltac:(lia)) as Hup.
  assert (Hd : Zdigits2 (Z.pos mx) <= 53) by lia.
  assert (Hlt : Z.pos mx < 2 ^ 53).
  { eapply Z.lt_le_trans; [exact Hup|].
    apply Z.pow_le_mono_r; lia. }
  destruct (finish_cases (Z.pos mx) ex ltac:(lia) ltac:(lia))
    as [[H0 _]|[[_ ->]|[H53 _]]]; try lia.
  rewrite (proj2 (Z.leb_le _ _) Hmax). reflexivity.
Qed.

Section MulAbove.

Variables (mc : positive) (ec : Z).
Hypothesis Hnormal : 2 ^ 52 <= Z.pos mc.
Hypothesis Hec : -52 <= ec.

(** A product by a constant that is at least 1 is not below the
    factor. *)
Lemma SFmul_above x :
  valid_binary x = true -> nonneg x ->
  SFleb x (SFmul prec emax x (S754_finite false mc ec)) = true.
Proof.
  intros Hv Hx. destruct (nonneg_cases x Hx) as [[s ->]|[(mx & ex & ->)| ->]].
  - destruct s; reflexivity.
  - destruct (mul_located mc ec Hnormal mx ex) as [-> He2].
    destruct (binary_round_aux_id mx ex Hv) as [Hid He1].
    pose proof (binary_round_aux_mono (Z.pos mx) 1 ex (Z.pos (mx * mc)) 1
                  (ex + ec) (Z.min ex (ex + ec))
                  ltac:(lia) ltac:(lia) ltac:(lia) ltac:(lia) He1 He2
                  ltac:(lia) ltac:(lia)) as Hmono.
    rewrite Hid in Hmono. apply Hmono. clear Hmono Hid He1 He2.
    rewrite !Z.mul_1_r, Pos2Z.inj_mul.
    destruct (Z.le_ge_cases 0 ec) as [Hpos|Hneg].
    + rewrite Z.min_l by lia. rewrite Z.sub_diag, Z.pow_0_r, Z.mul_1_r.
      replace (ex + ec - ex) with ec by lia.
      pose proof (pow2_pos ec Hpos) as Hp.
      rewrite <- Z.mul_assoc. rewrite <- (Z.mul_1_r (Z.pos mx)) at 1.
      apply Z.mul_le_mono_nonneg_l; [lia|].
      change 1 with (1 * 1). apply Z.mul_le_mono_nonneg; lia.
    + rewrite Z.min_r by lia. rewrite Z.sub_diag, Z.pow_0_r, Z.mul_1_r.
      replace (ex - (ex + ec)) with (- ec) by lia.
      assert (H52 : 2 ^ (- ec) <= 2 ^ 52) by (apply Z.pow_le_mono_r; lia).
      apply Z.mul_le_mono_nonneg_l; lia.
  - reflexivity.
Qed.

End MulAbove.

Lemma Prim2SF_1_2 :
  Prim2SF (Py.Z2F 1 + EMOTIONAL_LABOR_PREMIUM)
  = S754_finite false 5404319552844595 (-52).
Proof. reflexivity. Qed.

Lemma apply_emotional_labor_adjustment_float (h : float) :
  apply_emotional_labor_adjustment (Py.Float h)
  = Ok (Py.Float (h * (Py.Z2F 1 + EMOTIONAL_LABOR_PREMIUM))).
Proof. reflexivity. Qed.

(** X8: on hours that are not negative, given as floats,
    [apply_emotional_labor_adjustment] returns the binary64 product by
    1.2; the product is never below the hours it is given, and it is
    monotone: more hours never give fewer adjusted hours. *)
Theorem apply_emotional_labor_adjustment_monotone (h1 h2 : float) :
  (0 <=? h1)%float = true -> (h1 <=? h2)%float = true ->
  exists a1 a2,
    apply_emotional_labor_adjustment (Py.Float h1) = Ok (Py.Float a1)
    /\ apply_emotional_labor_adjustment (Py.Float h2) = Ok (Py.Float a2)
    /\ a1 = (h1 * 1.2)%float /\ a2 = (h2 * 1.2)%float
    /\ (h1 <=? a1)%float = true
    /\ (h2 <=? a2)%float = true
    /\ (a1 <=? a2)%float = true.
Proof.
  intros H0 H12.
  exists (h1 * (Py.Z2F 1 + EMOTIONAL_LABOR_PREMIUM))%float,
         (h2 * (Py.Z2F 1 + EMOTIONAL_LABOR_PREMIUM))%float.
  rewrite !apply_emotional_labor_adjustment_float.
  split; [reflexivity|]. split; [reflexivity|].
  split; [reflexivity|]. split; [reflexivity|].
  rewrite !leb_spec in *. rewrite !mul_spec, Prim2SF_1_2.
  change (Prim2SF 0) with (S754_zero false) in H0.
  assert (Hn : 2 ^ 52 <= Z.pos 5404319552844595) by (vm_compute; discriminate).
  assert (H02 : nonneg (Prim2SF h2)).
  { unfold nonneg. destruct (Prim2SF h1) as [|[]| |[]], (Prim2SF h2) as [|[]| |[]];
      try discriminate; reflexivity. }
  split; [apply SFmul_above; auto using Prim2SF_valid; lia|].
  split; [apply SFmul_above; auto using Prim2SF_valid; lia|].
  apply (SFmul_mono _ _ Hn); auto using Prim2SF_valid.
Qed.

Lemma apply_emotional_labor_adjustment_monotone_witness :
  exists a1 a2,
    apply_emotional_labor_adjustment (Py.Float 571.5) = Ok (Py.Float a1)
    /\ apply_emotional_labor_adjustment (Py.Float 2682.75) = Ok (Py.Float a2)
    /\ a1 = (571.5 * 1.2)%float /\ a2 = (2682.75 * 1.2)%float
    /\ (571.5 <=? a1)%float = true
    /\ (2682.75 <=? a2)%float = true
    /\ (a1 <=? a2)%float = true.
Proof.
  apply (apply_emotional_labor_adjustment_monotone 571.5 2682.75);
    vm_compute; reflexivity.
Defined.

(** *** Annual hours of any float *)

Lemma binary_round_aux_sign s m e l :
  binary_round_aux prec emax s m e l
  = if s then SFopp (binary_round_aux prec emax false m e l)
    else binary_round_aux prec emax false m e l.
Proof.
  destruct s; [|reflexivity]. unfold binary_round_aux.
  destruct (shr_fexp prec emax m e l) as [mrs' e'].
  destruct (shr_fexp prec emax _ e' loc_Exact) as [mrs'' e''].
  destruct (shr_m mrs''); try reflexivity.
  destruct (e'' <=? emax - prec); reflexivity.
Qed.

Lemma SFopp_involutive x : SFopp (SFopp x) = x.
Proof. destruct x as [[]|[]| |[] m e]; reflexivity. Qed.

Lemma SFmul_opp x mc ec :
  SFmul prec emax (SFopp x) (S754_finite false mc ec)
  = SFopp (SFmul prec emax x (S754_finite false mc ec)).
Proof.
  destruct x as [[]|[]| |[] m e]; try reflexivity; cbn [SFopp SFmul xorb negb];
    rewrite (binary_round_aux_sign true); rewrite ?SFopp_involutive; reflexivity.
Qed.

Lemma SFdiv_opp x mc ec :
  SFdiv prec emax (SFopp x) (S754_finite false mc ec)
  = SFopp (SFdiv prec emax x (S754_finite false mc ec)).
Proof.
  destruct x as [[]|[]| |[] m e]; try reflexivity; cbn [SFopp SFdiv xorb negb];
    destruct (SFdiv_core_binary _ _ _ _ _ _) as [[mz ez] lz];
    rewrite (binary_round_aux_sign true); rewrite ?SFopp_involutive; reflexivity.
Qed.

Lemma SFleb_opp x y :
  SFleb x y = true -> SFleb (SFopp y) (SFopp x) = true.
Proof.
  unfold SFleb.
  destruct x as [[]|[]| |[] m1 e1], y as [[]|[]| |[] m2 e2];
    cbn [SFopp SFcompare negb]; try congruence;
    rewrite (Z.compare_antisym e1 e2);
    change (PosDef.Pos.compare_cont Eq m2 m1) with (Pos.compare m2 m1);
    change (PosDef.Pos.compare_cont Eq m1 m2) with (Pos.compare m1 m2);
    rewrite (Pos.compare_antisym m1 m2);
    destruct (e1 ?= e2), (m1 ?= m2)%positive; cbn; congruence.
Qed.

Lemma SFleb_opp_nonneg a b :
  nonneg a -> nonneg b -> SFleb (SFopp a) b = true.
Proof.
  unfold nonneg.
  destruct a as [[]|[]| |[] m1 e1], b as [[]|[]| |[] m2 e2];
    cbn; congruence.
Qed.

(** Below a number that is not at or above zero lies no NaN; its
    opposite is above zero. *)
Lemma SFopp_nonneg x y :
  SFleb x y = true -> SFleb (S754_zero false) x = false ->
  nonneg (SFopp x).
Proof.
  unfold nonneg. destruct x as [[]|[]| |[] m1 e1], y as [[]|[]| |[] m2 e2];
    cbn; congruence.
Qed.

Lemma hours_mono_nonneg (m1 m2 : float) :
  (0 <=? m1)%float = true -> (m1 <=? m2)%float = true ->
  nonneg (Prim2SF (m1 * 365 / 60))
  /\ (m1 * 365 / 60 <=? m2 * 365 / 60)%float = true.
Proof.
  intros H0 H12. rewrite leb_spec in *. rewrite !div_spec, !mul_spec.
  change (Prim2SF 0) with (S754_zero false) in H0.
  rewrite Prim2SF_365, Prim2SF_60.
  destruct (SFmul_mono (Z.to_pos (365 * 2 ^ 44)) (-44) ltac:(vm_compute; discriminate)
              (Prim2SF m1) (Prim2SF m2) (Prim2SF_valid _) (Prim2SF_valid _) H0 H12)
    as [Hn Hm].
  rewrite <- Prim2SF_365 in Hn, Hm |- *.
  rewrite <- (mul_spec m1) in Hn, Hm |- *.
  rewrite <- (mul_spec m2) in Hm |- *.
  apply (SFdiv_mono (Z.to_pos (60 * 2 ^ 47)) (-47)
           (Prim2SF (m1 * 365)) (Prim2SF (m2 * 365))
           (Prim2SF_valid _) (Prim2SF_valid _) Hn Hm).
Qed.

Lemma hours_opp (m : float) : (- m * 365 / 60 = - (m * 365 / 60))%float.
Proof.
  apply Prim2SF_inj.
  rewrite opp_spec, !div_spec, !mul_spec, opp_spec, Prim2SF_365, Prim2SF_60.
  rewrite SFmul_opp, SFdiv_opp. reflexivity.
Qed.

Lemma opp_involutive (x : float) : (- - x = x)%float.
Proof. apply Prim2SF_inj. rewrite !opp_spec. apply SFopp_involutive. Qed.

(** X9: [get_annual_hours] of a float never raises, keeps the sign
    and is odd: the hours of [-m] are the opposite of the hours of [m],
    and the hours of a float that is not negative are not negative
    (and so not NaN). *)
Theorem get_annual_hours_odd (m : float) :
  exists h,
    get_annual_hours (Py.Float m) = Ok h
    /\ get_annual_hours (Py.Float (- m)) = Ok (- h)%float
    /\ ((0 <=? m)%float = true -> (0 <=? h)%float = true)
    /\ ((m <=? 0)%float = true -> (h <=? 0)%float = true).
Proof.
  exists (m * 365 / 60)%float. rewrite !get_annual_hours_float.
  split; [reflexivity|]. split; [rewrite hours_opp; reflexivity|]. split.
  - intros H0. rewrite leb_spec.
    apply (hours_mono_nonneg m m); [exact H0|].
    rewrite leb_spec in *. change (Prim2SF 0) with (S754_zero false) in H0.
    destruct (Prim2SF m) as [[]|[]| |[] mm e]; try discriminate; try reflexivity.
    apply SFleb_finite. lia.
  - intros H0. rewrite leb_spec in *.
    change (Prim2SF 0) with (S754_zero false) in *.
    assert (Hn : (0 <=? - m)%float = true).
    { rewrite leb_spec, opp_spec. change (Prim2SF 0) with (S754_zero false).
      destruct (Prim2SF m) as [[]|[]| |[] mm e]; try discriminate; reflexivity. }
    destruct (hours_mono_nonneg (- m) (- m) Hn) as [Hh _].
    { rewrite leb_spec, opp_spec.
      destruct (Prim2SF m) as [[]|[]| |[] mm e]; try discriminate; try reflexivity.
      apply SFleb_finite. lia. }
    rewrite hours_opp, opp_spec in Hh. unfold nonneg in Hh.
    destruct (Prim2SF (m * 365 / 60)) as [[]|[]| |[] mm e];
      try discriminate; reflexivity.
Qed.

(** X10: [get_annual_hours] is monotone over all floats, the negative
    ones and the infinities included: for [m1 <= m2] the hours of [m1]
    are at most the hours of [m2]. *)
Theorem get_annual_hours_monotone_everywhere (m1 m2 : float) :
  (m1 <=? m2)%float = true ->
  exists h1 h2,
    get_annual_hours (Py.Float m1) = Ok h1
    /\ get_annual_hours (Py.Float m2) = Ok h2
    /\ (h1 <=? h2)%float = true.
Proof.
  intros H12. exists (m1 * 365 / 60)%float, (m2 * 365 / 60)%float.
  rewrite !get_annual_hours_float. split; [reflexivity|]. split; [reflexivity|].
  destruct (0 <=? m1)%float eqn:H1; [apply hours_mono_nonneg; assumption|].
  assert (Hn1 : (0 <=? - m1)%float = true).
  { rewrite leb_spec in *. rewrite opp_spec.
    change (Prim2SF 0) with (S754_zero false) in *.
    eapply SFopp_nonneg; eassumption. }
  rewrite <- (opp_involutive m1), hours_opp.
  destruct (0 <=? m2)%float eqn:H2.
  - destruct (hours_mono_nonneg (- m1) (- m1) Hn1) as [Ha _].
    { rewrite leb_spec in *. change (Prim2SF 0) with (S754_zero false) in Hn1.
      destruct (Prim2SF (- m1)) as [[]|[]| |[] mm e];
        try discriminate; try reflexivity.
      apply SFleb_finite. lia. }
    destruct (hours_mono_nonneg m2 m2 H2) as [Hb _].
    { rewrite leb_spec in *. change (Prim2SF 0) with (S754_zero false) in H2.
      destruct (Prim2SF m2) as [[]|[]| |[] mm e];
        try discriminate; try reflexivity.
      apply SFleb_finite. lia. }
    rewrite leb_spec, opp_spec. apply SFleb_opp_nonneg; assumption.
  - assert (Hn2 : (0 <=? - m2)%float = true).
    { rewrite leb_spec in *. rewrite opp_spec.
      change (Prim2SF 0) with (S754_zero false) in *.
      destruct (Prim2SF m1) as [[]|[]| |[] a1 e1],
               (Prim2SF m2) as [[]|[]| |[] a2 e2];
        cbn in *; congruence. }
    assert (H21 : (- m2 <=? - m1)%float = true).
    { rewrite leb_spec in *. rewrite !opp_spec. apply SFleb_opp, H12. }
    destruct (hours_mono_nonneg (- m2) (- m1) Hn2 H21) as [_ Hle].
    rewrite <- (opp_involutive m2) at 1. rewrite (hours_opp (- m2)).
    rewrite leb_spec in *. rewrite !opp_spec. apply SFleb_opp, Hle.
Qed.

Lemma get_annual_hours_monotone_everywhere_witness :
  exists h1 h2,
    get_annual_hours (Py.Float (-441)) = Ok h1
    /\ get_annual_hours (Py.Float 94) = Ok h2
    /\ (h1 <=? h2)%float = true.
Proof.
  apply (get_annual_hours_monotone_everywhere (-441) 94). vm_compute. reflexivity.
Defined.

(** ** Ints as floats *)

Lemma digits2_iter_xO p d :
  digits2_pos (Pos.iter xO p d) = (digits2_pos p + d)%positive.
Proof.
  induction d as [|d IH] using Pos.peano_ind.
  - cbn. lia.
  - rewrite Pos.iter_succ. cbn [digits2_pos]. rewrite IH. lia.
Qed.

Lemma Zpos_iter_xO p d : Z.pos (Pos.iter xO p d) = Z.pos p * 2 ^ Z.pos d.
Proof.
  induction d as [|d IH] using Pos.peano_ind.
  - cbn. lia.
  - rewrite Pos.iter_succ, Pos2Z.inj_xO, IH, Pos2Z.inj_succ, Z.pow_succ_r by lia.
    ring.
Qed.

Lemma Zdigits2_le_53 n : 0 < n < 2 ^ 53 -> 1 <= Zdigits2 n <= 53.
Proof.
  intros Hn. pose proof (Zdigits2_bounds n ltac:(lia)) as [Hlo Hhi].
  split.
  - destruct n; try lia. cbn. lia.
  - destruct (Z.le_gt_cases (Zdigits2 n) 53) as [H|H]; [exact H|].
    assert (2 ^ 53 <= 2 ^ (Zdigits2 n - 1)) by (apply Z.pow_le_mono_r; lia).
    lia.
Qed.

(** An int below 2^53 converts without rounding. *)
Lemma binary_normalize_exact p :
  Z.pos p < 2 ^ 53 ->
  exists m e,
    binary_normalize prec emax (Z.pos p) 0 false = S754_finite false m e
    /\ binary_normalize prec emax (Z.neg p) 0 false = S754_finite true m e
    /\ valid_binary (S754_finite false m e) = true
    /\ e <= 0 /\ Z.pos m = Z.pos p * 2 ^ (- e).
Proof.
  intros Hp. pose proof (Zdigits2_le_53 (Z.pos p) ltac:(lia)) as Hd.
  cbn [Zdigits2] in Hd. unfold binary_normalize, binary_round.
  assert (HE : fexp prec emax (Z.pos (digits2_pos p) + 0)
               = Z.pos (digits2_pos p) - 53)
    by (rewrite fexp64_eq; lia).
  rewrite HE. unfold shl_align.
  assert (Hval : forall m e, Z.pos (digits2_pos m) = 53 -> -52 <= e <= 0 ->
            valid_binary (S754_finite false m e) = true).
  { intros m e Hm He. unfold SpecFloat.valid_binary, bounded, canonical_mantissa.
    rewrite fexp64_eq. apply andb_true_iff. split.
    - apply Z.eqb_eq. lia.
    - apply Z.leb_le. change (emax - prec) with 971. lia. }
  assert (Hid : forall m e, valid_binary (S754_finite false m e) = true ->
            binary_round_aux prec emax false (Z.pos m) e loc_Exact
            = S754_finite false m e).
  { intros m e Hv. destruct (binary_round_aux_id m e Hv) as [H _].
    rewrite Z.div_1_r, Z.mod_1_r in H. exact H. }
  destruct (Z.pos (digits2_pos p) - 53 - 0) as [|d|d] eqn:Hsh; try lia;
    cbv beta iota; rewrite (binary_round_aux_sign true).
  - exists p, 0. rewrite (Hid p 0) by (apply Hval; lia).
    repeat split; try lia. apply Hval; lia.
  - exists (Pos.iter xO p d), (Z.pos (digits2_pos p) - 53).
    assert (Hv : valid_binary (S754_finite false (Pos.iter xO p d)
                                 (Z.pos (digits2_pos p) - 53)) = true).
    { apply Hval; [rewrite digits2_iter_xO|]; lia. }
    rewrite (Hid _ _ Hv). repeat split; try lia; [exact Hv|].
    rewrite Zpos_iter_xO. f_equal. f_equal. lia.
Qed.

Lemma rne_top N d :
  0 < d -> (2 ^ 54 - 1) * d <= 2 * N -> 2 ^ 53 <= rne N d.
Proof.
  intros Hd HN. destruct (rne_spec N d Hd) as ([Hlo Hhi] & _ & Heven).
  destruct (Z.le_gt_cases (2 ^ 53) (rne N d)) as [H|H]; [exact H|exfalso].
  set (M := rne N d) in *. clearbody M.
  change (2 ^ 54) with (2 * 2 ^ 53) in HN.
  assert (HM : (2 * M + 1) * d <= (2 * 2 ^ 53 - 1) * d)
    by (apply Z.mul_le_mono_nonneg_r; lia).
  assert (Heq : 2 * N = (2 * M + 1) * d) by lia.
  assert (HM2 : M = 2 ^ 53 - 1).
  { assert ((2 * 2 ^ 53 - 1) * d <= (2 * M + 1) * d) by lia.
    apply Z.mul_le_mono_pos_r in H0; lia. }
  specialize (Heven Heq). rewrite HM2 in Heven. discriminate.
Qed.

Lemma rne_below_top N d :
  0 < d -> 2 * N < (2 ^ 54 - 1) * d -> rne N d < 2 ^ 53.
Proof.
  intros Hd HN. destruct (rne_spec N d Hd) as ([Hlo Hhi] & _ & _).
  set (M := rne N d) in *. clearbody M.
  change (2 ^ 54) with (2 * 2 ^ 53) in HN.
  assert ((2 * M - 1) * d < (2 * 2 ^ 53 - 1) * d) by lia.
  apply Z.mul_lt_mono_pos_r in H; lia.
Qed.

(** From 2^53 on, an int is rounded on the exponent its length
    gives. *)
Lemma binary_normalize_big p :
  2 ^ 53 <= Z.pos p ->
  binary_normalize prec emax (Z.pos p) 0 false
  = finish (rne (Z.pos p) (2 ^ (Zdigits2 (Z.pos p) - 53)))
           (Zdigits2 (Z.pos p) - 53)
  /\ binary_normalize prec emax (Z.neg p) 0 false
     = SFopp (binary_normalize prec emax (Z.pos p) 0 false)
  /\ valid_binary (binary_normalize prec emax (Z.pos p) 0 false) = true.
Proof.
  intros Hp. assert (Hd : 53 <= Zdigits2 (Z.pos p)).
  { apply digits_ge_53. change (2 ^ 53) with (2 * 2 ^ 52) in Hp. lia. }
  unfold binary_normalize, binary_round.
  assert (HE : fexp prec emax (Z.pos (digits2_pos p) + 0)
               = Zdigits2 (Z.pos p) - 53)
    by (rewrite fexp64_eq; cbn [Zdigits2] in *; lia).
  rewrite HE. unfold shl_align.
  assert (Hloc : binary_round_aux prec emax false (Z.pos p) 0 loc_Exact
                 = binary_round_aux prec emax false (Z.pos p / 1) 0
                     (loc_of_rem (Z.pos p mod 1) 1))
    by (rewrite Z.div_1_r, Z.mod_1_r; reflexivity).
  assert (He : 0 <= fexp64 (Zdigits2 (Z.pos p / 1) + 0))
    by (rewrite Z.div_1_r, fexp64_eq; lia).
  assert (Hsame : forall s,
            (let '(mz, ez) := match Zdigits2 (Z.pos p) - 53 - 0 with
                              | Z.neg d => (Pos.iter xO p d, Zdigits2 (Z.pos p) - 53)
                              | _ => (p, 0)
                              end in
             binary_round_aux prec emax s (Z.pos mz) ez loc_Exact)
            = binary_round_aux prec emax s (Z.pos p) 0 loc_Exact).
  { intros s. destruct (Zdigits2 (Z.pos p) - 53 - 0) eqn:Hsh; try reflexivity. lia. }
  rewrite !Hsame. rewrite (binary_round_aux_sign true). rewrite Hloc.
  split; [|split; [reflexivity|]].
  - rewrite binary_round_aux_located by lia.
    rewrite Z.div_1_r, Z.add_0_r, fexp64_eq, Z.sub_0_r, Z.mul_1_r.
    rewrite Z.max_l by lia. reflexivity.
  - apply binary_round_aux_valid; lia.
Qed.

Lemma binary_normalize_range p :
  (overflow_threshold <= Z.pos p ->
   binary_normalize prec emax (Z.pos p) 0 false = S754_infinity false
   /\ binary_normalize prec emax (Z.neg p) 0 false = S754_infinity true)
  /\ (Z.pos p < overflow_threshold ->
      exists m e,
        binary_normalize prec emax (Z.pos p) 0 false = S754_finite false m e
        /\ binary_normalize prec emax (Z.neg p) 0 false = S754_finite true m e
        /\ valid_binary (S754_finite false m e) = true).
Proof.
  destruct (Z.le_gt_cases (2 ^ 53) (Z.pos p)) as [Hbig|Hsmall].
  2: { split.
       - intros H. exfalso. unfold overflow_threshold in H.
         assert (2 ^ 53 < 2 ^ 1024 - 2 ^ 970) by (vm_compute; reflexivity). lia.
       - intros _. destruct (binary_normalize_exact p Hsmall)
           as (m & e & H1 & H2 & Hv & _). eauto. }
  destruct (binary_normalize_big p Hbig) as (Hpos & Hneg & Hv).
  rewrite Hneg. pose proof (Zdigits2_bounds (Z.pos p) ltac:(lia)) as [Hlo Hhi].
  assert (Hd : 53 <= Zdigits2 (Z.pos p)).
  { apply digits_ge_53. change (2 ^ 53) with (2 * 2 ^ 52) in Hbig. lia. }
  set (dg := Zdigits2 (Z.pos p)) in *.
  assert (HM : 2 ^ 52 <= rne (Z.pos p) (2 ^ (dg - 53)) <= 2 ^ 53).
  { split.
    - pose proof (rounded_lower (Z.pos p) 1 0 dg (dg - 53)) as H.
      rewrite Z.sub_0_r, Z.mul_1_r in H. apply H; try lia.
      unfold dg. rewrite Z.div_1_r. reflexivity.
    - pose proof (rounded_upper (Z.pos p) 1 0 dg (dg - 53)) as H.
      rewrite Z.sub_0_r, Z.mul_1_r in H. apply H; try lia.
      unfold dg. rewrite Z.div_1_r. reflexivity. }
  assert (Hth : overflow_threshold = (2 ^ 54 - 1) * 2 ^ 970) by reflexivity.
  assert (H1023 : 2 ^ 1023 < overflow_threshold) by (vm_compute; reflexivity).
  assert (H1024 : overflow_threshold < 2 ^ 1024) by (vm_compute; reflexivity).
  rewrite Hpos in *. clear Hpos Hneg.
  set (M := rne (Z.pos p) (2 ^ (dg - 53))) in *.
  split.
  - intros HT.
    assert (Hdg : 1024 <= dg).
    { destruct (Z.le_gt_cases 1024 dg) as [H|H]; [exact H|exfalso].
      assert (2 ^ dg <= 2 ^ 1023) by (apply Z.pow_le_mono_r; lia). lia. }
    assert (Hinf : finish M (dg - 53) = S754_infinity false).
    { destruct (Z.eq_dec dg 1024) as [Heq|Hne].
      - assert (HM53 : 2 ^ 53 <= M).
        { apply rne_top; [apply pow2_pos; lia|].
          rewrite Heq. change (2 ^ (1024 - 53)) with (2 * 2 ^ 970).
          rewrite Hth in HT. lia. }
        destruct (finish_cases M (dg - 53) ltac:(lia) ltac:(lia))
          as [[H0 _]|[[H0 _]|[_ ->]]]; try lia.
        rewrite Heq. reflexivity.
      - destruct (finish_cases M (dg - 53) ltac:(lia) ltac:(lia))
          as [[H0 _]|[[_ ->]|[_ ->]]]; try lia.
        + rewrite (proj2 (Z.leb_gt _ _)) by lia. reflexivity.
        + rewrite (proj2 (Z.leb_gt _ _)) by lia. reflexivity. }
    rewrite Hinf. split; reflexivity.
  - intros HT.
    assert (Hdg : dg <= 1024).
    { destruct (Z.le_gt_cases dg 1024) as [H|H]; [exact H|exfalso].
      assert (2 ^ 1024 <= 2 ^ (dg - 1)) by (apply Z.pow_le_mono_r; lia). lia. }
    assert (Hfin : exists m e, finish M (dg - 53) = S754_finite false m e).
    { destruct (Z.eq_dec dg 1024) as [Heq|Hne].
      - assert (HM53 : M < 2 ^ 53).
        { apply rne_below_top; [apply pow2_pos; lia|].
          rewrite Heq. change (2 ^ (1024 - 53)) with (2 * 2 ^ 970).
          rewrite Hth in HT. lia. }
        destruct (finish_cases M (dg - 53) ltac:(lia) ltac:(lia))
          as [[H0 _]|[[_ ->]|[H0 _]]]; try lia.
        rewrite (proj2 (Z.leb_le _ _)) by lia. eauto.
      - destruct (finish_cases M (dg - 53) ltac:(lia) ltac:(lia))
          as [[H0 _]|[[_ ->]|[_ ->]]]; try lia.
        + rewrite (proj2 (Z.leb_le _ _)) by lia. eauto.
        + rewrite (proj2 (Z.leb_le _ _)) by lia. eauto. }
    destruct Hfin as (m & e & Hfin). rewrite Hfin in *.
    exists m, e. repeat split. exact Hv.
Qed.

Lemma float_of_int_range n :
  (Z.abs n < overflow_threshold -> Py.float_of_int n = Ok (Py.Z2F n))
  /\ (overflow_threshold <= Z.abs n -> Py.float_of_int n = Raise OverflowError).
Proof.
  assert (H0 : 0 < overflow_threshold) by (vm_compute; reflexivity).
  unfold Py.float_of_int, Py.Z2F.
  destruct n as [|p|p]; cbn [Z.abs].
  - split; [reflexivity|lia].
  - destruct (binary_normalize_range p) as [Hinf Hfin]. split; intros H.
    + destruct (Hfin H) as (m & e & -> & _ & Hv).
      rewrite is_infinity_SF2Prim by exact Hv. reflexivity.
    + destruct (Hinf H) as [-> _]. reflexivity.
  - destruct (binary_normalize_range p) as [Hinf Hfin]. split; intros H.
    + destruct (Hfin H) as (m & e & _ & -> & Hv).
      rewrite is_infinity_SF2Prim by exact Hv. reflexivity.
    + destruct (Hinf H) as [_ ->]. reflexivity.
Qed.

(** ** Formatting *)

Lemma format_currency_body (v : Py.num) :
  format_currency v
  = (body ← Fmt.format_num
              {| Fmt.grouping := true; Fmt.precision := 0;
                 Fmt.presentation := "f" |} v;
     Ok (string_of_list_ascii (list_ascii_of_string "₹" ++ body))).
Proof.
  unfold format_currency, Fmt.format.
  change (Fmt.split_at "{" (list_ascii_of_string CURRENCY_FORMAT)) with
    (Some (list_ascii_of_string "₹", list_ascii_of_string ":,.0f}")).
  cbv beta iota.
  change (Fmt.split_at "}" (list_ascii_of_string ":,.0f}")) with
    (Some (":"%char :: list_ascii_of_string ",.0f", @nil ascii)).
  cbv beta iota.
  change (Fmt.parse_spec _)
    with (Some {| Fmt.grouping := true; Fmt.precision := 0%nat;
                  Fmt.presentation := "f"%char |}).
  cbv beta iota.
  destruct (Fmt.format_num _ v); cbn [mbind result_bind]; [|reflexivity].
  rewrite app_nil_r. reflexivity.
Qed.

Lemma format_percentage_body (v : Py.num) :
  format_percentage v
  = (body ← Fmt.format_num
              {| Fmt.grouping := false; Fmt.precision := 1;
                 Fmt.presentation := "%" |} v;
     Ok (string_of_list_ascii body)).
Proof.
  unfold format_percentage, Fmt.format.
  change (Fmt.split_at "{" (list_ascii_of_string PERCENTAGE_FORMAT)) with
    (Some (@nil ascii, list_ascii_of_string ":.1%}")).
  cbv beta iota.
  change (Fmt.split_at "}" (list_ascii_of_string ":.1%}")) with
    (Some (":"%char :: list_ascii_of_string ".1%", @nil ascii)).
  cbv beta iota.
  change (Fmt.parse_spec _)
    with (Some {| Fmt.grouping := false; Fmt.precision := 1%nat;
                  Fmt.presentation := "%"%char |}).
  cbv beta iota.
  destruct (Fmt.format_num _ v); cbn [mbind result_bind]; [|reflexivity].
  rewrite app_nil_r. reflexivity.
Qed.

Lemma scaled_exact m e a prc :
  e <= 0 -> Z.pos m = a * 2 ^ (- e) ->
  Fmt.scaled m e prc = a * 10 ^ Z.of_nat prc.
Proof.
  intros He Hm. unfold Fmt.scaled. destruct e as [|k|k]; try lia.
  change (- Z.neg k) with (Z.pos k) in Hm. rewrite Hm.
  replace (a * 2 ^ Z.pos k * 10 ^ Z.of_nat prc)
    with (a * 10 ^ Z.of_nat prc * 2 ^ Z.pos k) by ring.
  apply rne_exact. apply pow2_pos. lia.
Qed.

(** An int below 2^53 is formatted digit for digit. *)
Lemma format_f_int grp prc n :
  Z.abs n < 2 ^ 53 ->
  Fmt.format_f grp prc (Py.Z2F n)
  = Fmt.fixed grp prc (n <? 0) (Z.abs n * 10 ^ Z.of_nat prc).
Proof.
  intros Hn. unfold Fmt.format_f, Py.Z2F. destruct n as [|p|p]; cbn [Z.abs] in *.
  - reflexivity.
  - destruct (binary_normalize_exact p Hn) as (m & e & -> & _ & Hv & He & Hm).
    rewrite Prim2SF_SF2Prim by exact Hv.
    rewrite (scaled_exact m e (Z.pos p)) by assumption. reflexivity.
  - destruct (binary_normalize_exact p Hn) as (m & e & _ & -> & Hv & He & Hm).
    rewrite Prim2SF_SF2Prim by exact Hv.
    rewrite (scaled_exact m e (Z.pos p)) by assumption. reflexivity.
Qed.

Lemma pretty_N_go_length x : forall s,
  (String.length s <= String.length (pretty_N_go x s))%nat.
Proof.
  induction (N.lt_wf_0 x) as [x _ IH]. intros s.
  destruct (N.eq_dec x 0%N) as [->|Hx]; [rewrite pretty_N_go_0; lia|].
  rewrite pretty_N_go_step by lia.
  etrans; [|apply IH; apply N.div_lt; lia]. cbn. lia.
Qed.

Lemma length_list_ascii_of_string s :
  length (list_ascii_of_string s) = String.length s.
Proof. induction s as [|c s IH]; cbn; congruence. Qed.

Lemma digits_of_length z : (1 <= length (digits_of z))%nat.
Proof.
  unfold digits_of. rewrite length_list_ascii_of_string.
  unfold pretty, pretty_N. destruct (decide _) as [_|Hne]; [cbn; lia|].
  rewrite pretty_N_go_step by lia.
  etrans; [|apply pretty_N_go_length]. cbn. lia.
Qed.

Lemma fixed_0 grp neg a :
  0 <= a ->
  Fmt.fixed grp 0 neg a
  = (if neg then ["-"%char] else [])
      ++ (if grp then Fmt.group3 (digits_of a) else digits_of a).
Proof.
  intros Ha. unfold Fmt.fixed.
  replace (list_ascii_of_string (pretty (Z.to_N a))) with (digits_of a)
    by (unfold digits_of; rewrite Z.abs_eq by exact Ha; reflexivity).
  pose proof (digits_of_length a) as Hlen.
  replace (1 - length (digits_of a))%nat with 0%nat by lia.
  cbn [replicate app]. rewrite Nat.sub_0_r, firstn_all, app_nil_r.
  reflexivity.
Qed.

Lemma string_of_list_ascii_app l1 l2 :
  string_of_list_ascii (l1 ++ l2)
  = string_of_list_ascii l1 +:+ string_of_list_ascii l2.
Proof.
  induction l1 as [|c l1 IH]; [reflexivity|].
  cbn [app string_of_list_ascii]. rewrite IH. reflexivity.
Qed.

Lemma format_currency_int n :
  Z.abs n < 2 ^ 53 ->
  format_currency (Py.Int n) = Ok ("₹" +:+ format_int_grouped n).
Proof.
  intros Hn. rewrite format_currency_body. unfold Fmt.format_num.
  assert (Hlt : Z.abs n < overflow_threshold).
  { assert (2 ^ 53 < overflow_threshold) by (vm_compute; reflexivity). lia. }
  rewrite (proj1 (float_of_int_range n) Hlt). cbn [mbind result_bind].
  cbn [Fmt.presentation Fmt.grouping Fmt.precision].
  rewrite bool_decide_eq_false_2 by discriminate. cbn [mbind result_bind].
  rewrite format_f_int by exact Hn.
  rewrite Z.pow_0_r, Z.mul_1_r, fixed_0 by lia.
  rewrite string_of_list_ascii_app, string_of_list_ascii_of_string.
  unfold format_int_grouped, sign_of, digits_of.
  rewrite Z.abs_idemp. reflexivity.
Qed.

(** X11: an int amount below 2^53 in size is shown digit for digit:
    [format_currency(n)] is the rupee sign followed by the text of
    [f"{n:,}"], the sign and the decimal digits of [n] in groups of
    three; nothing is rounded. *)
Theorem format_currency_int_exact (n : Z) :
  Z.abs n < 2 ^ 53 ->
  format_currency (Py.Int n) = Ok ("₹" +:+ format_int_grouped n).
Proof. apply format_currency_int. Qed.

Lemma format_currency_int_exact_witness :
  format_currency (Py.Int (-3350000))
  = Ok ("₹" +:+ format_int_grouped (-3350000)).
Proof.
  apply (format_currency_int_exact (-3350000)). vm_compute. reflexivity.
Defined.

(** X12: an int argument is converted to a float first, and an int
    that is too large for a float raises: [format_currency],
    [format_percentage] and [apply_emotional_labor_adjustment] raise
    [OverflowError] on every int of size 2^1024 - 2^970 or more, and
    return on every smaller int. *)
Theorem int_argument_overflow (n : Z) :
  (overflow_threshold <= Z.abs n ->
   format_currency (Py.Int n) = Raise OverflowError
   /\ format_percentage (Py.Int n) = Raise OverflowError
   /\ apply_emotional_labor_adjustment (Py.Int n) = Raise OverflowError)
  /\ (Z.abs n < overflow_threshold ->
      exists s1 s2 a,
        format_currency (Py.Int n) = Ok s1
        /\ format_percentage (Py.Int n) = Ok s2
        /\ apply_emotional_labor_adjustment (Py.Int n) = Ok (Py.Float a)).
Proof.
  rewrite format_currency_body, format_percentage_body.
  unfold apply_emotional_labor_adjustment, Fmt.format_num, Py.mul.
  destruct (float_of_int_range n) as [Hok Hraise]. split; intros H.
  - rewrite (Hraise H). repeat split; reflexivity.
  - rewrite (Hok H). cbn [mbind result_bind Fmt.presentation].
    rewrite bool_decide_eq_false_2 by discriminate.
    rewrite bool_decide_eq_true_2 by reflexivity.
    cbn [mbind result_bind]. do 3 eexists. repeat split; reflexivity.
Qed.

(** ** The script *)

(** X13: what running the module as a script does, on any file
    system: the default parameters pass the validation, whose line is
    printed first; then the directories are made, and a failure there
    ends the run with that error and nothing more printed; otherwise
    the eight lines of the summary follow, with the discount rate shown
    as 10.6%, the growth rate as 5.8% and the iterations as 10,000, and
    the run ends with the directories made. *)
Theorem main_outcome (PROJECT_ROOT : Path) (fs : FS.t) :
  match create_output_directories PROJECT_ROOT fs with
  | Ok fs' => main PROJECT_ROOT fs = (banner, Ok fs')
  | Raise e =>
      main PROJECT_ROOT fs
      = (["✓ All parameters validated successfully"%string], Raise e)
  end.
Proof.
  unfold main.
  assert (Hv : validate_parameters loaded
               = Ok ["✓ All parameters validated successfully"%string])
    by (vm_compute; reflexivity).
  rewrite Hv.
  destruct (create_output_directories PROJECT_ROOT fs) as [fs'|e].
  - vm_compute. reflexivity.
  - reflexivity.
Qed.

(** ** Annual hours of an int *)

Lemma int_truediv_raises a d e :
  Py.int_truediv a (Z.pos d) = Raise e -> e = OverflowError.
Proof.
  unfold Py.int_truediv. cbn [Z.eqb].
  destruct (is_infinity _); congruence.
Qed.

Lemma hours_int_returns (m1 m2 : Z) :
  0 <= m1 <= m2 ->
  365 * m2 < 60 * overflow_threshold ->
  exists h1 h2,
    get_annual_hours (Py.Int m1) = Ok h1
    /\ get_annual_hours (Py.Int m2) = Ok h2
    /\ (h1 <=? h2)%float = true.
Proof.
  intros Hm Hlt. rewrite !get_annual_hours_int.
  set (top := (60 * overflow_threshold - 1) / 365).
  assert (Htop : exists h, Py.int_truediv (top * 365) 60 = Ok h)
    by (vm_compute; eexists; reflexivity).
  assert (Hle : m2 <= top).
  { apply Z.div_le_lower_bound; lia. }
  clearbody top. destruct Htop as [h Htop].
  destruct (int_truediv_mono 60 (m2 * 365) (top * 365) h ltac:(lia) Htop)
    as (h2 & H2 & _).
  destruct (int_truediv_mono 60 (m1 * 365) (m2 * 365) h2 ltac:(lia) H2)
    as (h1 & H1 & H12).
  exists h1, h2. repeat split; assumption.
Qed.

(** X14: on ints that are not negative, [get_annual_hours] returns as
    long as [365 * m / 60] stays below 2^1024 - 2^970, where the
    quotient rounds to a float, and there it is monotone: for
    [0 <= m1 <= m2] the hours of [m1] are at most the hours of [m2]. *)
Theorem get_annual_hours_int_returns (m1 m2 : Z) :
  0 <= m1 <= m2 ->
  365 * m2 < 60 * overflow_threshold ->
  exists h1 h2,
    get_annual_hours (Py.Int m1) = Ok h1
    /\ get_annual_hours (Py.Int m2) = Ok h2
    /\ (h1 <=? h2)%float = true.
Proof. apply hours_int_returns. Qed.

Lemma get_annual_hours_int_returns_witness :
  exists h1 h2,
    get_annual_hours (Py.Int 94) = Ok h1
    /\ get_annual_hours (Py.Int 441) = Ok h2
    /\ (h1 <=? h2)%float = true.
Proof.
  apply (get_annual_hours_int_returns 94 441); [lia|].
  vm_compute. reflexivity.
Defined.

(** X15: from there on it raises: for an int [m] with [365 * m / 60]
    at or above 2^1024 - 2^970, [get_annual_hours(m)] raises
    [OverflowError]. *)
Theorem get_annual_hours_int_overflow (m : Z) :
  60 * overflow_threshold <= 365 * m ->
  get_annual_hours (Py.Int m) = Raise OverflowError.
Proof.
  intros Hge. rewrite get_annual_hours_int.
  set (top := (60 * overflow_threshold - 1) / 365 + 1).
  assert (Htop : Py.int_truediv (top * 365) 60 = Raise OverflowError)
    by (vm_compute; reflexivity).
  assert (H0 : 0 <= top) by (vm_compute; discriminate).
  assert (Hle : top <= m).
  { unfold top.
    pose proof (Z.div_lt_upper_bound (60 * overflow_threshold - 1) 365 m
                  ltac:(lia) ltac:(lia)).
    lia. }
  clearbody top.
  destruct (Py.int_truediv (m * 365) 60) as [h|e] eqn:Hm.
  - destruct (int_truediv_mono 60 (top * 365) (m * 365) h ltac:(lia) Hm)
      as (h' & H' & _).
    congruence.
  - f_equal. eapply int_truediv_raises, Hm.
Qed.

Lemma get_annual_hours_int_overflow_witness :
  get_annual_hours (Py.Int (10 ^ 400)) = Raise OverflowError.
Proof.
  apply (get_annual_hours_int_overflow (10 ^ 400)). vm_compute. discriminate.
Defined.

(** ** Amounts that print alike *)

Lemma group_rev_cons d rest k :
  Fmt.group_rev (d :: rest) k
  = if bool_decide (k = 2%nat) && negb (bool_decide (rest = []))
    then d :: ","%char :: Fmt.group_rev rest 0
    else d :: Fmt.group_rev rest (S k).
Proof. destruct rest, k as [|[|[|k]]]; reflexivity. Qed.

Lemma group_rev_inj ds1 : forall ds2 k,
  Fmt.group_rev ds1 k = Fmt.group_rev ds2 k -> ds1 = ds2.
Proof.
  induction ds1 as [|d1 r1 IH]; intros [|d2 r2] k; try reflexivity.
  - rewrite group_rev_cons. destruct (_ && _); discriminate.
  - rewrite group_rev_cons. destruct (_ && _); discriminate.
  - rewrite !group_rev_cons.
    destruct (bool_decide (k = 2%nat)); cbn [andb].
    + destruct r1 as [|c1 r1], r2 as [|c2 r2];
        repeat case_bool_decide; try congruence; cbn [negb].
      * cbn. congruence.
      * cbn. discriminate.
      * cbn. discriminate.
      * intros [= -> Hg]. f_equal. exact (IH (c2 :: r2) 0%nat Hg).
    + intros [= -> Hg]. f_equal. exact (IH r2 (S k) Hg).
Qed.

Lemma group3_inj ds1 ds2 : Fmt.group3 ds1 = Fmt.group3 ds2 -> ds1 = ds2.
Proof.
  unfold Fmt.group3. intros H.
  apply (f_equal (@rev ascii)) in H. rewrite !rev_involutive in H.
  apply group_rev_inj in H.
  apply (f_equal (@rev ascii)) in H. rewrite !rev_involutive in H. exact H.
Qed.

Lemma group_rev_last ds : forall k, last (Fmt.group_rev ds k) = last ds.
Proof.
  induction ds as [|d rest IH]; intros k; [reflexivity|].
  rewrite group_rev_cons. destruct rest as [|c rest].
  - rewrite andb_false_r. reflexivity.
  - rewrite last_cons_cons.
    destruct (_ && _).
    + specialize (IH 0%nat). rewrite group_rev_cons in IH.
      rewrite !group_rev_cons. rewrite last_cons_cons.
      destruct (_ && _); rewrite !last_cons_cons in *; exact IH.
    + specialize (IH (S k)). rewrite group_rev_cons in IH.
      rewrite !group_rev_cons.
      destruct (_ && _); rewrite !last_cons_cons in *; exact IH.
Qed.

Lemma rev_is_reverse {A} (l : list A) : rev l = reverse l.
Proof. rewrite rev_alt. reflexivity. Qed.

Lemma group3_head ds : head (Fmt.group3 ds) = head ds.
Proof.
  unfold Fmt.group3. rewrite !rev_is_reverse.
  rewrite head_reverse, group_rev_last, last_reverse. reflexivity.
Qed.

Lemma digits_of_no_dash z : head (digits_of z) <> Some "-"%char.
Proof.
  unfold digits_of. intros H.
  destruct (pretty (Z.to_N (Z.abs z))) as [|c s] eqn:Hp; [discriminate|].
  cbn in H. injection H as ->.
  unfold pretty, pretty_N in Hp. destruct (decide _); [discriminate|].
  eapply (pretty_N_go_ne_dash _ "" s); [discriminate|exact Hp].
Qed.

Lemma format_int_grouped_inj a b :
  format_int_grouped a = format_int_grouped b -> a = b.
Proof.
  unfold format_int_grouped. intros H.
  apply (f_equal list_ascii_of_string) in H.
  rewrite !list_ascii_of_string_of_list_ascii in H.
  assert (Habs : forall x y, (x <? 0) = (y <? 0) -> Z.abs x = Z.abs y -> x = y).
  { intros x y Hs Ha. destruct (Z.ltb_spec x 0), (Z.ltb_spec y 0);
      try discriminate; lia. }
  assert (Hdig : forall x y, digits_of x = digits_of y -> Z.abs x = Z.abs y).
  { intros x y Hd. unfold digits_of in Hd.
    apply (f_equal string_of_list_ascii) in Hd.
    rewrite !string_of_list_ascii_of_string in Hd.
    apply (inj pretty) in Hd. lia. }
  unfold sign_of in H.
  destruct (a <? 0) eqn:Ha, (b <? 0) eqn:Hb; cbn [app] in H.
  - injection H as H. apply Habs; [congruence|]. apply Hdig, group3_inj, H.
  - exfalso. apply (f_equal head) in H. cbn [head] in H.
    rewrite group3_head in H. symmetry in H. eapply digits_of_no_dash, H.
  - exfalso. apply (f_equal head) in H. cbn [head] in H.
    rewrite group3_head in H. eapply digits_of_no_dash, H.
  - apply Habs; [congruence|]. apply Hdig, group3_inj, H.
Qed.

(** X16: two int amounts below 2^53 in size that [format_currency]
    shows alike are the same amount. (From 2^53 on this fails: 2^53 and
    2^53 + 1 are shown alike, see [format_currency_rounds_above].) *)
Theorem format_currency_int_injective (a b : Z) :
  Z.abs a < 2 ^ 53 -> Z.abs b < 2 ^ 53 ->
  format_currency (Py.Int a) = format_currency (Py.Int b) -> a = b.
Proof.
  intros Ha Hb. rewrite !format_currency_int by assumption.
  intros [= H]. apply format_int_grouped_inj.
  apply (f_equal list_ascii_of_string) in H.
  apply (f_equal string_of_list_ascii) in H.
  rewrite !string_of_list_ascii_of_string in H. exact H.
Qed.

Lemma format_currency_int_injective_witness : 1234567 = 1234567.
Proof.
  apply (format_currency_int_injective 1234567 1234567);
    vm_compute; reflexivity.
Defined.

Lemma format_currency_rounds_above :
  format_currency (Py.Int (2 ^ 53 + 1)) = format_currency (Py.Int (2 ^ 53))
  /\ format_currency (Py.Int (2 ^ 53)) = Ok "₹9,007,199,254,740,992"%string.
Proof. split; vm_compute; reflexivity. Qed.

(** ** Rates in tenths of a percent *)

Lemma elem_of_seqZ_check (P : Z -> bool) (lo len k : Z) :
  forallb P (seqZ lo len) = true -> lo <= k < lo + len -> P k = true.
Proof.
  intros Hall Hk. assert (Hin : k ∈ seqZ lo len) by (apply elem_of_seqZ; lia).
  clear Hk. induction (seqZ lo len) as [|x l IH]; [inversion Hin|].
  cbn [forallb] in Hall. apply andb_true_iff in Hall as [Hx Hl].
  apply elem_of_cons in Hin as [->|Hin]; auto.
Qed.

(** X17: a rate of whole tenths of a percent is shown as it is: for
    [0 <= k <= 1000], [format_percentage] of the float [k / 1000] is
    the text of [k / 10] with one decimal and a percent sign (0.106
    gives 10.6%, 0.2 gives 20.0%). *)
Theorem format_percentage_tenths (k : Z) :
  0 <= k <= 1000 ->
  (rate ← Py.int_truediv k 1000; format_percentage (Py.Float rate))
  = Ok (tenths k +:+ "%").
Proof.
  intros Hk.
  assert (Hall : forallb
            (fun k => match rate ← Py.int_truediv k 1000;
                            format_percentage (Py.Float rate) with
                      | Ok s => String.eqb s (tenths k +:+ "%")
                      | Raise _ => false
                      end) (seqZ 0 1001) = true)
    by (vm_compute; reflexivity).
  pose proof (elem_of_seqZ_check _ 0 1001 k Hall ltac:(lia)) as H.
  cbv beta in H.
  destruct (_ ≫= _) as [s|e]; [|discriminate].
  apply String.eqb_eq in H. congruence.
Qed.

Lemma format_percentage_tenths_witness :
  (rate ← Py.int_truediv 106 1000; format_percentage (Py.Float rate))
  = Ok (tenths 106 +:+ "%").
Proof. apply (format_percentage_tenths 106). lia. Defined.

(** ** The tables *)

(** X18: the wage table is not keyed by the activities of the time
    table: of the eleven activity names of [TIME_ALLOCATION] only
    [shopping] and [childcare] are keys of the eight-entry
    [WAGE_PROXIES], so [WAGE_PROXIES[activity]] is a [KeyError] for the
    other nine. *)
Theorem wage_proxies_by_activity :
  size TIME_ALLOCATION = 11%nat
  /\ size WAGE_PROXIES = 8%nat
  /\ activities_with_wage = {[ "shopping"; "childcare" ]}%string
  /\ forall a : string,
       a ∈ dom TIME_ALLOCATION -> a <> "shopping"%string ->
       a <> "childcare"%string -> WAGE_PROXIES !! a = None.
Proof.
  assert (Hset : activities_with_wage = {[ "shopping"; "childcare" ]}%string)
    by (apply (bool_decide_unpack _); vm_compute; exact I).
  split; [vm_compute; reflexivity|].
  split; [vm_compute; reflexivity|].
  split; [exact Hset|].
  intros a Ha Hs Hc. apply not_elem_of_dom. intros Hw.
  assert (Hin : a ∈ activities_with_wage) by (apply elem_of_intersection; auto).
  rewrite Hset in Hin. apply elem_of_union in Hin as [Hin|Hin];
    apply elem_of_singleton in Hin; congruence.
Qed.

(** ** Adjusted annual hours *)

(** X19: the two helpers in a row: for daily minutes [0 <= m1 <= m2]
    (floats), [apply_emotional_labor_adjustment(get_annual_hours(m))]
    returns for both, the adjusted hours are not below the hours, and
    more minutes never give fewer adjusted hours. *)
Theorem adjusted_annual_hours_monotone (m1 m2 : float) :
  (0 <=? m1)%float = true -> (m1 <=? m2)%float = true ->
  exists h1 h2 a1 a2,
    get_annual_hours (Py.Float m1) = Ok h1
    /\ get_annual_hours (Py.Float m2) = Ok h2
    /\ apply_emotional_labor_adjustment (Py.Float h1) = Ok (Py.Float a1)
    /\ apply_emotional_labor_adjustment (Py.Float h2) = Ok (Py.Float a2)
    /\ (0 <=? h1)%float = true
    /\ (h1 <=? a1)%float = true
    /\ (h2 <=? a2)%float = true
    /\ (a1 <=? a2)%float = true.
Proof.
  intros H0 H12.
  destruct (hours_mono_nonneg m1 m2 H0 H12) as [Hn Hh].
  exists (m1 * 365 / 60)%float, (m2 * 365 / 60)%float,
         (m1 * 365 / 60 * (Py.Z2F 1 + EMOTIONAL_LABOR_PREMIUM))%float,
         (m2 * 365 / 60 * (Py.Z2F 1 + EMOTIONAL_LABOR_PREMIUM))%float.
  rewrite !get_annual_hours_float, !apply_emotional_labor_adjustment_float.
  do 4 (split; [reflexivity|]).
  assert (Hc : 2 ^ 52 <= Z.pos 5404319552844595) by (vm_compute; discriminate).
  set (h1 := (m1 * 365 / 60)%float) in *.
  set (h2 := (m2 * 365 / 60)%float) in *.
  rewrite !leb_spec in *.
  assert (Hn2 : nonneg (Prim2SF h2)).
  { unfold nonneg in *.
    destruct (Prim2SF h1) as [|[]| |[]], (Prim2SF h2) as [|[]| |[]];
      try discriminate; reflexivity. }
  rewrite !(mul_spec _ (Py.Z2F 1 + EMOTIONAL_LABOR_PREMIUM)), Prim2SF_1_2.
  split; [exact Hn|].
  split; [apply SFmul_above; auto using Prim2SF_valid; lia|].
  split; [apply SFmul_above; auto using Prim2SF_valid; lia|].
  apply (SFmul_mono _ _ Hc); auto using Prim2SF_valid.
Qed.

Lemma adjusted_annual_hours_monotone_witness :
  exists h1 h2 a1 a2,
    get_annual_hours (Py.Float 94) = Ok h1
    /\ get_annual_hours (Py.Float 441) = Ok h2
    /\ apply_emotional_labor_adjustment (Py.Float h1) = Ok (Py.Float a1)
    /\ apply_emotional_labor_adjustment (Py.Float h2) = Ok (Py.Float a2)
    /\ (0 <=? h1)%float = true
    /\ (h1 <=? a1)%float = true
    /\ (h2 <=? a2)%float = true
    /\ (a1 <=? a2)%float = true.
Proof.
  apply (adjusted_annual_hours_monotone 94 441); vm_compute; reflexivity.
Defined.

(** ** Small amounts *)

Lemma rne_small n d : 0 <= n -> 0 < d -> 2 * n <= d -> rne n d = 0.
Proof.
  intros Hn H0 Hd. unfold Fmt.round_half_even.
  assert (Hlt : n < d) by lia.
  rewrite Z.div_small, Z.mod_small by lia.
  destruct (Z.compare_spec (2 * n) d); try reflexivity; lia.
Qed.

Lemma get_sign_spec (x : float) :
  get_sign x = match Prim2SF x with
               | S754_zero s | S754_infinity s | S754_finite s _ _ => s
               | S754_nan => false
               end.
Proof.
  unfold get_sign, is_zero. rewrite FloatAxioms.eqb_spec.
  change (Prim2SF PrimFloat.zero) with (S754_zero false).
  destruct (Prim2SF x) as [[]|[]| |[] m e] eqn:E; cbn [SFeqb SFcompare];
    rewrite ltb_spec, ?div_spec, E; reflexivity.
Qed.

Lemma format_currency_float (x : float) :
  format_currency (Py.Float x)
  = Ok ("₹" +:+ string_of_list_ascii (Fmt.format_f true 0 x)).
Proof.
  rewrite format_currency_body. unfold Fmt.format_num.
  cbn [mbind result_bind Fmt.presentation Fmt.grouping Fmt.precision].
  rewrite bool_decide_eq_false_2 by discriminate.
  cbn [mbind result_bind].
  rewrite string_of_list_ascii_app, string_of_list_ascii_of_string.
  reflexivity.
Qed.

(** X20: an amount of at most half a rupee in size is shown as zero,
    with the sign it has: [format_currency(x)] is "₹0" for a float [x]
    with [abs(x) <= 0.5] whose sign is positive, and "₹-0" when the sign
    is negative (-0.3, -0.5 and -0.0 all give "₹-0"). *)
Theorem format_currency_half_rupee (x : float) :
  (abs x <=? 0.5)%float = true ->
  format_currency (Py.Float x) = Ok (if get_sign x then "₹-0" else "₹0")%string.
Proof.
  rewrite leb_spec, abs_spec, get_sign_spec, format_currency_float.
  unfold Fmt.format_f.
  pose proof (Prim2SF_valid x) as Hv.
  change (Prim2SF 0.5) with (S754_finite false 4503599627370496 (-53)).
  destruct (Prim2SF x) as [s|s| |s m e]; cbn [SFabs].
  - intros _. destruct s; reflexivity.
  - discriminate.
  - discriminate.
  - intros Hle. apply SFleb_finite_inv in Hle.
    apply valid_finite in Hv as [Hcan Hmax].
    pose proof (Zdigits2_upper (Z.pos m) ltac:(lia)) as Hup.
    assert (Hm : Z.pos m < 2 ^ 53).
    { eapply Z.lt_le_trans; [exact Hup|]. apply Z.pow_le_mono_r; lia. }
    assert (Hs : Fmt.scaled m e 0 = 0).
    { unfold Fmt.scaled. destruct e as [|k|k]; try lia.
      rewrite Z.pow_0_r, Z.mul_1_r. apply rne_small; [lia|apply pow2_pos; lia|].
      destruct Hle as [Hlt|[Heq Hle]].
      - assert (2 ^ 54 <= 2 ^ Z.pos k) by (apply Z.pow_le_mono_r; lia).
        change (2 ^ 54) with (2 * 2 ^ 53) in H. lia.
      - injection Heq as ->. change (2 ^ 53) with 9007199254740992. lia. }
    rewrite Hs. destruct s; reflexivity.
Qed.

Lemma format_currency_half_rupee_witness :
  format_currency (Py.Float (-0.3))
  = Ok (if get_sign (-0.3) then "₹-0" else "₹0")%string.
Proof.
  apply (format_currency_half_rupee (-0.3)). vm_compute. reflexivity.
Defined.

(** ** Ints and floats give the same hours *)

Lemma Zdigits2_unique m d :
  0 < m -> 2 ^ (d - 1) <= m < 2 ^ d -> Zdigits2 m = d.
Proof.
  intros Hm [Hlo Hhi]. pose proof (Zdigits2_bounds m Hm) as [Hlo' Hhi'].
  pose proof (Zdigits2_nonneg m) as Hn.
  assert (Hd : 0 <= d).
  { destruct (Z.le_gt_cases 0 d) as [H|H]; [exact H|].
    rewrite Z.pow_neg_r in Hhi by lia. lia. }
  destruct (Z.lt_trichotomy (Zdigits2 m) d) as [H|[H|H]]; [exfalso|exact H|exfalso].
  - assert (2 ^ Zdigits2 m <= 2 ^ (d - 1)) by (apply Z.pow_le_mono_r; lia). lia.
  - assert (2 ^ d <= 2 ^ (Zdigits2 m - 1)) by (apply Z.pow_le_mono_r; lia). lia.
Qed.

Lemma Zdigits2_mul_pow2 v k :
  0 < v -> 0 <= k -> Zdigits2 (v * 2 ^ k) = Zdigits2 v + k.
Proof.
  intros Hv Hk. pose proof (Zdigits2_bounds v Hv) as [Hlo Hhi].
  pose proof (pow2_pos k Hk) as Hp.
  assert (H1 : 1 <= Zdigits2 v) by (destruct v; try lia; cbn; lia).
  apply Zdigits2_unique; [nia|].
  replace (Zdigits2 v + k - 1) with (Zdigits2 v - 1 + k) by lia.
  rewrite !Z.pow_add_r by lia. split.
  - apply Z.mul_le_mono_nonneg_r; lia.
  - apply Z.mul_lt_mono_pos_r; lia.
Qed.

Lemma rne_scale a b c : 0 < b -> 0 < c -> rne (a * c) (b * c) = rne a b.
Proof.
  intros Hb Hc. assert (0 < b * c) by nia.
  apply Z.le_antisymm; apply rne_mono; try assumption; lia.
Qed.

Lemma small_facts v :
  0 < v < 2 ^ 53 ->
  1 <= Zdigits2 v <= 53
  /\ 2 ^ 52 <= v * 2 ^ (53 - Zdigits2 v) < 2 ^ 53
  /\ Zdigits2 (v * 2 ^ (53 - Zdigits2 v)) = 53.
Proof.
  intros Hv. pose proof (Zdigits2_le_53 v Hv) as Hd.
  pose proof (Zdigits2_bounds v ltac:(lia)) as [Hlo Hhi].
  split; [exact Hd|].
  assert (Hp : 0 < 2 ^ (53 - Zdigits2 v)) by (apply pow2_pos; lia).
  split.
  - assert (H52 : 2 ^ 52 = 2 ^ (Zdigits2 v - 1) * 2 ^ (53 - Zdigits2 v))
      by (rewrite <- Z.pow_add_r by lia; f_equal; lia).
    assert (H53 : 2 ^ 53 = 2 ^ Zdigits2 v * 2 ^ (53 - Zdigits2 v))
      by (rewrite <- Z.pow_add_r by lia; f_equal; lia).
    rewrite H52, H53. split.
    + apply Z.mul_le_mono_nonneg_r; lia.
    + apply Z.mul_lt_mono_pos_r; lia.
  - rewrite Zdigits2_mul_pow2 by lia. lia.
Qed.

(** Rounding an int below 2^53 that is given with trailing zeros. *)
Lemma binary_round_aux_integer v k :
  0 < v < 2 ^ 53 -> 53 - Zdigits2 v <= k ->
  binary_round_aux prec emax false (v * 2 ^ k / 1) (- k)
    (loc_of_rem ((v * 2 ^ k) mod 1) 1)
  = SF_of_small v.
Proof.
  intros Hv Hk. destruct (small_facts v Hv) as (Hd & Hm & Hdm).
  assert (Hk0 : 0 <= k) by lia.
  pose proof (pow2_pos k Hk0) as Hp.
  assert (HE : fexp64 (Zdigits2 (v * 2 ^ k / 1) + - k) = Zdigits2 v - 53).
  { rewrite Z.div_1_r, Zdigits2_mul_pow2, fexp64_eq by lia. lia. }
  rewrite binary_round_aux_located by (try nia; lia).
  rewrite HE, Z.mul_1_r.
  replace (v * 2 ^ k)
    with (v * 2 ^ (53 - Zdigits2 v) * 2 ^ (Zdigits2 v - 53 - - k)).
  2: { rewrite <- Z.mul_assoc, <- Z.pow_add_r by lia. f_equal. f_equal. lia. }
  rewrite rne_exact by (apply pow2_pos; lia).
  destruct (finish_cases (v * 2 ^ (53 - Zdigits2 v)) (Zdigits2 v - 53)
              ltac:(lia) ltac:(lia)) as [[H0 _]|[[_ ->]|[H53 _]]]; try lia.
  rewrite (proj2 (Z.leb_le _ _)) by lia. reflexivity.
Qed.

Lemma binary_normalize_small p :
  Z.pos p < 2 ^ 53 ->
  binary_normalize prec emax (Z.pos p) 0 false = SF_of_small (Z.pos p)
  /\ binary_normalize prec emax (Z.neg p) 0 false = SFopp (SF_of_small (Z.pos p)).
Proof.
  intros Hp. pose proof (Zdigits2_le_53 (Z.pos p) ltac:(lia)) as Hd.
  unfold binary_normalize, binary_round.
  assert (HE : fexp prec emax (Z.pos (digits2_pos p) + 0)
               = Zdigits2 (Z.pos p) - 53)
    by (rewrite fexp64_eq; cbn [Zdigits2] in *; lia).
  rewrite HE. unfold shl_align.
  assert (Hr : forall m e k, Z.pos m = Z.pos p * 2 ^ k -> e = - k ->
            53 - Zdigits2 (Z.pos p) <= k ->
            binary_round_aux prec emax false (Z.pos m) e loc_Exact
            = SF_of_small (Z.pos p)).
  { intros m e k Hm -> Hk.
    rewrite <- (binary_round_aux_integer (Z.pos p) k) by lia.
    rewrite Z.div_1_r, Z.mod_1_r, Hm. reflexivity. }
  destruct (Zdigits2 (Z.pos p) - 53 - 0) as [|d|d] eqn:Hsh; try lia;
    cbv beta iota; rewrite (binary_round_aux_sign true).
  - rewrite (Hr p 0 0); [split; reflexivity|lia..].
  - rewrite (Hr (Pos.iter xO p d) _ (Z.pos d)); [split; reflexivity|..]; try lia.
    apply Zpos_iter_xO.
Qed.

Lemma Z2SF_pos p : Py.Z2SF (Z.pos p) = S754_finite false p 0.
Proof. reflexivity. Qed.

(** A product of small ints that stays small is exact. *)
Lemma SFmul_small v c :
  0 < v -> 0 < c -> v * c < 2 ^ 53 ->
  SFmul prec emax (SF_of_small v) (SF_of_small c) = SF_of_small (v * c).
Proof.
  intros Hv Hc Hvc.
  assert (Hv' : 0 < v < 2 ^ 53) by nia.
  assert (Hc' : 0 < c < 2 ^ 53) by nia.
  destruct (small_facts v Hv') as (Hdv & Hmv & _).
  destruct (small_facts c Hc') as (Hdc & Hmc & _).
  destruct (small_facts (v * c) ltac:(nia)) as (Hdvc & _ & _).
  unfold SF_of_small at 1 2. cbn [SFmul xorb].
  rewrite Pos2Z.inj_mul, !Z2Pos.id by lia.
  remember (53 - Zdigits2 v) as kv eqn:Ekv.
  remember (53 - Zdigits2 c) as kc eqn:Ekc.
  replace (v * 2 ^ kv * (c * 2 ^ kc)) with (v * c * 2 ^ (kv + kc))
    by (rewrite Z.pow_add_r by lia; ring).
  replace (Zdigits2 v - 53 + (Zdigits2 c - 53)) with (- (kv + kc)) by lia.
  rewrite <- (binary_round_aux_integer (v * c) (kv + kc)); [|lia|].
  - rewrite Z.div_1_r, Z.mod_1_r. reflexivity.
  - (* digits of the product are at least those of either factor *)
    pose proof (Zdigits2_bounds v ltac:(lia)) as [Hlv _].
    pose proof (Zdigits2_bounds (v * c) ltac:(nia)) as [_ Huvc].
    assert (Zdigits2 v - 1 < Zdigits2 (v * c)).
    { apply (Z.pow_lt_mono_r_iff 2); [lia|lia|]. nia. }
    lia.
Qed.

(** The quotient of two small ints does not depend on how they are
    given. *)
Lemma SFdiv_small p q :
  Z.pos p < 2 ^ 53 -> Z.pos q < 2 ^ 53 ->
  SFdiv prec emax (SF_of_small (Z.pos p)) (SF_of_small (Z.pos q))
  = SFdiv prec emax (Py.Z2SF (Z.pos p)) (Py.Z2SF (Z.pos q)).
Proof.
  intros Hp Hq.
  destruct (small_facts (Z.pos p) ltac:(lia)) as (Hdp & Hmp & Hdmp).
  destruct (small_facts (Z.pos q) ltac:(lia)) as (Hdq & Hmq & Hdmq).
  unfold SF_of_small. rewrite !Z2SF_pos, !div_located.
  remember (Zdigits2 (Z.pos p)) as dp eqn:Edp.
  remember (Zdigits2 (Z.pos q)) as dq eqn:Edq.
  remember (Z.to_pos (Z.pos p * 2 ^ (53 - dp))) as mp eqn:Emp.
  remember (Z.to_pos (Z.pos q * 2 ^ (53 - dq))) as mq eqn:Emq.
  assert (Hmp' : Z.pos mp = Z.pos p * 2 ^ (53 - dp)) by (rewrite Emp, Z2Pos.id; lia).
  assert (Hmq' : Z.pos mq = Z.pos q * 2 ^ (53 - dq)) by (rewrite Emq, Z2Pos.id; lia).
  clear Emp Emq.
  assert (HeA : div_exp mq (dq - 53) mp (dp - 53) = dp - dq - 53).
  { unfold div_exp. rewrite Hmp', Hmq', Hdmp, Hdmq, fexp64_eq. lia. }
  assert (HeB : div_exp q 0 p 0 = dp - dq - 53).
  { unfold div_exp. rewrite <- Edp, <- Edq, fexp64_eq. lia. }
  assert (HnA : div_num mq (dq - 53) mp (dp - 53)
                = Z.pos p * 2 ^ (53 - dp + dq) * 2 ^ (53 - dq)).
  { unfold div_num. rewrite HeA, Hmp'.
    replace (dp - 53 - (dq - 53) - (dp - dq - 53)) with 53 by lia.
    rewrite <- !Z.mul_assoc, <- !Z.pow_add_r by lia. f_equal. f_equal. lia. }
  assert (HnB : div_num q 0 p 0 = Z.pos p * 2 ^ (53 - dp + dq)).
  { unfold div_num. rewrite HeB. f_equal. f_equal. lia. }
  pose proof (div_exp_small mq (dq - 53) mp (dp - 53)) as HsA.
  pose proof (div_exp_small q 0 p 0) as HsB.
  pose proof (div_num_nonneg mq (dq - 53) mp (dp - 53)) as H0A.
  pose proof (div_num_nonneg q 0 p 0) as H0B.
  rewrite !binary_round_aux_located by (assumption || lia).
  rewrite HeA, HeB, HnA, HnB, Hmq'.
  assert (Hc : 0 < 2 ^ (53 - dq)) by (apply pow2_pos; lia).
  rewrite Z.div_mul_cancel_r by lia.
  rewrite Z.mul_assoc, rne_scale; [reflexivity| |exact Hc].
  apply Z.mul_pos_pos; [apply pow2_pos|lia].
  rewrite HeB, HnB in HsB. lia.
Qed.

Lemma SF_of_small_valid p :
  Z.pos p < 2 ^ 53 ->
  valid_binary (SF_of_small (Z.pos p)) = true
  /\ valid_binary (SFopp (SF_of_small (Z.pos p))) = true.
Proof.
  intros Hp. destruct (binary_normalize_exact p Hp) as (m & e & H1 & _ & Hv & _).
  destruct (binary_normalize_small p Hp) as [H2 _].
  rewrite <- H2, H1. split; exact Hv.
Qed.

Lemma Prim2SF_Z2F_small p :
  Z.pos p < 2 ^ 53 ->
  Prim2SF (Py.Z2F (Z.pos p)) = SF_of_small (Z.pos p)
  /\ Prim2SF (Py.Z2F (Z.neg p)) = SFopp (SF_of_small (Z.pos p)).
Proof.
  intros Hp. unfold Py.Z2F.
  destruct (binary_normalize_small p Hp) as [-> ->].
  destruct (SF_of_small_valid p Hp) as [Hv Hvo].
  rewrite !Prim2SF_SF2Prim by assumption. split; reflexivity.
Qed.

(** The hours of a small int, as the division of ints gives them and
    as the float operations give them. *)
Lemma hours_small p :
  Z.pos p * 365 < 2 ^ 53 ->
  SFdiv prec emax (Py.Z2SF (Z.pos p * 365)) (Py.Z2SF 60)
  = SFdiv prec emax
      (SFmul prec emax (SF_of_small (Z.pos p)) (Prim2SF 365)) (Prim2SF 60)
  /\ SFeqb (SFabs (SFdiv prec emax (Py.Z2SF (Z.pos p * 365)) (Py.Z2SF 60)))
           (S754_infinity false) = false.
Proof.
  intros Hp. split.
  - change (Prim2SF 365) with (SF_of_small 365).
    change (Prim2SF 60) with (SF_of_small 60).
    rewrite SFmul_small by lia.
    change (Z.pos p * 365) with (Z.pos (p * 365)).
    rewrite (SFdiv_small (p * 365) 60); [reflexivity|lia|reflexivity].
  - pose proof (int_quotient_mono 60 (Z.pos p * 365) (2 ^ 53) ltac:(lia)) as Hle.
    destruct (int_quotient_facts 60 (Z.pos p * 365) ltac:(lia)) as [_ Hn].
    change (Py.Z2SF (Z.pos 60)) with (Py.Z2SF 60) in *.
    destruct (SFdiv prec emax (Py.Z2SF (Z.pos p * 365)) (Py.Z2SF 60))
      as [s|[]| |[] m e]; try reflexivity; try discriminate.
Qed.

Lemma SFabs_opp x : SFabs (SFopp x) = SFabs x.
Proof. destruct x; reflexivity. Qed.

Lemma hours_int_float (m : Z) :
  Z.abs m * 365 < 2 ^ 53 ->
  get_annual_hours (Py.Int m) = get_annual_hours (Py.Float (Py.Z2F m)).
Proof.
  intros Hm. rewrite get_annual_hours_int, get_annual_hours_float.
  unfold Py.int_truediv. cbn [Z.eqb].
  assert (Hsf : SFdiv prec emax (Py.Z2SF (m * 365)) (Py.Z2SF 60)
                = Prim2SF (Py.Z2F m * 365 / 60)
                /\ SFeqb (SFabs (SFdiv prec emax (Py.Z2SF (m * 365)) (Py.Z2SF 60)))
                         (S754_infinity false) = false).
  { rewrite div_spec, mul_spec. destruct m as [|p|p]; cbn [Z.abs] in Hm.
    - split; reflexivity.
    - destruct (Prim2SF_Z2F_small p ltac:(lia)) as [-> _].
      apply hours_small, Hm.
    - destruct (Prim2SF_Z2F_small p ltac:(lia)) as [_ ->].
      destruct (hours_small p Hm) as [Heq Hfin].
      change (Py.Z2SF (Z.neg p * 365))
        with (SFopp (Py.Z2SF (Z.pos p * 365))).
      change (Prim2SF 365) with (S754_finite false (Z.to_pos (365 * 2 ^ 44)) (-44)) in *.
      change (Prim2SF 60) with (S754_finite false (Z.to_pos (60 * 2 ^ 47)) (-47)) in *.
      change (Py.Z2SF 60) with (S754_finite false 60 0) in *.
      rewrite SFmul_opp, !SFdiv_opp, SFabs_opp, Heq. split; [reflexivity|].
      rewrite <- Heq. exact Hfin. }
  destruct Hsf as [Hsf Hfin]. rewrite Hsf, SF2Prim_Prim2SF.
  unfold is_infinity. rewrite FloatAxioms.eqb_spec, abs_spec, <- Hsf.
  change (Prim2SF infinity) with (S754_infinity false). rewrite Hfin.
  reflexivity.
Qed.

(** X21: an int and the float of the same value give the same hours:
    for an int [m] with [abs(m) * 365 < 2^53],
    [get_annual_hours(m)] is [get_annual_hours(float(m))]; the division
    of ints and the two float operations round alike. *)
Theorem get_annual_hours_int_float (m : Z) :
  Z.abs m * 365 < 2 ^ 53 ->
  get_annual_hours (Py.Int m) = get_annual_hours (Py.Float (Py.Z2F m)).
Proof. apply hours_int_float. Qed.

Lemma get_annual_hours_int_float_witness :
  get_annual_hours (Py.Int 441) = get_annual_hours (Py.Float (Py.Z2F 441)).
Proof.
  apply (get_annual_hours_int_float 441). vm_compute. reflexivity.
Defined.

(** ** Annual hours of ints and floats together *)

Lemma le_int_int (x y : Z) : Py.le (Py.Int x) (Py.Int y) = (x <=? y)%Z.
Proof. unfold Py.le, Py.compare, Z.leb. destruct (x ?= y)%Z; reflexivity. Qed.

(** The exact comparison of an int with a finite positive float, on
    integers. *)
Lemma compare_int_float_finite z x m e :
  Prim2SF x = S754_finite false m e ->
  Py.compare_int_float z x
  = Some (match e with
          | Z.neg k => z * 2 ^ Z.pos k ?= Z.pos m
          | _ => z ?= Z.pos m * 2 ^ e
          end).
Proof.
  intros Hx. unfold Py.compare_int_float. rewrite Hx. cbn [Py.SF2Q cond_Zopp].
  f_equal. unfold Qcompare, inject_Z, Qnum, Qden.
  destruct e as [|k|k]; rewrite ?Z.mul_1_r; try reflexivity.
  change (Pos.shiftl 1 (N.pos k)) with (Pos.iter xO 1%positive k).
  rewrite Zpos_iter_xO, Z.mul_1_l. reflexivity.
Qed.

Lemma valid_finite_bounds m e :
  valid_binary (S754_finite false m e) = true ->
  Z.pos m < 2 ^ 53 /\ (-1074 < e -> 2 ^ 52 <= Z.pos m).
Proof.
  intros Hv. apply valid_finite in Hv as [Hcan _].
  pose proof (Zdigits2_bounds (Z.pos m) ltac:(lia)) as [Hlo Hhi].
  split.
  - eapply Z.lt_le_trans; [exact Hhi|]. apply Z.pow_le_mono_r; lia.
  - intros He. assert (Hd : Zdigits2 (Z.pos m) = 53) by lia.
    rewrite Hd in Hlo. exact Hlo.
Qed.

Lemma SF_of_small_parts v :
  0 < v < 2 ^ 53 ->
  exists mv,
    SF_of_small v = S754_finite false mv (Zdigits2 v - 53)
    /\ Z.pos mv = v * 2 ^ (53 - Zdigits2 v)
    /\ 1 <= Zdigits2 v <= 53
    /\ 2 ^ 52 <= Z.pos mv < 2 ^ 53
    /\ 2 ^ (Zdigits2 v - 1) <= v < 2 ^ Zdigits2 v.
Proof.
  intros Hv. destruct (small_facts v Hv) as (Hd & Hm & _).
  exists (Z.to_pos (v * 2 ^ (53 - Zdigits2 v))).
  rewrite Z2Pos.id by lia. repeat split; try lia; apply Zdigits2_bounds; lia.
Qed.

(** An int below 2^53 that is at most a float converts to a float that
    is at most that float. *)
Lemma int_le_float a x :
  0 <= a < 2 ^ 53 ->
  Py.le (Py.Int a) (Py.Float x) = true ->
  (0 <=? Py.Z2F a)%float = true /\ (Py.Z2F a <=? x)%float = true.
Proof.
  intros Ha Hle.
  destruct a as [|p|p]; try lia.
  { rewrite le_0_float in Hle. split; [reflexivity|exact Hle]. }
  rewrite !leb_spec.
  change (Prim2SF 0) with (S754_zero false).
  unfold Py.le, Py.compare in Hle.
  pose proof (Prim2SF_valid x) as Hv.
  - destruct (Prim2SF_Z2F_small p ltac:(lia)) as [-> _].
    destruct (SF_of_small_parts (Z.pos p) ltac:(lia))
      as (mp & -> & Hmp & Hdg & Hmb & Hpb).
    split; [reflexivity|].
    destruct (Prim2SF x) as [s|[]| |[] m e] eqn:Hx.
    1-5: unfold Py.compare_int_float in Hle; rewrite Hx in Hle;
      cbn [Py.SF2Q cond_Zopp] in Hle.
    + cbn in Hle. destruct s; discriminate.
    + discriminate.
    + reflexivity.
    + discriminate.
    + exfalso. unfold Qcompare, inject_Z, Qnum, Qden in Hle.
      assert (Hp : 0 < Z.pos m * 2 ^ e \/ e < 0).
      { destruct (Z.le_gt_cases 0 e) as [He|He]; [left|right; lia].
        pose proof (pow2_pos e He). nia. }
      destruct e as [|k|k]; rewrite ?Z.mul_1_r in Hle;
        match type of Hle with
        | context [(?a ?= ?b)] => destruct (Z.compare_spec a b)
        end; try discriminate; lia.
    + rewrite (compare_int_float_finite _ _ _ _ Hx) in Hle.
      destruct (valid_finite_bounds m e Hv) as [Hm53 _].
      apply SFleb_finite.
      remember (Zdigits2 (Z.pos p)) as dg eqn:Edg.
      destruct (Z.lt_trichotomy (dg - 53) e) as [Hlt|[Heq|Hgt]]; [left; exact Hlt| |].
      * right. split; [exact Heq|]. rewrite Hmp.
        destruct e as [|k|k]; try lia.
        -- replace (53 - dg) with 0 by lia. rewrite Z.pow_0_r, Z.mul_1_r in *.
           destruct (Z.compare_spec (Z.pos p) (Z.pos m)); try discriminate; lia.
        -- replace (53 - dg) with (Z.pos k) by lia.
           destruct (Z.compare_spec (Z.pos p * 2 ^ Z.pos k) (Z.pos m));
             try discriminate; lia.
      * exfalso. destruct e as [|k|k]; try lia.
        assert (Hk : 54 - dg <= Z.pos k) by lia.
        assert (H53 : 2 ^ 53 <= Z.pos p * 2 ^ Z.pos k).
        { apply Z.le_trans with (2 ^ (dg - 1) * 2 ^ (54 - dg)).
          - rewrite <- Z.pow_add_r by lia. apply Z.pow_le_mono_r; lia.
          - apply Z.mul_le_mono_nonneg;
              [apply Z.lt_le_incl, pow2_pos; lia | lia
              |apply Z.lt_le_incl, pow2_pos; lia
              |apply Z.pow_le_mono_r; lia]. }
        destruct (Z.compare_spec (Z.pos p * 2 ^ Z.pos k) (Z.pos m));
          try discriminate; lia.
Qed.

(** A float that is not negative and at most an int below 2^53 is at
    most the float of that int. *)
Lemma float_le_int x b :
  0 <= b < 2 ^ 53 ->
  (0 <=? x)%float = true ->
  Py.le (Py.Float x) (Py.Int b) = true ->
  (x <=? Py.Z2F b)%float = true.
Proof.
  intros Hb H0 Hle. rewrite leb_spec in *.
  change (Prim2SF 0) with (S754_zero false) in H0.
  unfold Py.le, Py.compare in Hle.
  pose proof (Prim2SF_valid x) as Hv.
  destruct (Prim2SF x) as [s|[]| |[] m e] eqn:Hx; try discriminate.
  - (* zero *)
    destruct b as [|p|p]; try lia.
    + change (Prim2SF (Py.Z2F 0)) with (S754_zero false). destruct s; reflexivity.
    + destruct (Prim2SF_Z2F_small p ltac:(lia)) as [-> _]. destruct s; reflexivity.
  - (* +inf *)
    unfold Py.compare_int_float in Hle. rewrite Hx in Hle. discriminate.
  - (* finite *)
    rewrite (compare_int_float_finite _ _ _ _ Hx) in Hle. cbn [option_map] in Hle.
    destruct (valid_finite_bounds m e Hv) as [Hm53 Hm52].
    destruct b as [|p|p]; try lia.
    { exfalso. pose proof (pow2_pos e) as Hp.
      destruct e as [|k|k]; cbn [Z.mul] in Hle;
        match type of Hle with
        | context [(?a ?= ?b)] => destruct (Z.compare_spec a b)
        end; try discriminate; try lia. }
    destruct (Prim2SF_Z2F_small p ltac:(lia)) as [-> _].
    destruct (SF_of_small_parts (Z.pos p) ltac:(lia))
      as (mp & -> & Hmp & Hdg & Hmb & Hpb).
    apply SFleb_finite.
    remember (Zdigits2 (Z.pos p)) as dg eqn:Edg.
    destruct (Z.lt_trichotomy e (dg - 53)) as [Hlt|[Heq|Hgt]]; [left; exact Hlt| |].
    + right. split; [exact Heq|]. rewrite Hmp.
      destruct e as [|k|k]; try lia.
      * replace (53 - dg) with 0 by lia. rewrite Z.pow_0_r, Z.mul_1_r in *.
        destruct (Z.compare_spec (Z.pos p) (Z.pos m)); try discriminate; lia.
      * replace (53 - dg) with (Z.pos k) by lia.
        destruct (Z.compare_spec (Z.pos p * 2 ^ Z.pos k) (Z.pos m));
          try discriminate; lia.
    + exfalso. specialize (Hm52 ltac:(lia)).
      destruct e as [|k|k].
      * rewrite Z.pow_0_r, Z.mul_1_r in Hle.
        assert (2 ^ dg <= 2 ^ 52) by (apply Z.pow_le_mono_r; lia).
        destruct (Z.compare_spec (Z.pos p) (Z.pos m)); try discriminate; lia.
      * assert (2 <= 2 ^ Z.pos k).
        { change 2 with (2 ^ 1) at 1. apply Z.pow_le_mono_r; lia. }
        assert (2 ^ 53 <= Z.pos m * 2 ^ Z.pos k).
        { change (2 ^ 53) with (2 ^ 52 * 2). apply Z.mul_le_mono_nonneg; lia. }
        destruct (Z.compare_spec (Z.pos p) (Z.pos m * 2 ^ Z.pos k));
          try discriminate; lia.
      * assert (Hk : dg + Z.pos k <= 52) by lia.
        assert (Z.pos p * 2 ^ Z.pos k < 2 ^ 52).
        { apply Z.lt_le_trans with (2 ^ dg * 2 ^ Z.pos k).
          - apply Z.mul_lt_mono_pos_r; [apply pow2_pos|]; lia.
          - rewrite <- Z.pow_add_r by lia. apply Z.pow_le_mono_r; lia. }
        destruct (Z.compare_spec (Z.pos p * 2 ^ Z.pos k) (Z.pos m));
          try discriminate; lia.
Qed.

(** An int that a float which is not negative is at most is not
    negative. *)
Lemma float_le_int_sign x b :
  (0 <=? x)%float = true ->
  Py.le (Py.Float x) (Py.Int b) = true -> 0 <= b.
Proof.
  intros H0 Hle. rewrite leb_spec in H0.
  change (Prim2SF 0) with (S754_zero false) in H0.
  unfold Py.le, Py.compare in Hle.
  destruct (Z.le_gt_cases 0 b) as [Hb|Hb]; [exact Hb|exfalso].
  destruct (Prim2SF x) as [s|[]| |[] m e] eqn:Hx; try discriminate.
  - unfold Py.compare_int_float in Hle. rewrite Hx in Hle.
    cbn [Py.SF2Q option_map] in Hle.
    unfold Qcompare, inject_Z, Qnum, Qden in Hle.
    destruct (Z.compare_spec (b * 1) (0 * 1)); try discriminate; lia.
  - unfold Py.compare_int_float in Hle. rewrite Hx in Hle. discriminate.
  - rewrite (compare_int_float_finite _ _ _ _ Hx) in Hle. cbn [option_map] in Hle.
    assert (Hp : 0 < Z.pos m * 2 ^ e \/ e < 0).
    { destruct (Z.le_gt_cases 0 e) as [He|He]; [left|right; lia].
      pose proof (pow2_pos e He). nia. }
    assert (Hk : forall k, b * 2 ^ Z.pos k < 0).
    { intros k. pose proof (pow2_pos (Z.pos k) ltac:(lia)). nia. }
    destruct e as [|k|k]; try specialize (Hk k);
      match type of Hle with
      | context [(?a ?= ?b)] => destruct (Z.compare_spec a b)
      end; try discriminate; lia.
Qed.

Lemma get_annual_hours_exact (m : Py.num) :
  exact_minutes m ->
  get_annual_hours m = Ok (float_of m * 365 / 60)%float.
Proof.
  destruct m as [z|x]; cbn [exact_minutes float_of].
  - intros Hz. rewrite hours_int_float by exact Hz.
    apply get_annual_hours_float.
  - intros _. apply get_annual_hours_float.
Qed.

(** The order of the inputs is the order of their floats. *)
Lemma float_of_le (m1 m2 : Py.num) :
  exact_minutes m1 -> exact_minutes m2 ->
  (exists x, m1 = Py.Float x) \/ (exists x, m2 = Py.Float x) ->
  Py.le (Py.Int 0) m1 = true -> Py.le m1 m2 = true ->
  (0 <=? float_of m1)%float = true
  /\ (float_of m1 <=? float_of m2)%float = true.
Proof.
  intros H1 H2 Hf H0 H12.
  destruct m1 as [a|x1], m2 as [b|x2]; cbn [exact_minutes float_of] in *.
  - destruct Hf as [[x Hx]|[x Hx]]; discriminate.
  - rewrite le_int_int in H0. apply Z.leb_le in H0.
    apply int_le_float; [lia|exact H12].
  - rewrite le_0_float in H0. split; [exact H0|].
    pose proof (float_le_int_sign x1 b H0 H12) as Hb.
    apply float_le_int; [lia|exact H0|exact H12].
  - rewrite le_0_float in H0. rewrite le_float_float in H12.
    split; assumption.
Qed.

(** C7, as stated, fails for an int next to a float: the int
    24677258232169 is at most the float 24677258232169.0 (they are
    equal), both are daily minutes [>= 0], and the annual hours of the
    int, 150119987579028.09375, are above those of the float,
    150119987579028.0625. The product by 365 is beyond 2^53: the float
    path rounds it, the division of ints does not. *)
Lemma get_annual_hours_mixed_refuted :
  Py.le (Py.Int 0) (Py.Int 24677258232169) = true
  /\ Py.le (Py.Int 24677258232169) (Py.Float 24677258232169) = true
  /\ get_annual_hours (Py.Int 24677258232169) = Ok 150119987579028.09375%float
  /\ get_annual_hours (Py.Float 24677258232169) = Ok 150119987579028.0625%float
  /\ (150119987579028.09375 <=? 150119987579028.0625)%float = false.
Proof. repeat split; vm_compute; reflexivity. Qed.

(** C7, amended: for daily minutes [0 <= m1 <= m2] that are floats or
    ints with [m * 365 < 2^53], in any mix, or that are two ints with
    [365 * m2 < 60 * (2^1024 - 2^970)], [get_annual_hours] returns for
    both and is monotonically increasing: the result for [m1] is at
    most the result for [m2]. For a float and for an int with
    [m * 365 < 2^53] the result is the binary64 value
    [float(m) * 365 / 60]. The order of the inputs is Python's (exact
    between an int and a float), the order of the results is the one of
    binary64 (so [m >= 0] leaves NaN out). *)
Theorem get_annual_hours_monotone (m1 m2 : Py.num) :
  Py.le (Py.Int 0) m1 = true -> Py.le m1 m2 = true ->
  comparable_minutes m1 m2 ->
  exists h1 h2,
    get_annual_hours m1 = Ok h1
    /\ get_annual_hours m2 = Ok h2
    /\ (h1 <=? h2)%float = true
    /\ (exact_minutes m1 -> h1 = (float_of m1 * 365 / 60)%float)
    /\ (exact_minutes m2 -> h2 = (float_of m2 * 365 / 60)%float).
Proof.
  intros H0 H12 Hc.
  assert (Hval : forall m h, get_annual_hours m = Ok h -> exact_minutes m ->
                             h = (float_of m * 365 / 60)%float).
  { intros m h Hm He. rewrite (get_annual_hours_exact m He) in Hm.
    injection Hm as <-. reflexivity. }
  assert (Hmix : exact_minutes m1 -> exact_minutes m2 ->
            (exists x, m1 = Py.Float x) \/ (exists x, m2 = Py.Float x) ->
            exists h1 h2,
              get_annual_hours m1 = Ok h1 /\ get_annual_hours m2 = Ok h2
              /\ (h1 <=? h2)%float = true).
  { intros H1 H2 Hf.
    destruct (float_of_le m1 m2 H1 H2 Hf H0 H12) as [Hn Hle].
    exists (float_of m1 * 365 / 60)%float, (float_of m2 * 365 / 60)%float.
    rewrite !get_annual_hours_exact by assumption.
    split; [reflexivity|]. split; [reflexivity|].
    apply hours_mono_nonneg; assumption. }
  assert (Hret : exists h1 h2,
            get_annual_hours m1 = Ok h1 /\ get_annual_hours m2 = Ok h2
            /\ (h1 <=? h2)%float = true).
  { destruct m1 as [a|x1], m2 as [b|x2]; cbn [comparable_minutes] in Hc.
    - rewrite le_int_int in H0, H12. apply Z.leb_le in H0, H12.
      apply hours_int_returns; [lia|exact Hc].
    - destruct Hc as [H1 H2]. apply Hmix; eauto.
    - destruct Hc as [H1 H2]. apply Hmix; eauto.
    - destruct Hc as [H1 H2]. apply Hmix; eauto. }
  destruct Hret as (h1 & h2 & E1 & E2 & Hle).
  exists h1, h2. repeat split; auto.
Qed.

Lemma get_annual_hours_monotone_witness :
  exists h1 h2,
    get_annual_hours (Py.Int 98) = Ok h1
    /\ get_annual_hours (Py.Float 441) = Ok h2
    /\ (h1 <=? h2)%float = true
    /\ (exact_minutes (Py.Int 98)
        -> h1 = (float_of (Py.Int 98) * 365 / 60)%float)
    /\ (exact_minutes (Py.Float 441)
        -> h2 = (float_of (Py.Float 441) * 365 / 60)%float).
Proof.
  apply (get_annual_hours_monotone (Py.Int 98) (Py.Float 441));
    [vm_compute; reflexivity|vm_compute; reflexivity|].
  split; [vm_compute; reflexivity|exact I].
Defined.
